(** * Social publishing: platform compatibility, token validation,
      resumable chunked upload and fan-out

    A shallow embedding of the publishing code of the repository:
    - the compatibility predicate of the upload dialog (component
      [SocialMediaUploadModal]), module [Compat], and the handlers of the
      dialog for the selection and the upload, module [Dialog];
    - the edge functions [youtube-upload], [youtube-oauth] and
      [instagram-oauth]: token check, resumable chunked upload, responses
      and error handling, modules [YoutubeUpload], [YoutubeOauth] and
      [InstagramOauth]; the edge function [instagram-post], module
      [InstagramPost];
    - the hook [useSocialMediaUpload]: the upload functions of the
      platforms and the fan-out [uploadToSocialMedia], module [Hook]; the
      connection check and the disconnection of the hook [useYouTubeAuth],
      module [YouTubeAuth].

    Conventions of the embedding.
    - A JavaScript string is a [string]; one character stands for one code
      unit.  [null] and [undefined] are [None].
    - A JavaScript number that the code computes with is a [num]: an exact
      integer or [NaN].  Byte offsets, lengths and millisecond time stamps
      stay far below 2^53, where the exact integers and the doubles agree.
    - JSON documents that the code receives (request bodies, answers of the
      platforms, rows of the database) are records of the fields that the
      code reads, every optional field being an [option].
    - Everything outside the program (network, database, clock, local
      storage, library functions of the runtime) is an [Env]: a record of
      answer functions that may depend on the calls made so far.  Every
      call is recorded in a chronological trace of [event]s.
    - A loop whose number of iterations is not bounded by the code takes a
      bound on the iterations that are run; [Unfinished] is the outcome
      when the bound is reached.
    - Console logging is left out; it has no effect on control flow except
      where an argument of a log call can throw, which is kept. *)

From Stdlib Require Import ZArith List String Ascii Bool Lia.
From Stdlib Require Import DecimalString DecimalZ DecimalPos DecimalFacts.
Import ListNotations.
Open Scope string_scope.
Open Scope Z_scope.

Set Implicit Arguments.

(* ================================================================== *)
(** * JavaScript values and library functions used by the code *)

Module Js.

(** ** Numbers *)

Inductive num : Type :=
| Num (z : Z)
| NaN.

Definition add (a b : num) : num :=
  match a, b with
  | Num x, Num y => Num (x + y)
  | _, _ => NaN
  end.

Definition sub (a b : num) : num :=
  match a, b with
  | Num x, Num y => Num (x - y)
  | _, _ => NaN
  end.

Definition mul (a b : num) : num :=
  match a, b with
  | Num x, Num y => Num (x * y)
  | _, _ => NaN
  end.

(** [Math.min]: [NaN] if either argument is. *)
Definition min (a b : num) : num :=
  match a, b with
  | Num x, Num y => Num (Z.min x y)
  | _, _ => NaN
  end.

(** [a <= b] and [a < b]: false as soon as one side is [NaN]. *)
Definition leb (a b : num) : bool :=
  match a, b with
  | Num x, Num y => x <=? y
  | _, _ => false
  end.

Definition ltb (a b : num) : bool :=
  match a, b with
  | Num x, Num y => x <? y
  | _, _ => false
  end.

(** Decimal rendering of an integer, as [Number.prototype.toString] and
    template literals give it. *)
Definition string_of_Z (z : Z) : string :=
  NilZero.string_of_int (Z.to_int z).

Definition string_of_num (n : num) : string :=
  match n with
  | Num z => string_of_Z z
  | NaN => "NaN"
  end.

(** ** Strings *)

(** Truthiness of a nullable string: [null], [undefined] and the empty
    string are falsy. *)
Definition truthy (s : option string) : bool :=
  match s with
  | Some EmptyString => false
  | Some _ => true
  | None => false
  end.

(** [a || b] on nullable strings. *)
Definition or_else (a : option string) (b : string) : string :=
  match a with
  | Some EmptyString => b
  | Some s => s
  | None => b
  end.

(** String coercion of a possibly undefined string in a template. *)
Definition show (s : option string) : string :=
  match s with
  | Some x => x
  | None => "undefined"
  end.

Definition startsWith (s p : string) : bool := String.prefix p s.

(** [s.substring(0, n)] for a non-negative literal [n]. *)
Definition substring0 (n : nat) (s : string) : string :=
  String.substring 0 n s.

(** [arr.includes(x)] on an array of strings. *)
Definition includes (l : list string) (x : string) : bool :=
  existsb (String.eqb x) l.

(** [s.split(c)] for a one-character separator. *)
Fixpoint split_aux (c : ascii) (cur : string) (s : string) : list string :=
  match s with
  | EmptyString => [cur]
  | String a s' =>
      if Ascii.eqb a c then cur :: split_aux c EmptyString s'
      else split_aux c (cur ++ String a EmptyString) s'
  end.

Definition split (c : ascii) (s : string) : list string :=
  split_aux c EmptyString s.

(** ** [parseInt] without a radix *)

Definition is_space (a : ascii) : bool :=
  let n := nat_of_ascii a in
  ((9 <=? n) && (n <=? 13))%nat || (n =? 32)%nat || (n =? 160)%nat.

Fixpoint skip_spaces (s : string) : string :=
  match s with
  | String a s' => if is_space a then skip_spaces s' else s
  | EmptyString => s
  end.

Definition digit_of (a : ascii) : option Z :=
  let n := nat_of_ascii a in
  if ((48 <=? n) && (n <=? 57))%nat then Some (Z.of_nat n - 48) else None.

Definition hexdigit_of (a : ascii) : option Z :=
  let n := nat_of_ascii a in
  if ((48 <=? n) && (n <=? 57))%nat then Some (Z.of_nat n - 48)
  else if ((65 <=? n) && (n <=? 70))%nat then Some (Z.of_nat n - 55)
  else if ((97 <=? n) && (n <=? 102))%nat then Some (Z.of_nat n - 87)
  else None.

(** Value of the longest prefix of digits in the given radix; [None] when
    the prefix is empty. *)
Fixpoint digits_acc (dig : ascii -> option Z) (radix : Z)
         (acc : option Z) (s : string) : option Z :=
  match s with
  | String a s' =>
      match dig a with
      | Some d =>
          digits_acc dig radix
            (Some (match acc with Some v => v * radix + d | None => d end)) s'
      | None => acc
      end
  | EmptyString => acc
  end.

Definition parse_unsigned (s : string) : option Z :=
  match s with
  | String "0" (String "x" s') | String "0" (String "X" s') =>
      digits_acc hexdigit_of 16 None s'
  | _ => digits_acc digit_of 10 None s
  end.

Definition parseInt_string (s : string) : num :=
  let s1 := skip_spaces s in
  let '(neg, s2) :=
    match s1 with
    | String "-" r => (true, r)
    | String "+" r => (false, r)
    | _ => (false, s1)
    end in
  match parse_unsigned s2 with
  | Some v => Num (if neg then - v else v)
  | None => NaN
  end.

(** [parseInt(x)] where [x] may be [undefined] (an array index out of
    range): the argument is first turned into the string "undefined". *)
Definition parseInt (x : option string) : num :=
  parseInt_string (show x).

(** ** Byte arrays *)

(** A [Uint8Array]: its length and its content by index. *)
Record Uint8Array : Type := {
  ua_length : Z;
  ua_at : Z -> Z
}.

(** Relative index of [slice]: [NaN] counts as 0, a negative index counts
    from the end, and the result is clamped to the array. *)
Definition rel_index (len : Z) (i : num) : Z :=
  match i with
  | NaN => 0
  | Num z => if z <? 0 then Z.max (len + z) 0 else Z.min z len
  end.

Definition slice (a : Uint8Array) (s e : num) : Uint8Array :=
  let k := rel_index (ua_length a) s in
  let f := rel_index (ua_length a) e in
  {| ua_length := Z.max (f - k) 0;
     ua_at := fun i => ua_at a (k + i) |}.

End Js.

(* ================================================================== *)
(** * The upload dialog: which platforms fit an asset *)

Module Compat.

(** [asset_type: 'image' | 'video' | 'content'] *)
Inductive asset_type : Type := Image | Video | Content.

(** [isPlatformCompatible] of the upload dialog; the asset is the dialog's
    property, the platform is the argument. *)
Definition isPlatformCompatible (t : asset_type) (platform : string) : bool :=
  match t with
  | Video => (platform =? "youtube") || (platform =? "facebook")
  | Image => (platform =? "instagram") || (platform =? "facebook")
  | Content =>
      (platform =? "twitter") || (platform =? "linkedin")
      || (platform =? "facebook")
  end%string.

(** The filter of [loadConnectedPlatforms] that pre-selects platforms when
    the dialog opens. *)
Definition autoSelect (t : asset_type) (platform : string) : bool :=
  match t with
  | Video => (platform =? "youtube") || (platform =? "facebook")
  | Image => (platform =? "instagram") || (platform =? "facebook")
  | Content => false
  end%string.

(** [getCompatibilityMessage] *)
Definition getCompatibilityMessage (t : asset_type) (platform : string)
  : string :=
  if negb (isPlatformCompatible t platform) then
    match t with
    | Video =>
        if (platform =? "instagram")%string
        then "Instagram videos require special handling - use manual upload"
        else "Not compatible with this asset type"
    | Image =>
        if (platform =? "youtube")%string
        then "YouTube requires video content"
        else "Not compatible with this asset type"
    | Content => "Content posting not yet supported for this platform"
    end
  else "".

(** The compatibility table as the specification words it. *)
Definition compatibility_table : list (asset_type * list string) :=
  [ (Video, ["youtube"; "facebook"]);
    (Image, ["instagram"; "facebook"]);
    (Content, ["twitter"; "linkedin"; "facebook"]) ].

Definition in_table (t : asset_type) (platform : string) : Prop :=
  exists ps, In (t, ps) compatibility_table /\ In platform ps.

End Compat.

(* ================================================================== *)
(** * The world outside the program *)

Module Rt.
Import Js.

(** An answer of the environment: a promise that is fulfilled with a value
    or rejected with an error (its message). *)
Inductive result (A : Type) : Type :=
| Ok (a : A)
| Err (msg : string).

Arguments Ok {A} a.
Arguments Err {A} msg.

(** How a computation of the program ends: with a value, with a thrown
    error (its message), or not within the iterations it was given. *)
Inductive outcome (A : Type) : Type :=
| Returned (a : A)
| Threw (msg : string)
| Unfinished.

Arguments Returned {A} a.
Arguments Threw {A} msg.
Arguments Unfinished {A}.

Definition of_result {A} (r : result A) : outcome A :=
  match r with
  | Ok a => Returned a
  | Err msg => Threw msg
  end.

(** ** JSON documents built by the program *)

#[warnings="-register-all"] Inductive json : Type :=
| JNull
| JBool (b : bool)
| JNum (z : Z)
| JStr (s : string)
| JArr (items : list json)
| JObj (fields : list (string * json)).

(** A field whose value may be [undefined]: [JSON.stringify] leaves such a
    field out. *)
Definition opt_field (name : string) (v : option json)
  : list (string * json) :=
  match v with
  | Some j => [(name, j)]
  | None => []
  end.

Definition jstr_opt (s : option string) : option json :=
  option_map JStr s.

(** ** HTTP *)

Inductive req_body : Type :=
| NoBody
| FormBody (fields : list (string * string))
| JsonBody (doc : json)
| BytesBody (bytes : Uint8Array).

Record request : Type := {
  rq_method : string;
  rq_url : string;
  rq_headers : list (string * string);
  rq_body : req_body
}.

(** The fields the code reads in the JSON answers of the platforms, each of
    them optional. *)
Record channel : Type := {
  ch_id : option string;
  ch_has_snippet : bool;
  ch_title : option string;
  ch_customUrl : option string;
  ch_description : option string;
  ch_thumbnail_url : option string
}.

Record document : Type := {
  d_access_token : option string;
  d_refresh_token : option string;
  d_expires_in : option Z;
  d_id : option string;
  d_snippet_title : option string;
  d_items : option (list (option channel));
  d_user_id : option string;
  d_username : option string
}.

Record Blob : Type := {
  blob_type : string;
  blob_bytes : Uint8Array
}.

Definition blob_size (b : Blob) : Z := ua_length (blob_bytes b).

(** A [Response] of [fetch].  [rs_header] is [headers.get] on a lower-case
    name; reading the body may fail; a JSON body may be [null]. *)
Record response : Type := {
  rs_status : Z;
  rs_statusText : string;
  rs_header : string -> option string;
  rs_text : result string;
  rs_json : result (option document);
  rs_blob : result Blob
}.

Definition rs_ok (r : response) : bool :=
  (200 <=? rs_status r) && (rs_status r <=? 299).

Definition lower_ascii (a : ascii) : ascii :=
  let n := nat_of_ascii a in
  if ((65 <=? n) && (n <=? 90))%nat then ascii_of_nat (n + 32) else a.

Fixpoint lower (s : string) : string :=
  match s with
  | String a s' => String (lower_ascii a) (lower s')
  | EmptyString => EmptyString
  end.

Definition headers_get (r : response) (name : string) : option string :=
  rs_header r (lower name).

(** ** The table [user_social_connections] *)

Record row : Type := {
  r_id : string;
  r_user_id : string;
  r_platform : string;
  r_platform_user_id : option string;
  r_platform_username : option string;
  r_platform_display_name : option string;
  r_access_token : string;
  r_refresh_token : option string;
  r_token_expires_at : option string;
  r_scope : option string;
  r_is_active : option bool;
  r_metadata : option json
}.

Inductive db_value : Type :=
| DbStr (s : string)
| DbBool (b : bool).

Definition filters : Type := list (string * db_value).

(** Answer of a query: [{ data, error }]. *)
Record db_answer (A : Type) : Type := {
  db_data : option A;
  db_error : option string
}.

(** ** Calls and their record *)

Inductive platforms_update : Type :=
| PlatformsSet (l : list string)
| PlatformsAdd (p : string)
| PlatformsRemove (p : string).

Inductive event : Type :=
| Fetch (rq : request)
| DbSelectSingle (table : string) (f : filters)
| DbSelectList (table : string) (f : filters) (order_desc : string)
| DbUpdate (table : string) (values : list (string * option string))
           (f : filters)
| DbUpsert (table : string) (values : list (string * option string))
           (onConflict : string)
| DbDelete (table : string) (f : filters)
| AuthGetUser
| FunctionsInvoke (name : string) (body : json)
| ReadClock
| Sleep (ms : Z)
| LocalStorageGet (key : string)
| LocalStorageSet (key value : string)
| Toast (title description : string) (destructive : bool)
| SetIsUploading (b : bool)
| SetUploadingPlatforms (u : platforms_update).

Definition trace : Type := list event.

(** Calls that leave the machine. *)
Definition is_network (e : event) : bool :=
  match e with
  | Fetch _ | DbSelectSingle _ _ | DbSelectList _ _ _ | DbUpdate _ _ _
  | DbUpsert _ _ _ | DbDelete _ _ | AuthGetUser | FunctionsInvoke _ _ => true
  | _ => false
  end.

(** Writes to the credential store. *)
Definition is_store_write (e : event) : bool :=
  match e with
  | DbUpdate _ _ _ | DbUpsert _ _ _ | DbDelete _ _ => true
  | LocalStorageSet _ _ => true
  | _ => false
  end.

Definition is_fetch (e : event) : bool :=
  match e with
  | Fetch _ => true
  | _ => false
  end.

Definition is_invoke (e : event) : bool :=
  match e with
  | FunctionsInvoke _ _ => true
  | _ => false
  end.

(** The requests of the [fetch] calls of a trace, in order. *)
Fixpoint fetches (tr : trace) : list request :=
  match tr with
  | Fetch rq :: tr' => rq :: fetches tr'
  | _ :: tr' => fetches tr'
  | [] => []
  end.

(** Answer of [supabase.functions.invoke]. *)
Record invoke_data : Type := {
  iv_success : option bool;
  iv_url : option string;
  iv_error : option string
}.

Record invoke_answer : Type := {
  iv_data : option invoke_data;
  iv_err : option string
}.

(** What [JSON.parse] finds in the user info kept in local storage. *)
Record user_info : Type := {
  ui_channelTitle : option string;
  ui_channelId : option string;
  ui_username : option string;
  ui_name : option string;
  ui_id : option string
}.

(** The environment.  Answers may depend on the calls made so far. *)
Record Env : Type := {
  fetch : trace -> request -> result response;
  db_select_single : trace -> string -> filters -> result (db_answer row);
  db_select_list :
    trace -> string -> filters -> string -> result (db_answer (list row));
  db_write : trace -> event -> result (option string);
  auth_getUser : trace -> result (option string);
  functions_invoke : trace -> string -> json -> result invoke_answer;
  clock : trace -> Z;
  localStorage_getItem : trace -> string -> option string;
  localStorage_setItem : trace -> string -> string -> result unit;
  (* library functions of the runtime *)
  date_getTime : string -> num;
  date_toISOString : Z -> string;
  env_get : string -> option string;
  node_env : option string;
  url_toString : string -> list (string * string) -> string;
  createClient : option string -> option string -> result unit;
  json_parse : string -> result user_info;
  json_stringify : json -> string;
  error_stack : string -> string
}.

(** ** Computations *)

Definition M (A : Type) : Type := Env -> trace -> outcome A * trace.

Definition ret {A} (a : A) : M A := fun _ tr => (Returned a, tr).

Definition bind {A B} (m : M A) (k : A -> M B) : M B :=
  fun env tr =>
    match m env tr with
    | (Returned a, tr') => k a env tr'
    | (Threw msg, tr') => (Threw msg, tr')
    | (Unfinished, tr') => (Unfinished, tr')
    end.

Definition throw {A} (msg : string) : M A := fun _ tr => (Threw msg, tr).

Definition unfinished {A} : M A := fun _ tr => (Unfinished, tr).

(** [try { m } catch (error) { h error.message }] *)
Definition try_catch {A} (m : M A) (h : string -> M A) : M A :=
  fun env tr =>
    match m env tr with
    | (Threw msg, tr') => h msg env tr'
    | r => r
    end.

(** [try { m } finally { f }] where [f] cannot throw. *)
Definition try_finally {A} (m : M A) (f : M unit) : M A :=
  fun env tr =>
    match m env tr with
    | (r, tr') => (r, snd (f env tr'))
    end.

(** [await p] for a settled promise. *)
Definition await {A} (o : result A) : M A := fun _ tr => (of_result o, tr).

(** A value of the environment that is no call. *)
Definition asks {A} (f : Env -> A) : M A := fun env tr => (Returned (f env), tr).

(** A call: its answer is asked from the environment on the trace so far,
    and the call is recorded. *)
Definition call {A} (e : event) (answer : Env -> trace -> result A) : M A :=
  fun env tr => (of_result (answer env tr), (tr ++ [e])%list).

Definition emit (e : event) : M unit := call e (fun _ _ => Ok tt).

(** ** Properties of computations *)

(** Every value the computation returns satisfies [P]. *)
Definition ensures {A} (P : A -> Prop) (m : M A) : Prop :=
  forall env tr a tr', m env tr = (Returned a, tr') -> P a.

(** The computation ends, with a value or an error. *)
Definition finishes {A} (m : M A) : Prop :=
  forall env tr, fst (m env tr) <> Unfinished.

(** No error escapes the computation. *)
Definition catches_all {A} (m : M A) : Prop :=
  forall env tr msg, fst (m env tr) <> Threw msg.

(** The computation returns a value, and the value satisfies [P]. *)
Definition returns {A} (P : A -> Prop) (m : M A) : Prop :=
  forall env tr, exists a tr', m env tr = (Returned a, tr') /\ P a.

(** The computation only adds events that satisfy [ok] to the trace. *)
Definition only_events {A} (ok : event -> bool) (m : M A) : Prop :=
  forall env tr, exists added,
    snd (m env tr) = (tr ++ added)%list /\ forallb ok added = true.

End Rt.

(* ================================================================== *)
(** * Edge functions: requests, responses and the resumable upload *)

Module Edge.
Import Js Rt.

Declare Scope m_scope.
Delimit Scope m_scope with m.
Notation "x <- c ;; k" := (bind c (fun x => k))
  (at level 61, c at next level, right associativity) : m_scope.
Notation "c ;;; k" := (bind c (fun _ => k))
  (at level 61, right associativity) : m_scope.

(** The JSON body of a request: the fields the functions destructure. *)
Record body : Type := {
  b_action : option string;
  b_code : option string;
  b_state : option string;
  b_userId : option string;
  b_refresh_token : option string;
  b_videoUrl : option string;
  b_title : option string;
  b_description : option string;
  b_tags : option (list string);
  b_privacyStatus : option string
}.

(** A request to an edge function.  [req_json n] is the outcome of the
    [n]-th call of [req.json()]; [req_query] reads a parameter of the query
    string.  (A runtime that follows the Fetch standard rejects a second
    read of the body; the embedding leaves the answer to the request.) *)
Record Request : Type := {
  req_method : string;
  req_query : string -> option string;
  req_json : nat -> result body
}.

Inductive resp_body : Type :=
| BodyNull
| BodyText (s : option string)
| BodyJson (doc : json).

Record Response : Type := {
  status : Z;
  headers : list (string * string);
  resp : resp_body
}.

(** [new Response(JSON.stringify(doc), { status, headers })] *)
Definition json_response (st : Z) (cors : list (string * string))
           (doc : json) : Response :=
  {| status := st;
     headers := (cors ++ [("Content-Type", "application/json")])%list;
     resp := BodyJson doc |}.

(** The success flag of a JSON body. *)
Definition success_of (r : Response) : option bool :=
  match resp r with
  | BodyJson (JObj (("success", JBool b) :: _)) => Some b
  | _ => None
  end.

Definition nl : string := String "010"%char EmptyString.

(** The time value of a [Date]: an integer number of milliseconds within
    8.64e15 of the epoch, or [NaN] for an invalid date. *)
Definition time_clip (t : num) : num :=
  match t with
  | Num z => if Z.abs z <=? 8640000000000000 then Num z else NaN
  | NaN => NaN
  end.

(** [new Date(s).getTime()] *)
Definition getTime (s : string) : M num :=
  asks (fun env => time_clip (date_getTime env s)).

(** [new Date(t).toISOString()]: a [RangeError] for an invalid date. *)
Definition toISOString (t : num) : M string :=
  match time_clip t with
  | Num z => asks (fun env => date_toISOString env z)
  | NaN => throw "Invalid time value"
  end.

Definition num_of (z : option Z) : num :=
  match z with
  | Some v => Num v
  | None => NaN
  end.

(** [Date.now()] and [new Date()] *)
Definition now : M Z := call ReadClock (fun env tr => Ok (clock env tr)).

Definition do_fetch (rq : request) : M response :=
  call (Fetch rq) (fun env tr => fetch env tr rq).

Definition get_request (url : string) : request :=
  {| rq_method := "GET"; rq_url := url; rq_headers := []; rq_body := NoBody |}.

Definition select_single (table : string) (f : filters) : M (db_answer row) :=
  call (DbSelectSingle table f) (fun env tr => db_select_single env tr table f).

Definition write (e : event) : M (option string) :=
  call e (fun env tr => db_write env tr e).

(** [x.f] on a JSON answer that may be [null]. *)
Definition deref {A} (d : option A) (what : string) : M A :=
  match d with
  | Some x => ret x
  | None => throw ("Cannot read properties of null (reading '" ++ what ++ "')")
  end.

(** [s.substring(...)] on a string that may be [undefined]. *)
Definition defined (s : option string) (what : string) : M string :=
  match s with
  | Some x => ret x
  | None =>
      throw ("Cannot read properties of undefined (reading '" ++ what ++ "')")
  end.

Definition jopt (s : option string) : json :=
  match s with
  | Some x => JStr x
  | None => JNull
  end.

(** A row as the JSON object the database client returns. *)
Definition json_of_row (r : row) : json :=
  JObj [("id", JStr (r_id r));
        ("user_id", JStr (r_user_id r));
        ("platform", JStr (r_platform r));
        ("platform_user_id", jopt (r_platform_user_id r));
        ("platform_username", jopt (r_platform_username r));
        ("platform_display_name", jopt (r_platform_display_name r));
        ("access_token", JStr (r_access_token r));
        ("refresh_token", jopt (r_refresh_token r));
        ("token_expires_at", jopt (r_token_expires_at r));
        ("scope", jopt (r_scope r));
        ("is_active",
         match r_is_active r with Some b => JBool b | None => JNull end);
        ("metadata",
         match r_metadata r with Some j => j | None => JNull end)].

(** ** The chunk PUT of the resumable upload

    Both [youtube-upload] and [youtube-oauth] build the same request for the
    chunk from [start] to [end_] and read a 308 answer in the same way. *)

Definition chunkSize : Z := 1024 * 1024 * 5.

(** [Math.min(start + chunkSize, videoArray.length)] *)
Definition chunk_end (videoArray : Uint8Array) (start : num) : num :=
  Js.min (add start (Num chunkSize)) (Num (ua_length videoArray)).

(** [`bytes ${start}-${end - 1}/${videoArray.length}`] *)
Definition content_range (videoArray : Uint8Array) (start end_ : num)
  : string :=
  "bytes " ++ string_of_num start ++ "-" ++ string_of_num (sub end_ (Num 1))
  ++ "/" ++ string_of_Z (ua_length videoArray).

Definition chunk_request (uploadUrl : string) (videoArray : Uint8Array)
           (start end_ : num) : request :=
  let chunk := slice videoArray start end_ in
  {| rq_method := "PUT";
     rq_url := uploadUrl;
     rq_headers :=
       [("Content-Length", string_of_Z (ua_length chunk));
        ("Content-Range", content_range videoArray start end_)];
     rq_body := BytesBody chunk |}.

(** The new value of [start] after a 308 answer. *)
Definition next_start (uploadResponse : response) (end_ : num) : num :=
  let range := headers_get uploadResponse "Range" in
  if truthy range then
    let rangeEnd := parseInt (nth_error (split "-" (show range)) 1) in
    add rangeEnd (Num 1)
  else end_.

End Edge.

(* ================================================================== *)
(** * Edge function [youtube-upload] *)

Module YoutubeUpload.
Import Js Rt Edge.
Local Open Scope m_scope.

Definition corsHeaders : list (string * string) :=
  [("Access-Control-Allow-Origin", "*");
   ("Access-Control-Allow-Headers",
    "authorization, x-client-info, apikey, content-type")].

(** The token check: "Check if token is expired and refresh if needed".
    The result is the value of [accessToken] after the check. *)
Definition token_check (connection : row) : M (option string) :=
  let accessToken := Some (r_access_token connection) in
  if truthy (r_token_expires_at connection) then
    expiry <- getTime (show (r_token_expires_at connection)) ;;
    t <- now ;;
    let timeToExpire := sub expiry (Num t) in
    if leb timeToExpire (Num 300000) then
      if truthy (r_refresh_token connection) then
        client_id <- asks (fun env => env_get env "GOOGLE_CLIENT_ID") ;;
        client_secret <- asks (fun env => env_get env "GOOGLE_CLIENT_SECRET") ;;
        refreshResponse <- do_fetch
          {| rq_method := "POST";
             rq_url := "https://oauth2.googleapis.com/token";
             rq_headers :=
               [("Content-Type", "application/x-www-form-urlencoded")];
             rq_body := FormBody
               [("client_id", show client_id);
                ("client_secret", show client_secret);
                ("grant_type", "refresh_token");
                ("refresh_token", show (r_refresh_token connection))] |} ;;
        if rs_ok refreshResponse then
          j <- await (rs_json refreshResponse) ;;
          refreshData <- deref j "access_token" ;;
          let accessToken := d_access_token refreshData in
          t1 <- now ;;
          expires <- toISOString
            (add (Num t1) (mul (num_of (d_expires_in refreshData)) (Num 1000))) ;;
          t2 <- now ;;
          updated <- toISOString (Num t2) ;;
          write (DbUpdate "user_social_connections"
                   [("access_token", accessToken);
                    ("token_expires_at", Some expires);
                    ("updated_at", Some updated)]
                   [("id", DbStr (r_id connection))]) ;;;
          ret accessToken
        else ret accessToken
      else ret accessToken
    else ret accessToken
  else ret accessToken.

(** "Step 2: Upload video file in chunks": the loop
    [while (!uploadComplete)], started with the given value of [start];
    [fuel] bounds the number of iterations that are run.  The value is
    [result]. *)
Fixpoint chunk_loop (fuel : nat) (uploadUrl : string)
         (videoArray : Uint8Array) (start : num) : M (option document) :=
  match fuel with
  | O => unfinished
  | S fuel' =>
      let end_ := chunk_end videoArray start in
      uploadResponse <- do_fetch
        (chunk_request uploadUrl videoArray start end_) ;;
      if (rs_status uploadResponse =? 200) || (rs_status uploadResponse =? 201)
      then await (rs_json uploadResponse)
      else if rs_status uploadResponse =? 308 then
        chunk_loop fuel' uploadUrl videoArray (next_start uploadResponse end_)
      else
        _ <- await (rs_text uploadResponse) ;;
        throw ("Upload failed: " ++ string_of_Z (rs_status uploadResponse)
               ++ " " ++ rs_statusText uploadResponse)
  end.

Definition metadata (title : string) (description : option string)
           (tags : list string) (privacyStatus : string) : json :=
  JObj
    [("snippet", JObj
        [("title", JStr (substring0 100 title));
         ("description", JStr (or_else description
            ("Generated with FeedGenesis" ++ nl ++ nl ++ "Tags: "
             ++ String.concat ", " tags ++ nl ++ nl
             ++ "Created using AI-powered video generation.")));
         ("tags", JArr (map JStr (firstn 500 tags)));
         ("categoryId", JStr "22");
         ("defaultLanguage", JStr "en");
         ("defaultAudioLanguage", JStr "en")]);
     ("status", JObj
        [("privacyStatus", JStr privacyStatus);
         ("selfDeclaredMadeForKids", JBool false);
         ("embeddable", JBool true);
         ("license", JStr "youtube");
         ("publicStatsViewable", JBool true)])].

Definition init_url : string :=
  "https://www.googleapis.com/upload/youtube/v3/videos?uploadType=resumable&part=snippet,status".

(** The [try] block of the handler. *)
Definition upload (req : Request) (fuel : nat) : M Response :=
  b <- await (req_json req 0%nat) ;;
  let tags := match b_tags b with Some l => l | None => [] end in
  let privacyStatus :=
    match b_privacyStatus b with Some p => p | None => "public" end in
  if negb (truthy (b_userId b)) || negb (truthy (b_videoUrl b))
     || negb (truthy (b_title b))
  then throw "Missing required fields: userId, videoUrl, title"
  else
    let userId := show (b_userId b) in
    let videoUrl := show (b_videoUrl b) in
    let title := show (b_title b) in
    supabaseUrl <- asks (fun env => env_get env "SUPABASE_URL") ;;
    supabaseKey <- asks (fun env => env_get env "SUPABASE_SERVICE_ROLE_KEY") ;;
    mk <- asks (fun env => createClient env supabaseUrl supabaseKey) ;;
    await mk ;;;
    sel <- select_single "user_social_connections"
             [("user_id", DbStr userId); ("platform", DbStr "youtube");
              ("is_active", DbBool true)] ;;
    match db_error sel, db_data sel with
    | None, Some connection =>
        accessToken <- token_check connection ;;
        videoResponse <- do_fetch (get_request videoUrl) ;;
        if negb (rs_ok videoResponse) then
          throw ("Failed to fetch video: "
                 ++ string_of_Z (rs_status videoResponse) ++ " "
                 ++ rs_statusText videoResponse)
        else
          videoBlob <- await (rs_blob videoResponse) ;;
          let videoSize := blob_size videoBlob in
          initResponse <- do_fetch
            {| rq_method := "POST";
               rq_url := init_url;
               rq_headers :=
                 [("Authorization", "Bearer " ++ show accessToken);
                  ("Content-Type", "application/json");
                  ("X-Upload-Content-Length", string_of_Z videoSize);
                  ("X-Upload-Content-Type", "video/mp4")];
               rq_body := JsonBody
                 (metadata title (b_description b) tags privacyStatus) |} ;;
          if negb (rs_ok initResponse) then
            _ <- await (rs_text initResponse) ;;
            throw ("Upload initialization failed: "
                   ++ string_of_Z (rs_status initResponse) ++ " "
                   ++ rs_statusText initResponse)
          else
            let uploadUrl := headers_get initResponse "Location" in
            if negb (truthy uploadUrl) then
              throw "No upload URL received from YouTube"
            else
              let videoArray := blob_bytes videoBlob in
              result <- chunk_loop fuel (show uploadUrl) videoArray (Num 0) ;;
              match result with
              | Some r =>
                  if negb (truthy (d_id r)) then
                    throw "Upload completed but no video ID received"
                  else
                    let videoId := show (d_id r) in
                    let youtubeUrl :=
                      "https://www.youtube.com/watch?v=" ++ videoId in
                    ret (json_response 200 corsHeaders
                           (JObj [("success", JBool true);
                                  ("videoId", JStr videoId);
                                  ("url", JStr youtubeUrl);
                                  ("title",
                                   JStr (or_else (d_snippet_title r) title));
                                  ("message", JStr
                                     "Video uploaded successfully to YouTube")]))
              | None => throw "Upload completed but no video ID received"
              end
    | _, _ => throw "YouTube account not connected"
    end.

(** The handler given to [serve]. *)
Definition handler (req : Request) (fuel : nat) : M Response :=
  if (req_method req =? "OPTIONS")%string then
    ret {| status := 200; headers := corsHeaders; resp := BodyNull |}
  else
    try_catch (upload req fuel)
      (fun message =>
         ret (json_response 400 corsHeaders
                (JObj [("success", JBool false);
                       ("error", JStr (or_else (Some message)
                                         "Upload failed"))]))).

End YoutubeUpload.

(* ================================================================== *)
(** * Edge function [youtube-oauth] *)

Module YoutubeOauth.
Import Js Rt Edge.
Local Open Scope m_scope.

Definition corsHeaders : list (string * string) :=
  [("Access-Control-Allow-Origin", "*");
   ("Access-Control-Allow-Headers",
    "authorization, x-client-info, apikey, content-type, x-requested-with");
   ("Access-Control-Allow-Methods", "GET, POST, PUT, DELETE, OPTIONS");
   ("Access-Control-Max-Age", "86400")].

Definition token_url : string := "https://oauth2.googleapis.com/token".

Definition form_headers : list (string * string) :=
  [("Content-Type", "application/x-www-form-urlencoded")].

Definition scope : string :=
  "https://www.googleapis.com/auth/youtube.upload https://www.googleapis.com/auth/youtube.readonly".

(** [expires_in ? new Date(Date.now() + expires_in * 1000).toISOString()
                : new Date(Date.now() + 3600 * 1000).toISOString()] *)
Definition expiry_of (expires_in : option Z) : M string :=
  match expires_in with
  | Some z =>
      if z =? 0 then t <- now ;; toISOString (Num (t + 3600 * 1000))
      else t <- now ;; toISOString (Num (t + z * 1000))
  | None => t <- now ;; toISOString (Num (t + 3600 * 1000))
  end.

(** [action === 'get_auth_url'] *)
Definition get_auth_url (googleClientId redirectUri : string)
           (state : option string) : M Response :=
  auth_url <- asks (fun env =>
    url_toString env "https://accounts.google.com/o/oauth2/v2/auth"
      [("client_id", googleClientId);
       ("redirect_uri", redirectUri);
       ("response_type", "code");
       ("scope", scope);
       ("access_type", "offline");
       ("prompt", "consent");
       ("state", or_else state "default_state")]) ;;
  ret (json_response 200 corsHeaders
         (JObj [("success", JBool true); ("auth_url", JStr auth_url)])).

(** [action === 'exchange_code'] *)
Definition exchange_code (googleClientId googleClientSecret redirectUri
                          actualUserId : string) (code : option string)
  : M Response :=
  tokenResponse <- do_fetch
    {| rq_method := "POST"; rq_url := token_url; rq_headers := form_headers;
       rq_body := FormBody
         [("client_id", googleClientId);
          ("client_secret", googleClientSecret);
          ("grant_type", "authorization_code");
          ("redirect_uri", redirectUri);
          ("code", show code)] |} ;;
  if negb (rs_ok tokenResponse) then
    _ <- await (rs_text tokenResponse) ;;
    throw ("Token exchange failed: " ++ string_of_Z (rs_status tokenResponse))
  else
    j <- await (rs_json tokenResponse) ;;
    tokenData <- deref j "access_token" ;;
    channelResponse <- do_fetch
      {| rq_method := "GET";
         rq_url :=
           "https://www.googleapis.com/youtube/v3/channels?part=id,snippet&mine=true";
         rq_headers :=
           [("Authorization", "Bearer " ++ show (d_access_token tokenData))];
         rq_body := NoBody |} ;;
    if negb (rs_ok channelResponse) then
      throw "Failed to fetch channel information"
    else
      cj <- await (rs_json channelResponse) ;;
      channelData <- deref cj "items" ;;
      match d_items channelData with
      | Some (first :: _) =>
          expiresAt <- expiry_of (d_expires_in tokenData) ;;
          channel <- deref first "id" ;;
          if negb (ch_has_snippet channel) then
            throw "Cannot read properties of undefined (reading 'customUrl')"
          else
            meta <- asks (fun env => json_stringify env
              (JObj ((opt_field "channel_id" (jstr_opt (ch_id channel)))
                     ++ (opt_field "channel_title"
                                   (jstr_opt (ch_title channel)))
                     ++ (opt_field "channel_description"
                                   (jstr_opt (ch_description channel)))
                     ++ (opt_field "thumbnail_url"
                                   (jstr_opt (ch_thumbnail_url channel))))%list)) ;;
            t1 <- now ;;
            connected_at <- toISOString (Num t1) ;;
            t2 <- now ;;
            updated_at <- toISOString (Num t2) ;;
            error <- write
              (DbUpsert "user_social_connections"
                 [("user_id", Some actualUserId);
                  ("platform", Some "youtube");
                  ("platform_user_id", ch_id channel);
                  ("platform_username",
                   if truthy (ch_customUrl channel) then ch_customUrl channel
                   else ch_title channel);
                  ("platform_display_name", ch_title channel);
                  ("access_token", d_access_token tokenData);
                  ("refresh_token", d_refresh_token tokenData);
                  ("token_expires_at", Some expiresAt);
                  ("scope", Some scope);
                  ("metadata", Some meta);
                  ("connected_at", Some connected_at);
                  ("updated_at", Some updated_at)]
                 "user_id,platform") ;;
            match error with
            | Some _ => throw "Failed to save connection"
            | None =>
                ret (json_response 200 corsHeaders
                       (JObj [("success", JBool true);
                              ("message", JStr "YouTube connected successfully");
                              ("user", JObj
                                 (opt_field "channelTitle"
                                            (jstr_opt (ch_title channel))
                                  ++ opt_field "channelId"
                                            (jstr_opt (ch_id channel)))%list)]))
            end
      | _ => throw "No YouTube channel found for this account"
      end.

(** [action === 'refresh_token'] *)
Definition refresh_token (req : Request)
           (googleClientId googleClientSecret actualUserId : string)
  : M Response :=
  b <- await (req_json req 1%nat) ;;
  if negb (truthy (b_refresh_token b)) then throw "Refresh token required"
  else
    let refresh_token := show (b_refresh_token b) in
    refreshResponse <- do_fetch
      {| rq_method := "POST"; rq_url := token_url; rq_headers := form_headers;
         rq_body := FormBody
           [("client_id", googleClientId);
            ("client_secret", googleClientSecret);
            ("grant_type", "refresh_token");
            ("refresh_token", refresh_token)] |} ;;
    if negb (rs_ok refreshResponse) then
      _ <- await (rs_text refreshResponse) ;;
      throw ("Token refresh failed: "
             ++ string_of_Z (rs_status refreshResponse))
    else
      j <- await (rs_json refreshResponse) ;;
      refreshData <- deref j "expires_in" ;;
      expiresAt <- expiry_of (d_expires_in refreshData) ;;
      t <- now ;;
      updated_at <- toISOString (Num t) ;;
      error <- write
        (DbUpdate "user_social_connections"
           [("access_token", d_access_token refreshData);
            ("refresh_token",
             Some (or_else (d_refresh_token refreshData) refresh_token));
            ("token_expires_at", Some expiresAt);
            ("updated_at", Some updated_at)]
           [("user_id", DbStr actualUserId); ("platform", DbStr "youtube")]) ;;
      match error with
      | Some _ => throw "Failed to update token"
      | None =>
          ret (json_response 200 corsHeaders
                 (JObj ([("success", JBool true)]
                        ++ opt_field "access_token"
                             (jstr_opt (d_access_token refreshData))
                        ++ [("expires_at", JStr expiresAt)])%list))
      end.

(** [action === 'disconnect'] *)
Definition disconnect (actualUserId : string) : M Response :=
  error <- write
    (DbDelete "user_social_connections"
       [("user_id", DbStr actualUserId); ("platform", DbStr "youtube")]) ;;
  match error with
  | Some _ => throw "Failed to disconnect"
  | None =>
      ret (json_response 200 corsHeaders
             (JObj [("success", JBool true);
                    ("message", JStr "YouTube disconnected successfully")]))
  end.

(** [action === 'check_connection'] *)
Definition check_connection (actualUserId : string) : M Response :=
  sel <- select_single "user_social_connections"
           [("user_id", DbStr actualUserId); ("platform", DbStr "youtube")] ;;
  let data :=
    match db_data sel with Some r => json_of_row r | None => JNull end in
  ret (json_response 200 corsHeaders
         (JObj [("success", JBool true);
                ("connected",
                 match db_error sel with
                 | Some _ => JBool false
                 | None => data
                 end);
                ("connection", data)])).

(** The token check of [upload_video]: "Check if token is expired and
    refresh if needed".  The result is the value of [accessToken]. *)
Definition token_check (googleClientId googleClientSecret : string)
           (connection : row) : M (option string) :=
  let accessToken := Some (r_access_token connection) in
  if truthy (r_token_expires_at connection) then
    expiry <- getTime (show (r_token_expires_at connection)) ;;
    t <- now ;;
    let timeToExpire := sub expiry (Num t) in
    toISOString expiry ;;;
    if leb timeToExpire (Num 300000) then
      if truthy (r_refresh_token connection) then
        try_catch
          (refreshResponse <- do_fetch
             {| rq_method := "POST"; rq_url := token_url;
                rq_headers := form_headers;
                rq_body := FormBody
                  [("client_id", googleClientId);
                   ("client_secret", googleClientSecret);
                   ("grant_type", "refresh_token");
                   ("refresh_token", show (r_refresh_token connection))] |} ;;
           if rs_ok refreshResponse then
             j <- await (rs_json refreshResponse) ;;
             refreshData <- deref j "access_token" ;;
             let accessToken := d_access_token refreshData in
             defined accessToken "substring" ;;;
             t0 <- now ;;
             toISOString
               (add (Num t0)
                    (mul (num_of (d_expires_in refreshData)) (Num 1000))) ;;;
             t1 <- now ;;
             expires <- toISOString
               (add (Num t1)
                    (mul (num_of (d_expires_in refreshData)) (Num 1000))) ;;
             t2 <- now ;;
             updated <- toISOString (Num t2) ;;
             write (DbUpdate "user_social_connections"
                      [("access_token", accessToken);
                       ("token_expires_at", Some expires);
                       ("updated_at", Some updated)]
                      [("id", DbStr (r_id connection))]) ;;;
             ret accessToken
           else
             errorText <- await (rs_text refreshResponse) ;;
             throw ("Failed to refresh access token: "
                    ++ string_of_Z (rs_status refreshResponse) ++ " - "
                    ++ errorText))
          (fun message =>
             throw ("Failed to refresh access token: " ++ message))
      else
        throw "No refresh token available - please reconnect your YouTube account"
    else ret accessToken
  else ret accessToken.

(** "Upload video file in chunks": the loop
    [while (start < videoArray.length)], started with the given value of
    [start]; [fuel] bounds the number of iterations that are run.  The
    value is [result], [None] for [null]. *)
Fixpoint chunk_loop (fuel : nat) (uploadUrl : string)
         (videoArray : Uint8Array) (start : num) : M (option document) :=
  if ltb start (Num (ua_length videoArray)) then
    match fuel with
    | O => unfinished
    | S fuel' =>
        let end_ := chunk_end videoArray start in
        uploadResponse <- do_fetch
          (chunk_request uploadUrl videoArray start end_) ;;
        if (rs_status uploadResponse =? 200)
           || (rs_status uploadResponse =? 201)
        then await (rs_json uploadResponse)
        else if rs_status uploadResponse =? 308 then
          chunk_loop fuel' uploadUrl videoArray
                     (next_start uploadResponse end_)
        else
          errorText <- await (rs_text uploadResponse) ;;
          throw ("Upload failed: " ++ string_of_Z (rs_status uploadResponse)
                 ++ " - " ++ errorText)
    end
  else ret None.

Definition metadata (title : string) (description : option string)
           (tags : list string) (privacyStatus : string) : json :=
  JObj
    [("snippet", JObj
        [("title", JStr (substring0 100 title));
         ("description", JStr (or_else description
            ("Generated with FeedGenesis" ++ nl ++ nl
             ++ "Created using AI-powered video generation.")));
         ("tags", JArr (map JStr (firstn 500 tags)));
         ("categoryId", JStr "22");
         ("defaultLanguage", JStr "en")]);
     ("status", JObj
        [("privacyStatus", JStr privacyStatus);
         ("selfDeclaredMadeForKids", JBool false)])].

(** [Math.round(videoSize / 1024 / 1024)] *)
Definition megabytes (videoSize : Z) : Z :=
  (2 * videoSize + 1048576) / 2097152.

Definition init_error_message (initResponse : response) : string :=
  let errorMessage :=
    "Upload initialization failed: " ++ string_of_Z (rs_status initResponse)
    ++ " " ++ rs_statusText initResponse in
  if rs_status initResponse =? 400 then
    errorMessage ++ " - This is usually due to invalid OAuth token, incorrect video metadata, or missing YouTube upload permissions."
  else if rs_status initResponse =? 401 then
    errorMessage ++ " - OAuth token is invalid or expired. Please reconnect your YouTube account."
  else if rs_status initResponse =? 403 then
    errorMessage ++ " - Insufficient permissions. Make sure your YouTube account has upload permissions."
  else errorMessage.

(** [action === 'upload_video'] *)
Definition upload_video (req : Request)
           (googleClientId googleClientSecret : string) (fuel : nat)
  : M Response :=
  b <- await (req_json req 1%nat) ;;
  let tags := match b_tags b with Some l => l | None => [] end in
  let privacyStatus :=
    match b_privacyStatus b with Some p => p | None => "public" end in
  defined (b_videoUrl b) "substring" ;;;
  if negb (truthy (b_userId b)) || negb (truthy (b_videoUrl b))
     || negb (truthy (b_title b))
  then throw "Missing required fields: userId, videoUrl, title"
  else
    let userId := show (b_userId b) in
    let videoUrl := show (b_videoUrl b) in
    let title := show (b_title b) in
    sel <- select_single "user_social_connections"
             [("user_id", DbStr userId); ("platform", DbStr "youtube");
              ("is_active", DbBool true)] ;;
    match db_error sel, db_data sel with
    | None, Some connection =>
        accessToken <- token_check googleClientId googleClientSecret
                                   connection ;;
        try_catch
          (videoResponse <- do_fetch (get_request videoUrl) ;;
           if negb (rs_ok videoResponse) then
             throw ("Failed to fetch video: "
                    ++ string_of_Z (rs_status videoResponse) ++ " "
                    ++ rs_statusText videoResponse)
           else
             videoBlob <- await (rs_blob videoResponse) ;;
             let videoSize := blob_size videoBlob in
             if videoSize =? 0 then
               throw "Downloaded video file is empty (0 bytes)"
             else if 128 * 1024 * 1024 <? videoSize then
               throw ("Video file too large: "
                      ++ string_of_Z (megabytes videoSize)
                      ++ " MB (max 128MB)")
             else
               let uploadMimeType :=
                 or_else (Some (blob_type videoBlob)) "video/mp4" in
               token <- defined accessToken "substring" ;;
               initResponse <- do_fetch
                 {| rq_method := "POST";
                    rq_url := YoutubeUpload.init_url;
                    rq_headers :=
                      [("Authorization", "Bearer " ++ token);
                       ("Content-Type", "application/json");
                       ("X-Upload-Content-Length", string_of_Z videoSize);
                       ("X-Upload-Content-Type", uploadMimeType)];
                    rq_body := JsonBody
                      (metadata title (b_description b) tags
                                privacyStatus) |} ;;
               if negb (rs_ok initResponse) then
                 _ <- await (rs_text initResponse) ;;
                 throw (init_error_message initResponse)
               else
                 let uploadUrl := headers_get initResponse "Location" in
                 if negb (truthy uploadUrl) then
                   throw "No upload URL received from YouTube"
                 else
                   let videoArray := blob_bytes videoBlob in
                   result <- chunk_loop fuel (show uploadUrl) videoArray
                                        (Num 0) ;;
                   match result with
                   | Some r =>
                       if negb (truthy (d_id r)) then
                         throw "Upload completed but no video ID received"
                       else
                         let youtubeUrl :=
                           "https://www.youtube.com/watch?v="
                           ++ show (d_id r) in
                         ret (json_response 200 corsHeaders
                                (JObj [("success", JBool true);
                                       ("videoId", JStr (show (d_id r)));
                                       ("url", JStr youtubeUrl);
                                       ("title", JStr
                                          (or_else (d_snippet_title r) title));
                                       ("message", JStr
                                          "Video uploaded successfully to YouTube")]))
                   | None =>
                       throw "Upload completed but no video ID received"
                   end)
          (fun message => throw ("Video processing failed: " ++ message))
    | _, _ => throw "YouTube account not connected"
    end.

(** The [try] block of the handler. *)
Definition dispatch (req : Request) (fuel : nat) : M Response :=
  b <- await (req_json req 0%nat) ;;
  supabaseUrl <- asks (fun env => env_get env "SUPABASE_URL") ;;
  supabaseKey <- asks (fun env => env_get env "SUPABASE_SERVICE_ROLE_KEY") ;;
  googleClientId <- asks (fun env => env_get env "GOOGLE_CLIENT_ID") ;;
  googleClientSecret <- asks (fun env => env_get env "GOOGLE_CLIENT_SECRET") ;;
  redirect <- asks (fun env => env_get env "YOUTUBE_REDIRECT_URI") ;;
  let redirectUri :=
    or_else redirect (show supabaseUrl ++ "/functions/v1/youtube-oauth") in
  if negb (truthy googleClientId) || negb (truthy googleClientSecret) then
    throw "Google OAuth credentials not configured"
  else
    let clientId := show googleClientId in
    let clientSecret := show googleClientSecret in
    mk <- asks (fun env => createClient env supabaseUrl supabaseKey) ;;
    await mk ;;;
    let actualUserId :=
      if truthy (b_userId b) then show (b_userId b)
      else or_else (b_state b) "default_user" in
    let action := b_action b in
    let action_is a :=
      match action with Some x => (x =? a)%string | None => false end in
    if action_is "get_auth_url" then
      get_auth_url clientId redirectUri (b_state b)
    else if action_is "exchange_code" then
      exchange_code clientId clientSecret redirectUri actualUserId (b_code b)
    else if action_is "refresh_token" then
      refresh_token req clientId clientSecret actualUserId
    else if action_is "disconnect" then disconnect actualUserId
    else if action_is "check_connection" then check_connection actualUserId
    else if action_is "upload_video" then
      upload_video req clientId clientSecret fuel
    else throw "Invalid action".

(** The [catch] block of the handler. *)
Definition on_error (message : string) : M Response :=
  dev <- asks (fun env =>
           match node_env env with
           | Some v => (v =? "development")%string
           | None => false
           end) ;;
  stack <- asks (fun env => error_stack env message) ;;
  ret (json_response 200 corsHeaders
         (JObj ([("success", JBool false);
                 ("error", JStr (or_else (Some message)
                                   "Unknown error occurred"))]
                ++ (if dev then [("details", JStr stack)] else []))%list)).

(** The handler given to [serve]. *)
Definition handler (req : Request) (fuel : nat) : M Response :=
  if (req_method req =? "OPTIONS")%string then
    ret {| status := 204; headers := corsHeaders; resp := BodyNull |}
  else try_catch (dispatch req fuel) on_error.

End YoutubeOauth.

(* ================================================================== *)
(** * Edge function [instagram-oauth] *)

Module InstagramOauth.
Import Js Rt Edge.
Local Open Scope m_scope.

Definition corsHeaders : list (string * string) :=
  YoutubeUpload.corsHeaders.

(** [expires_in ? new Date(Date.now() + expires_in * 1000).toISOString()
                : new Date(Date.now() + 60 * 24 * 60 * 60 * 1000)
                    .toISOString()] *)
Definition expiry_of (expires_in : option Z) : M string :=
  match expires_in with
  | Some z =>
      if z =? 0 then t <- now ;; toISOString (Num (t + 60 * 24 * 60 * 60 * 1000))
      else t <- now ;; toISOString (Num (t + z * 1000))
  | None => t <- now ;; toISOString (Num (t + 60 * 24 * 60 * 60 * 1000))
  end.

(** [action === 'exchange_code'] *)
Definition exchange_code (instagramClientId instagramClientSecret
                          redirectUri : string) (code state : option string)
  : M Response :=
  tokenResponse <- do_fetch
    {| rq_method := "POST";
       rq_url := "https://api.instagram.com/oauth/access_token";
       rq_headers := [("Content-Type", "application/x-www-form-urlencoded")];
       rq_body := FormBody
         [("client_id", instagramClientId);
          ("client_secret", instagramClientSecret);
          ("grant_type", "authorization_code");
          ("redirect_uri", redirectUri);
          ("code", show code)] |} ;;
  if negb (rs_ok tokenResponse) then
    _ <- await (rs_text tokenResponse) ;;
    throw ("Token exchange failed: " ++ string_of_Z (rs_status tokenResponse))
  else
    j <- await (rs_json tokenResponse) ;;
    tokenData <- deref j "user_id" ;;
    longLivedTokenResponse <- do_fetch
      (get_request
         ("https://graph.instagram.com/access_token?grant_type=ig_exchange_token&client_secret="
          ++ instagramClientSecret ++ "&access_token="
          ++ show (d_access_token tokenData))) ;;
    lj <- (if rs_ok longLivedTokenResponse
           then await (rs_json longLivedTokenResponse)
           else ret (Some {| d_access_token := d_access_token tokenData;
                             d_refresh_token := None;
                             d_expires_in := Some 3600;
                             d_id := None; d_snippet_title := None;
                             d_items := None; d_user_id := None;
                             d_username := None |})) ;;
    longLivedTokenData <- deref lj "access_token" ;;
    profileResponse <- do_fetch
      (get_request
         ("https://graph.instagram.com/me?fields=id,username&access_token="
          ++ show (d_access_token longLivedTokenData))) ;;
    if negb (rs_ok profileResponse) then
      throw "Failed to fetch user profile"
    else
      pj <- await (rs_json profileResponse) ;;
      expiresAt <- expiry_of (d_expires_in longLivedTokenData) ;;
      profileData <- deref pj "id" ;;
      t1 <- now ;;
      connected_at <- toISOString (Num t1) ;;
      t2 <- now ;;
      updated_at <- toISOString (Num t2) ;;
      error <- write
        (DbUpsert "user_social_connections"
           [("user_id", Some (or_else state "default_user"));
            ("platform", Some "instagram");
            ("platform_user_id", d_id profileData);
            ("platform_username", d_username profileData);
            ("access_token", d_access_token longLivedTokenData);
            ("token_expires_at", Some expiresAt);
            ("connected_at", Some connected_at);
            ("updated_at", Some updated_at)]
           "user_id,platform") ;;
      match error with
      | Some _ => throw "Failed to save connection"
      | None =>
          ret (json_response 200 corsHeaders
                 (JObj [("success", JBool true);
                        ("message", JStr "Instagram connected successfully");
                        ("user", JObj
                           (opt_field "username"
                                      (jstr_opt (d_username profileData))
                            ++ opt_field "id"
                                      (jstr_opt (d_id profileData)))%list)]))
      end.

(** The [try] block of the handler. *)
Definition dispatch (req : Request) : M Response :=
  b <- await (req_json req 0%nat) ;;
  supabaseUrl <- asks (fun env => env_get env "SUPABASE_URL") ;;
  supabaseKey <- asks (fun env => env_get env "SUPABASE_SERVICE_ROLE_KEY") ;;
  instagramClientId <- asks (fun env => env_get env "INSTAGRAM_CLIENT_ID") ;;
  instagramClientSecret <-
    asks (fun env => env_get env "INSTAGRAM_CLIENT_SECRET") ;;
  redirect <- asks (fun env => env_get env "INSTAGRAM_REDIRECT_URI") ;;
  let redirectUri :=
    or_else redirect (show supabaseUrl ++ "/functions/v1/instagram-oauth") in
  if negb (truthy instagramClientId) || negb (truthy instagramClientSecret)
  then throw "Instagram OAuth credentials not configured"
  else
    let clientId := show instagramClientId in
    let clientSecret := show instagramClientSecret in
    mk <- asks (fun env => createClient env supabaseUrl supabaseKey) ;;
    await mk ;;;
    let action_is a :=
      match b_action b with Some x => (x =? a)%string | None => false end in
    if action_is "get_auth_url" then
      auth_url <- asks (fun env =>
        url_toString env "https://api.instagram.com/oauth/authorize"
          [("client_id", clientId);
           ("redirect_uri", redirectUri);
           ("scope", "user_profile,user_media");
           ("response_type", "code");
           ("state", or_else (b_state b) "default_state")]) ;;
      ret (json_response 200 corsHeaders
             (JObj [("success", JBool true); ("auth_url", JStr auth_url)]))
    else if action_is "exchange_code" then
      exchange_code clientId clientSecret redirectUri (b_code b) (b_state b)
    else if action_is "disconnect" then
      error <- write
        (DbDelete "user_social_connections"
           [("user_id", DbStr (or_else (b_state b) "default_user"));
            ("platform", DbStr "instagram")]) ;;
      match error with
      | Some _ => throw "Failed to disconnect"
      | None =>
          ret (json_response 200 corsHeaders
                 (JObj [("success", JBool true);
                        ("message",
                         JStr "Instagram disconnected successfully")]))
      end
    else if action_is "check_connection" then
      sel <- select_single "user_social_connections"
               [("user_id", DbStr (or_else (b_state b) "default_user"));
                ("platform", DbStr "instagram")] ;;
      let data :=
        match db_data sel with Some r => json_of_row r | None => JNull end in
      ret (json_response 200 corsHeaders
             (JObj [("success", JBool true);
                    ("connected",
                     match db_error sel with
                     | Some _ => JBool false
                     | None => data
                     end);
                    ("connection", data)]))
    else throw "Invalid action".

(** The handler given to [serve]. *)
Definition handler (req : Request) : M Response :=
  if (req_method req =? "OPTIONS")%string then
    ret {| status := 200; headers := corsHeaders; resp := BodyNull |}
  else if (req_method req =? "GET")%string then
    let mode := req_query req "hub.mode" in
    let token := req_query req "hub.verify_token" in
    let challenge := req_query req "hub.challenge" in
    configured <- asks (fun env => env_get env "WEBHOOK_VERIFY_TOKEN") ;;
    let verifyToken := or_else configured "instagram_webhook_token" in
    if match mode, token with
       | Some m, Some t => (m =? "subscribe")%string && (t =? verifyToken)%string
       | _, _ => false
       end
    then ret {| status := 200; headers := [("Content-Type", "text/plain")];
                resp := BodyText challenge |}
    else ret {| status := 403; headers := [];
                resp := BodyText (Some "Forbidden") |}
  else
    try_catch (dispatch req)
      (fun message =>
         ret (json_response 400 corsHeaders
                (JObj [("success", JBool false);
                       ("error", JStr message)]))).

End InstagramOauth.

(* ================================================================== *)
(** * The hook [useSocialMediaUpload] *)

Module Hook.
Import Js Rt Edge.
Local Open Scope m_scope.

Record SocialConnection : Type := {
  conn_id : string;
  conn_platform : string;
  conn_platform_display_name : option string;
  conn_platform_username : option string;
  conn_access_token : string;
  conn_refresh_token : option string;
  conn_token_expires_at : option string;
  conn_metadata : json;
  conn_is_active : bool
}.

Record UploadResult : Type := {
  ur_success : bool;
  ur_platform : string;
  ur_message : string;
  ur_url : option string;
  ur_error : option string
}.

Record AssetToUpload : Type := {
  as_id : string;
  as_title : string;
  as_asset_type : Compat.asset_type;
  as_asset_url : string;
  as_description : option string;
  as_tags : option (list string)
}.

(** The double quote. *)
Definition dq : string := String "034"%char EmptyString.

Definition failure (platform message error : string) : UploadResult :=
  {| ur_success := false; ur_platform := platform; ur_message := message;
     ur_url := None; ur_error := Some error |}.

Definition getItem (key : string) : M (option string) :=
  call (LocalStorageGet key)
       (fun env tr => Ok (localStorage_getItem env tr key)).

Definition setItem (key value : string) : M unit :=
  call (LocalStorageSet key value)
       (fun env tr => localStorage_setItem env tr key value).

(** [const { data: { user } } = await supabase.auth.getUser();
     user?.id || 'default_user'] *)
Definition currentUser : M string :=
  user <- call AuthGetUser (fun env tr => auth_getUser env tr) ;;
  ret (or_else user "default_user").

Definition parse (text : string) : M user_info :=
  r <- asks (fun env => json_parse env text) ;;
  await r.

(** The platforms found in local storage when the database answers with an
    error. *)
Definition localPlatforms : M (list SocialConnection) :=
  youtubeUserInfo <- getItem "youtube_user_info" ;;
  youtubeToken <- getItem "youtube_access_token" ;;
  youtubeExpiry <- getItem "youtube_expires_at" ;;
  youtube <-
    (if truthy youtubeUserInfo && truthy youtubeToken && truthy youtubeExpiry
     then
       userInfo <- parse (show youtubeUserInfo) ;;
       expiryDate <- getTime (show youtubeExpiry) ;;
       toISOString expiryDate ;;;
       t0 <- now ;;
       toISOString (Num t0) ;;;
       _ <- now ;;
       t <- now ;;
       if ltb (Num t) expiryDate then
         ret [ {| conn_id := "youtube-local";
                  conn_platform := "youtube";
                  conn_platform_display_name :=
                    Some (or_else (ui_channelTitle userInfo)
                                  "YouTube Channel");
                  conn_platform_username := ui_channelTitle userInfo;
                  conn_access_token := show youtubeToken;
                  conn_refresh_token := None;
                  conn_token_expires_at := youtubeExpiry;
                  conn_metadata :=
                    JObj (opt_field "channel_id"
                                    (jstr_opt (ui_channelId userInfo)));
                  conn_is_active := true |} ]
       else ret []
     else ret []) ;;
  instagramUserInfo <- getItem "instagram_user_info" ;;
  instagramToken <- getItem "instagram_access_token" ;;
  instagram <-
    (if truthy instagramUserInfo && truthy instagramToken then
       userInfo <- parse (show instagramUserInfo) ;;
       ret [ {| conn_id := "instagram-local";
                conn_platform := "instagram";
                conn_platform_display_name :=
                  Some (or_else (ui_username userInfo) "Instagram Account");
                conn_platform_username := ui_username userInfo;
                conn_access_token := show instagramToken;
                conn_refresh_token := None;
                conn_token_expires_at := None;
                conn_metadata :=
                  JObj (opt_field "user_id" (jstr_opt (ui_id userInfo)));
                conn_is_active := true |} ]
     else ret []) ;;
  facebookUserInfo <- getItem "facebook_user_info" ;;
  facebookToken <- getItem "facebook_access_token" ;;
  facebook <-
    (if truthy facebookUserInfo && truthy facebookToken then
       userInfo <- parse (show facebookUserInfo) ;;
       ret [ {| conn_id := "facebook-local";
                conn_platform := "facebook";
                conn_platform_display_name :=
                  Some (or_else (ui_name userInfo) "Facebook Account");
                conn_platform_username := ui_name userInfo;
                conn_access_token := show facebookToken;
                conn_refresh_token := None;
                conn_token_expires_at := None;
                conn_metadata :=
                  JObj (opt_field "user_id" (jstr_opt (ui_id userInfo)));
                conn_is_active := true |} ]
     else ret []) ;;
  ret (youtube ++ instagram ++ facebook)%list.

(** Truthiness of a JSON value. *)
Definition json_truthy (j : json) : bool :=
  match j with
  | JNull | JBool false | JNum 0 | JStr EmptyString => false
  | _ => true
  end.

(** The mapping of a row of the database to a [SocialConnection]. *)
Definition mapRow (dbItem : row) : SocialConnection :=
  {| conn_id := r_id dbItem;
     conn_platform := r_platform dbItem;
     conn_platform_display_name :=
       if truthy (r_platform_display_name dbItem)
       then r_platform_display_name dbItem else None;
     conn_platform_username :=
       if truthy (r_platform_username dbItem)
       then r_platform_username dbItem else None;
     conn_access_token := r_access_token dbItem;
     conn_refresh_token :=
       if truthy (r_refresh_token dbItem)
       then r_refresh_token dbItem else None;
     conn_token_expires_at :=
       if truthy (r_token_expires_at dbItem)
       then r_token_expires_at dbItem else None;
     conn_metadata :=
       match r_metadata dbItem with
       | Some j => if json_truthy j then j else JObj []
       | None => JObj []
       end;
     conn_is_active :=
       match r_is_active dbItem with Some b => b | None => true end |}.

(** [getConnectedPlatforms] *)
Definition getConnectedPlatforms : M (list SocialConnection) :=
  try_catch
    (currentUserId <- currentUser ;;
     sel <- call (DbSelectList "user_social_connections"
                    [("user_id", DbStr currentUserId);
                     ("is_active", DbBool true)] "connected_at")
                 (fun env tr =>
                    db_select_list env tr "user_social_connections"
                      [("user_id", DbStr currentUserId);
                       ("is_active", DbBool true)] "connected_at") ;;
     match db_error sel with
     | Some _ => localPlatforms
     | None =>
         ret (map mapRow
                  (match db_data sel with Some l => l | None => [] end))
     end)
    (fun _ => ret []).

(** ** The upload functions *)

(** The test mode of [uploadToYouTube]: "Only use test mode for explicitly
    created demo/mock connections". *)
Definition isTestConnection_youtube (connection : SocialConnection) : bool :=
  (conn_access_token connection =? "demo_access_token_youtube")%string
  || startsWith (conn_access_token connection) "test-youtube-token-"
  || (conn_id connection =? "mock-youtube")%string.

Definition isTestConnection_instagram (connection : SocialConnection)
  : bool :=
  (conn_access_token connection =? "demo_access_token_instagram")%string.

Definition isTestConnection_facebook (connection : SocialConnection)
  : bool :=
  (conn_access_token connection =? "demo_access_token_facebook")%string.

(** [await new Promise(resolve => setTimeout(resolve, ms))] *)
Definition sleep (ms : Z) : M unit := emit (Sleep ms).

(** The client id and the client secret of the refresh request are string
    literals in the hook; their text is not repeated here. *)
Definition client_id : string := "(client id of the hook)".
Definition client_secret : string := "(client secret of the hook)".

Definition refresh_request (connection : SocialConnection) : request :=
  {| rq_method := "POST";
     rq_url := "https://oauth2.googleapis.com/token";
     rq_headers := [("Content-Type", "application/x-www-form-urlencoded")];
     rq_body := FormBody
       [("client_id", client_id);
        ("client_secret", client_secret);
        ("grant_type", "refresh_token");
        ("refresh_token", show (conn_refresh_token connection))] |}.

(** The refresh attempt of [uploadToYouTube].  The value is
    [connection.token_expires_at] after the attempt: the new expiry once
    the connection object has been updated, the old one otherwise.  An
    error after the update of the object is swallowed by the outer [catch]
    like any other, and leaves the object updated.  (The new access token
    that is stored in the object is not read again by the hook.) *)
Definition tryRefresh (connection : SocialConnection) : M (option string) :=
  try_catch
    (refreshResponse <- do_fetch (refresh_request connection) ;;
     if rs_ok refreshResponse then
       j <- await (rs_json refreshResponse) ;;
       refreshData <- deref j "expires_in" ;;
       t <- now ;;
       newExpiresAt <- toISOString
         (add (Num t) (mul (num_of (d_expires_in refreshData)) (Num 1000))) ;;
       try_catch
         (try_catch
            (updateUserId <- currentUser ;;
             t' <- now ;;
             updated_at <- toISOString (Num t') ;;
             write (DbUpdate "user_social_connections"
                      [("access_token", d_access_token refreshData);
                       ("token_expires_at", Some newExpiresAt);
                       ("updated_at", Some updated_at)]
                      [("user_id", DbStr updateUserId);
                       ("platform", DbStr "youtube")]) ;;;
             ret tt)
            (fun _ =>
               setItem "youtube_access_token"
                       (show (d_access_token refreshData)) ;;;
               setItem "youtube_expires_at" newExpiresAt))
         (fun _ => ret tt) ;;;
       ret (Some newExpiresAt)
     else ret (conn_token_expires_at connection))
    (fun _ => ret (conn_token_expires_at connection)).

(** "Check if token is still valid, and refresh if necessary", up to the
    "Final check if token is still expired", whose answer is the value. *)
Definition tokenExpired (connection : SocialConnection) : M bool :=
  if truthy (conn_token_expires_at connection) then
    expiryDate <- getTime (show (conn_token_expires_at connection)) ;;
    t <- now ;;
    let timeToExpire := sub expiryDate (Num t) in
    token_expires_at <-
      (if leb timeToExpire (Num 300000)
          && truthy (conn_refresh_token connection)
       then tryRefresh connection
       else ret (conn_token_expires_at connection)) ;;
    finalExpiry <- getTime (show token_expires_at) ;;
    t' <- now ;;
    ret (leb finalExpiry (Num t'))
  else ret false.

Definition invoke (name : string) (doc : json) : M invoke_answer :=
  call (FunctionsInvoke name doc)
       (fun env tr => functions_invoke env tr name doc).

(** [uploadToYouTube] *)
Definition uploadToYouTube (asset : AssetToUpload)
           (connection : SocialConnection) : M UploadResult :=
  try_catch
    (if isTestConnection_youtube connection then
       sleep 2000 ;;;
       t <- now ;;
       let mockVideoId := "test-video-" ++ string_of_Z t in
       let videoUrl := "https://www.youtube.com/watch?v=" ++ mockVideoId in
       ret {| ur_success := true;
              ur_platform := "youtube";
              ur_message := "Successfully uploaded " ++ dq ++ as_title asset
                            ++ dq ++ " to YouTube (Test Mode)";
              ur_url := Some videoUrl;
              ur_error := None |}
     else
       expired <- tokenExpired connection ;;
       if expired then
         ret (failure "youtube"
                "YouTube token has expired. Please reconnect your account."
                "Token expired")
       else
         match as_asset_type asset with
         | Compat.Video =>
             if negb (truthy (Some (as_asset_url asset)))
                || (as_asset_url asset =? "processing")%string
                || (as_asset_url asset =? "pending")%string
             then
               ret (failure "youtube"
                      "Video is not ready for upload. Please wait for processing to complete."
                      "Asset not ready")
             else
               try_catch
                 (currentUserId <- currentUser ;;
                  let tagList :=
                    match as_tags asset with
                    | Some l => String.concat ", " l
                    | None => ""
                    end in
                  ans <- invoke "youtube-oauth"
                    (JObj
                       [("action", JStr "upload_video");
                        ("userId", JStr currentUserId);
                        ("videoUrl", JStr (as_asset_url asset));
                        ("title", JStr (as_title asset));
                        ("description", JStr
                           (or_else (as_description asset)
                              ("Generated with FeedGenesis" ++ nl ++ nl
                               ++ "Tags: "
                               ++ or_else (Some tagList) "video, content"
                               ++ nl ++ nl
                               ++ "Created using AI-powered video generation.")));
                        ("tags", JArr
                           (map JStr
                              (match as_tags asset with
                               | Some l => l
                               | None =>
                                   ["video"; "content"; "AI"; "generated"]
                               end)));
                        ("privacyStatus", JStr "public")]) ;;
                  match iv_err ans with
                  | Some message =>
                      throw (or_else (Some message) "OAuth function failed")
                  | None =>
                      match iv_data ans with
                      | Some uploadResponse =>
                          match iv_success uploadResponse with
                          | Some true =>
                              ret {| ur_success := true;
                                     ur_platform := "youtube";
                                     ur_message :=
                                       "Successfully uploaded " ++ dq
                                       ++ as_title asset ++ dq
                                       ++ " to YouTube";
                                     ur_url := iv_url uploadResponse;
                                     ur_error := None |}
                          | _ =>
                              throw (or_else (iv_error uploadResponse)
                                             "Upload failed")
                          end
                      | None => throw "Upload failed"
                      end
                  end)
                 (fun _ =>
                    ret (failure "youtube"
                           ("Unable to upload " ++ dq ++ as_title asset ++ dq
                            ++ " to YouTube. Please upload manually: "
                            ++ as_asset_url asset)
                           "Direct upload blocked by CORS policy. Please upload the video manually to your YouTube channel."))
         | _ =>
             ret (failure "youtube" "YouTube only supports video uploads."
                          "Unsupported asset type")
         end)
    (fun message =>
       ret {| ur_success := false;
              ur_platform := "youtube";
              ur_message := or_else (Some message)
                                    "Failed to upload to YouTube";
              ur_url := None;
              ur_error := Some message |}).

(** [uploadToInstagram] *)
Definition uploadToInstagram (asset : AssetToUpload)
           (connection : SocialConnection) : M UploadResult :=
  if isTestConnection_instagram connection then
    sleep 1500 ;;;
    t <- now ;;
    let mockPostId := "test-post-" ++ string_of_Z t in
    let postUrl := "https://www.instagram.com/p/" ++ mockPostId ++ "/" in
    ret {| ur_success := true;
           ur_platform := "instagram";
           ur_message := "Successfully uploaded " ++ dq ++ as_title asset
                         ++ dq ++ " to Instagram (Test Mode)";
           ur_url := Some postUrl;
           ur_error := None |}
  else
    ret (failure "instagram"
           "Instagram posting requires manual upload. The Instagram API has restrictions that require app review."
           "Manual posting required").

(** [uploadToFacebook] *)
Definition uploadToFacebook (asset : AssetToUpload)
           (connection : SocialConnection) : M UploadResult :=
  if isTestConnection_facebook connection then
    sleep 1000 ;;;
    t <- now ;;
    let mockPostId := "test-facebook-post-" ++ string_of_Z t in
    let postUrl := "https://www.facebook.com/posts/" ++ mockPostId in
    ret {| ur_success := true;
           ur_platform := "facebook";
           ur_message := "Successfully uploaded " ++ dq ++ as_title asset
                         ++ dq ++ " to Facebook (Test Mode)";
           ur_url := Some postUrl;
           ur_error := None |}
  else
    ret (failure "facebook"
           "Facebook posting will be available in a future update. For now, please post manually."
           "Manual posting required").

(** ** The fan-out *)

(** [await Promise.all(promises)] for jobs that are started in order.  Every
    job runs; the value is the list of their values, unless one of them is
    rejected.  (The jobs run concurrently in the source; the order of the
    values does not depend on it, and the embedding runs them one after the
    other.) *)
Fixpoint promise_all {A} (jobs : list (M A)) : M (list A) :=
  match jobs with
  | [] => ret []
  | job :: rest =>
      fun env tr =>
        match job env tr with
        | (o, tr1) =>
            match promise_all rest env tr1 with
            | (os, tr2) =>
                (match o, os with
                 | Returned a, Returned l => Returned (a :: l)
                 | Threw msg, _ => Threw msg
                 | Unfinished, _ => Unfinished
                 | Returned _, Threw msg => Threw msg
                 | Returned _, Unfinished => Unfinished
                 end, tr2)
            end
        end
  end.

Definition toast (title description : string) (destructive : bool) : M unit :=
  emit (Toast title description destructive).

Section FanOut.

(** The upload functions that [uploadToSocialMedia] closes over. *)
Variables uploadToYouTube uploadToInstagram uploadToFacebook :
  AssetToUpload -> SocialConnection -> M UploadResult.

(** The [switch] on the platform of a connection. *)
Definition upload_to (asset : AssetToUpload) (connection : SocialConnection)
  : M UploadResult :=
  if (conn_platform connection =? "youtube")%string then
    uploadToYouTube asset connection
  else if (conn_platform connection =? "instagram")%string then
    uploadToInstagram asset connection
  else if (conn_platform connection =? "facebook")%string then
    uploadToFacebook asset connection
  else
    ret (failure (conn_platform connection)
           ("Upload to " ++ conn_platform connection
            ++ " is not yet supported.")
           "Platform not supported").

(** The job of one selected connection. *)
Definition upload_job (asset : AssetToUpload) (connection : SocialConnection)
  : M UploadResult :=
  emit (SetUploadingPlatforms (PlatformsAdd (conn_platform connection))) ;;;
  try_finally
    (upload_to asset connection)
    (emit (SetUploadingPlatforms
             (PlatformsRemove (conn_platform connection)))).

(** [uploadToSocialMedia] *)
Definition uploadToSocialMedia (asset : AssetToUpload)
           (selectedPlatforms : list string) : M (list UploadResult) :=
  emit (SetIsUploading true) ;;;
  emit (SetUploadingPlatforms (PlatformsSet selectedPlatforms)) ;;;
  try_finally
    (try_catch
       (connections <- getConnectedPlatforms ;;
        match connections with
        | [] =>
            toast "No Connected Platforms"
                  "Please connect at least one social media platform first."
                  true ;;;
            ret []
        | _ =>
            let selectedConnections :=
              filter (fun conn =>
                        includes selectedPlatforms (conn_platform conn))
                     connections in
            match selectedConnections with
            | [] =>
                toast "Invalid Platform Selection"
                      "None of the selected platforms are connected."
                      true ;;;
                ret []
            | _ =>
                results <- promise_all
                             (map (upload_job asset) selectedConnections) ;;
                let successResults := filter ur_success results in
                let failureResults :=
                  filter (fun r => negb (ur_success r)) results in
                (match successResults with
                 | [] => ret tt
                 | _ =>
                     toast "Upload Success"
                       ("Successfully uploaded to "
                        ++ string_of_Z (Z.of_nat (List.length successResults))
                        ++ " platform(s): "
                        ++ String.concat ", "
                             (map ur_platform successResults))
                       false
                 end) ;;;
                (match failureResults with
                 | [] => ret tt
                 | _ =>
                     toast "Some Uploads Failed"
                       ("Failed to upload to: "
                        ++ String.concat ", "
                             (map ur_platform failureResults))
                       true
                 end) ;;;
                ret results
            end
        end)
       (fun message =>
          toast "Upload Failed"
                (or_else (Some message)
                   "Failed to upload to social media platforms")
                true ;;;
          ret []))
    (emit (SetIsUploading false) ;;;
     emit (SetUploadingPlatforms (PlatformsSet []))).

End FanOut.

(** The [switch] of the hook, over its own upload functions. *)
Definition dispatch (asset : AssetToUpload) (connection : SocialConnection)
  : M UploadResult :=
  upload_to uploadToYouTube uploadToInstagram uploadToFacebook
            asset connection.

(** The fan-out of the hook, over its own upload functions. *)
Definition publish (asset : AssetToUpload) (selectedPlatforms : list string)
  : M (list UploadResult) :=
  uploadToSocialMedia uploadToYouTube uploadToInstagram uploadToFacebook
                      asset selectedPlatforms.

End Hook.

(* ================================================================== *)
(** * The resumable upload as the specification describes it *)

Module Resumable.
Import Js Rt Edge.

(** Number of chunks of a payload of [S] bytes. *)
Definition chunk_count (S : Z) : nat :=
  Z.to_nat ((S + chunkSize - 1) / chunkSize).

(** The [i]-th span [start, end) of a payload of [S] bytes. *)
Definition span (S : Z) (i : nat) : Z * Z :=
  (Z.of_nat i * chunkSize, Z.min ((Z.of_nat i + 1) * chunkSize) S).

Definition spans (S : Z) : list (Z * Z) :=
  map (span S) (seq 0 (chunk_count S)).

(** Each span starts where the one before it ends. *)
Fixpoint contiguous_from (start : Z) (l : list (Z * Z)) : Prop :=
  match l with
  | sp :: l' => fst sp = start /\ contiguous_from (snd sp) l'
  | [] => True
  end.

(** Byte [b] lies in the span. *)
Definition covers (b : Z) (sp : Z * Z) : bool :=
  (fst sp <=? b) && (b <? snd sp).

(** The header of a span: first and last byte, both included, and the
    total size. *)
Definition range_header (S : Z) (sp : Z * Z) : string :=
  "bytes " ++ string_of_Z (fst sp) ++ "-" ++ string_of_Z (snd sp - 1)
  ++ "/" ++ string_of_Z S.

(** The chunk PUT of a span. *)
Definition put_of (uploadUrl : string) (videoArray : Uint8Array)
           (sp : Z * Z) : request :=
  chunk_request uploadUrl videoArray (Num (fst sp)) (Num (snd sp)).

(** The chunk PUT that the loops send when [start] is byte [s]. *)
Definition put_at (uploadUrl : string) (videoArray : Uint8Array) (s : Z)
  : request :=
  chunk_request uploadUrl videoArray (Num s) (chunk_end videoArray (Num s)).

(** A header of a request, by its name. *)
Fixpoint header_of (name : string) (hs : list (string * string))
  : option string :=
  match hs with
  | (n, v) :: hs' => if (n =? name)%string then Some v else header_of name hs'
  | [] => None
  end.

Definition content_range_of (rq : request) : option string :=
  header_of "Content-Range" (rq_headers rq).

(** A 308 answer that asks for no retransmission of the chunk ending at
    [e]: it carries no range header, or one that acknowledges the bytes up
    to [e - 1]. *)
Definition acknowledged (r : response) (e : Z) : Prop :=
  truthy (headers_get r "Range") = false
  \/ exists a, 0 <= a
       /\ headers_get r "Range"
          = Some ("bytes=" ++ string_of_Z a ++ "-" ++ string_of_Z (e - 1)).

(** The platform answers the PUT of a span cleanly: with the continue
    status and no retransmission when more bytes are to come, with a
    terminal success status and a body when the span ends the payload. *)
Definition clean_answer (env : Env) (uploadUrl : string)
           (videoArray : Uint8Array) (sp : Z * Z) : Prop :=
  forall tr, exists r,
    fetch env tr (put_of uploadUrl videoArray sp) = Ok r
    /\ (snd sp < ua_length videoArray ->
        rs_status r = 308 /\ acknowledged r (snd sp))
    /\ (snd sp = ua_length videoArray ->
        rs_status r = 200 \/ rs_status r = 201).

Definition clean_run (env : Env) (uploadUrl : string)
           (videoArray : Uint8Array) : Prop :=
  Forall (clean_answer env uploadUrl videoArray)
         (spans (ua_length videoArray)).

End Resumable.

(* ================================================================== *)
(** * Concrete environments and inputs *)

Module Examples.
Import Js Rt Edge.

(** The two dates of the examples: one second before and 400 seconds
    after the time of the clock, 2023-11-14T22:13:20Z. *)
Definition the_clock : Z := 1700000000000.
Definition one_second_ago : string := "2023-11-14T22:13:19.000Z".
Definition in_400_seconds : string := "2023-11-14T22:20:00.000Z".

Definition example_getTime (s : string) : num :=
  if (s =? one_second_ago)%string then Num 1699999999000
  else if (s =? in_400_seconds)%string then Num 1700000400000
  else NaN.

Definition example_toISOString (z : Z) : string :=
  if z =? 1699999999000 then one_second_ago
  else if z =? 1700000400000 then in_400_seconds
  else "T+" ++ string_of_Z z.

(** A deployment whose secrets are configured, in which no platform is
    reachable and nothing is stored. *)
Definition offline : Env :=
  {| fetch := fun _ _ => Err "network error";
     db_select_single := fun _ _ _ =>
       Ok {| db_data := None; db_error := Some "no rows" |};
     db_select_list := fun _ _ _ _ =>
       Ok {| db_data := Some []; db_error := None |};
     db_write := fun _ _ => Ok None;
     auth_getUser := fun _ => Ok None;
     functions_invoke := fun _ _ _ =>
       Ok {| iv_data := None; iv_err := Some "not deployed" |};
     clock := fun _ => the_clock;
     localStorage_getItem := fun _ _ => None;
     localStorage_setItem := fun _ _ _ => Ok tt;
     date_getTime := example_getTime;
     date_toISOString := example_toISOString;
     env_get := fun name => Some ("value of " ++ name);
     node_env := None;
     url_toString := fun base _ => base;
     createClient := fun url key =>
       if truthy url && truthy key then Ok tt
       else Err "supabaseUrl is required.";
     json_parse := fun _ => Err "Unexpected token";
     json_stringify := fun _ => "{}";
     error_stack := fun m => m |}.

Definition with_fetch (f : trace -> request -> result response) (env : Env)
  : Env :=
  {| fetch := f;
     db_select_single := db_select_single env;
     db_select_list := db_select_list env;
     db_write := db_write env;
     auth_getUser := auth_getUser env;
     functions_invoke := functions_invoke env;
     clock := clock env;
     localStorage_getItem := localStorage_getItem env;
     localStorage_setItem := localStorage_setItem env;
     date_getTime := date_getTime env;
     date_toISOString := date_toISOString env;
     env_get := env_get env;
     node_env := node_env env;
     url_toString := url_toString env;
     createClient := createClient env;
     json_parse := json_parse env;
     json_stringify := json_stringify env;
     error_stack := error_stack env |}.

Definition video_document (id : string) : document :=
  {| d_access_token := None; d_refresh_token := None; d_expires_in := None;
     d_id := Some id; d_snippet_title := None; d_items := None;
     d_user_id := None; d_username := None |}.

Definition empty_blob : Blob :=
  {| blob_type := ""; blob_bytes := {| ua_length := 0; ua_at := fun _ => 0 |} |}.

(** A response with the given status, range header and JSON body. *)
Definition answer (st : Z) (range : option string)
           (doc : option document) : response :=
  {| rs_status := st;
     rs_statusText := "";
     rs_header := fun name =>
       if (name =? "range")%string then range else None;
     rs_text := Ok "";
     rs_json := Ok doc;
     rs_blob := Ok empty_blob |}.

(** A payload of [n] zero bytes. *)
Definition zeros (n : Z) : Uint8Array :=
  {| ua_length := n; ua_at := fun _ => 0 |}.

Definition session : string := "https://upload.example/session/1".

(** A platform that takes a payload of 12 MiB in three chunks: the first
    answer has no range header, the second acknowledges all bytes so far,
    the third is the terminal success. *)
Definition three_chunks : Env :=
  with_fetch
    (fun _ rq =>
       match Resumable.content_range_of rq with
       | Some h =>
           if (h =? "bytes 0-5242879/12582912")%string then
             Ok (answer 308 None None)
           else if (h =? "bytes 5242880-10485759/12582912")%string then
             Ok (answer 308 (Some "bytes=0-10485759") None)
           else Ok (answer 200 None (Some (video_document "v1")))
       | None => Err "network error"
       end)
    offline.

(** A platform that answers every PUT with the continue status and no
    range header. *)
Definition always_continue : Env :=
  with_fetch (fun _ _ => Ok (answer 308 None None)) offline.

(** A platform that answers every PUT with the continue status and
    acknowledges the first byte only. *)
Definition always_first_byte : Env :=
  with_fetch (fun _ _ => Ok (answer 308 (Some "bytes=0-0") None))
             offline.

(** A response with the given status and headers and an empty body. *)
Definition plain (st : Z) (hs : list (string * string)) : response :=
  {| rs_status := st;
     rs_statusText := "";
     rs_header := fun name => Resumable.header_of name hs;
     rs_text := Ok "";
     rs_json := Ok None;
     rs_blob := Ok empty_blob |}.

(** A credential that expired one second ago and has no refresh token. *)
Definition stale_connection : row :=
  {| r_id := "c1"; r_user_id := "u1"; r_platform := "youtube";
     r_platform_user_id := None; r_platform_username := None;
     r_platform_display_name := None;
     r_access_token := "stale-token";
     r_refresh_token := None;
     r_token_expires_at := Some one_second_ago;
     r_scope := None; r_is_active := Some true; r_metadata := None |}.

(** A credential that expired one second ago and has a refresh token. *)
Definition refreshable_connection : row :=
  {| r_id := "c2"; r_user_id := "u1"; r_platform := "youtube";
     r_platform_user_id := None; r_platform_username := None;
     r_platform_display_name := None;
     r_access_token := "stale-token";
     r_refresh_token := Some "refresh-1";
     r_token_expires_at := Some one_second_ago;
     r_scope := None; r_is_active := Some true; r_metadata := None |}.

(** A credential that is valid for 400 more seconds. *)
Definition fresh_connection : row :=
  {| r_id := "c3"; r_user_id := "u1"; r_platform := "youtube";
     r_platform_user_id := None; r_platform_username := None;
     r_platform_display_name := None;
     r_access_token := "fresh-token";
     r_refresh_token := Some "refresh-1";
     r_token_expires_at := Some in_400_seconds;
     r_scope := None; r_is_active := Some true; r_metadata := None |}.

(** A token endpoint that rejects the refresh with status 400. *)
Definition refresh_rejected : Env :=
  with_fetch (fun _ _ => Ok (plain 400 [])) offline.

Definition with_connection (c : row) (env : Env) : Env :=
  {| fetch := fetch env;
     db_select_single := fun _ _ _ =>
       Ok {| db_data := Some c; db_error := None |};
     db_select_list := db_select_list env;
     db_write := db_write env;
     auth_getUser := auth_getUser env;
     functions_invoke := functions_invoke env;
     clock := clock env;
     localStorage_getItem := localStorage_getItem env;
     localStorage_setItem := localStorage_setItem env;
     date_getTime := date_getTime env;
     date_toISOString := date_toISOString env;
     env_get := env_get env;
     node_env := node_env env;
     url_toString := url_toString env;
     createClient := createClient env;
     json_parse := json_parse env;
     json_stringify := json_stringify env;
     error_stack := error_stack env |}.

(** A platform on which the whole upload of a video of three bytes
    succeeds: the video is served, the session is opened and the only
    chunk is accepted. *)
Definition upload_works : Env :=
  with_fetch
    (fun _ rq =>
       if (rq_method rq =? "GET")%string then
         Ok {| rs_status := 200; rs_statusText := "OK";
               rs_header := fun _ => None;
               rs_text := Ok ""; rs_json := Ok None;
               rs_blob := Ok {| blob_type := "video/mp4";
                                blob_bytes := zeros 3 |} |}
       else if (rq_method rq =? "POST")%string then
         Ok (plain 200 [("location", session)])
       else Ok (answer 200 None (Some (video_document "v1"))))
    (with_connection stale_connection offline).

(** A POST request with the given JSON body, which can be read once. *)
Definition post (b : body) : Request :=
  {| req_method := "POST";
     req_query := fun _ => None;
     req_json := fun n =>
       match n with
       | O => Ok b
       | S _ => Err "Body already consumed."
       end |}.

(** The request for the upload of a video. *)
Definition upload_request : Request :=
  post {| b_action := Some "upload_video"; b_code := None;
          b_state := None; b_userId := Some "u1";
          b_refresh_token := None;
          b_videoUrl := Some "https://cdn.example/v.mp4";
          b_title := Some "Launch"; b_description := None;
          b_tags := None; b_privacyStatus := None |}.

(** A request with an action that the function does not know. *)
Definition unknown_action : Request :=
  post {| b_action := Some "publish"; b_code := None;
          b_state := None; b_userId := Some "u1";
          b_refresh_token := None; b_videoUrl := None;
          b_title := None; b_description := None;
          b_tags := None; b_privacyStatus := None |}.


(** Assets of the library. *)
Definition video_asset : Hook.AssetToUpload :=
  {| Hook.as_id := "a1"; Hook.as_title := "Launch";
     Hook.as_asset_type := Compat.Video;
     Hook.as_asset_url := "https://cdn.example/v.mp4";
     Hook.as_description := None; Hook.as_tags := None |}.

Definition image_asset : Hook.AssetToUpload :=
  {| Hook.as_id := "a2"; Hook.as_title := "Poster";
     Hook.as_asset_type := Compat.Image;
     Hook.as_asset_url := "https://cdn.example/p.png";
     Hook.as_description := None; Hook.as_tags := None |}.

(** The YouTube connection that the dialog's test button creates. *)
Definition demo_youtube : row :=
  {| r_id := "c9"; r_user_id := "default_user"; r_platform := "youtube";
     r_platform_user_id := None; r_platform_username := None;
     r_platform_display_name := Some "Test YouTube Channel";
     r_access_token := "demo_access_token_youtube";
     r_refresh_token := None;
     r_token_expires_at := None;
     r_scope := None; r_is_active := Some true; r_metadata := None |}.

(** The Instagram connection that the dialog's test button creates. *)
Definition demo_instagram : row :=
  {| r_id := "c10"; r_user_id := "default_user"; r_platform := "instagram";
     r_platform_user_id := None; r_platform_username := None;
     r_platform_display_name := Some "test_instagram_user";
     r_access_token := "demo_access_token_instagram";
     r_refresh_token := None;
     r_token_expires_at := None;
     r_scope := None; r_is_active := Some true; r_metadata := None |}.

(** A user with the given active connections. *)
Definition with_connections (rows : list row) (env : Env) : Env :=
  {| fetch := fetch env;
     db_select_single := db_select_single env;
     db_select_list := fun _ _ _ _ =>
       Ok {| db_data := Some rows; db_error := None |};
     db_write := db_write env;
     auth_getUser := auth_getUser env;
     functions_invoke := functions_invoke env;
     clock := clock env;
     localStorage_getItem := localStorage_getItem env;
     localStorage_setItem := localStorage_setItem env;
     date_getTime := date_getTime env;
     date_toISOString := date_toISOString env;
     env_get := env_get env;
     node_env := node_env env;
     url_toString := url_toString env;
     createClient := createClient env;
     json_parse := json_parse env;
     json_stringify := json_stringify env;
     error_stack := error_stack env |}.


(** A user with the demo connections of YouTube and Instagram. *)
Definition youtube_and_instagram : Env :=
  with_connections [demo_youtube; demo_instagram] offline.

(** A live YouTube connection whose token expired one second ago and that
    has a refresh token. *)
Definition expiring_youtube : Hook.SocialConnection :=
  Hook.mapRow refreshable_connection.


End Examples.

(* ================================================================== *)
(** * The upload dialog: selection of platforms and upload *)

Module Dialog.
Import Js Rt Edge Hook.
Local Open Scope m_scope.

(** The platforms that [loadConnectedPlatforms] pre-selects:
    [compatiblePlatforms.map(p => p.platform)]. *)
Definition compatiblePlatforms (t : Compat.asset_type)
           (platforms : list SocialConnection) : list string :=
  map conn_platform
      (filter (fun p => Compat.autoSelect t (conn_platform p)) platforms).

(** [handlePlatformToggle]: the new value of [selectedPlatforms]. *)
Definition handlePlatformToggle (prev : list string) (platform : string)
  : list string :=
  if includes prev platform
  then filter (fun p => negb (p =? platform)%string) prev
  else (prev ++ [platform])%list.

(** The click handler of the card of a connected platform:
    [() => isCompatible && handlePlatformToggle(platform.platform)].  (The
    check box of the card, which calls [handlePlatformToggle] as well, is
    rendered for a compatible platform only.) *)
Definition onClick (t : Compat.asset_type) (prev : list string)
           (platform : string) : list string :=
  if Compat.isPlatformCompatible t platform
  then handlePlatformToggle prev platform
  else prev.

(** The state of the dialog that its handlers read and write. *)
Record DialogState : Type := {
  isOpen : bool;
  selectedPlatforms : list string;
  uploadResults : list UploadResult;
  showResults : bool
}.

(** [handleModalClose] *)
Definition handleModalClose (st : DialogState) : DialogState :=
  {| isOpen := false; selectedPlatforms := [];
     uploadResults := []; showResults := false |}.

(** The callback of the timer that [handleUpload] starts. *)
Definition closeAfterSuccess (st : DialogState) : DialogState :=
  {| isOpen := false; selectedPlatforms := selectedPlatforms st;
     uploadResults := []; showResults := false |}.

(** [handleUpload].  The value is the state after the call and the delay
    of the timer that was started, if one was. *)
Definition handleUpload (asset : AssetToUpload) (st : DialogState)
  : M (DialogState * option Z) :=
  match selectedPlatforms st with
  | [] =>
      toast "No Platforms Selected"
            "Please select at least one platform to upload to." true ;;;
      ret (st, None)
  | _ =>
      try_catch
        (results <- publish asset (selectedPlatforms st) ;;
         let st' := {| isOpen := isOpen st;
                       selectedPlatforms := selectedPlatforms st;
                       uploadResults := results;
                       showResults := true |} in
         if forallb ur_success results then ret (st', Some 3000)
         else ret (st', None))
        (fun message =>
           toast "Upload Failed"
                 ("An error occurred during upload: " ++ message) true ;;;
           ret (st, None))
  end.

End Dialog.

(* ================================================================== *)
(** * Edge function [instagram-post] *)

Module InstagramPost.
Import Js Rt Edge.
Local Open Scope m_scope.

Definition corsHeaders : list (string * string) :=
  [("Access-Control-Allow-Origin", "*");
   ("Access-Control-Allow-Headers",
    "authorization, x-client-info, apikey, content-type")].

(** The JSON body of a request: the fields the function destructures. *)
Record post_body : Type := {
  userId : option string;
  imageUrl : option string;
  caption : option string;
  isCarousel : option bool;
  carouselUrls : option (list string)
}.

(** A request to the function: its method and the outcome of
    [req.json()]. *)
Record PostRequest : Type := {
  post_method : string;
  post_json : result post_body
}.

(** String coercion in a template of a column that may be [null]. *)
Definition show_null (s : option string) : string :=
  match s with
  | Some x => x
  | None => "null"
  end.

Definition json_post (url : string) (doc : json) : request :=
  {| rq_method := "POST";
     rq_url := url;
     rq_headers := [("Content-Type", "application/json")];
     rq_body := JsonBody doc |}.

Definition media_url (instagramUserId : option string) : string :=
  "https://graph.facebook.com/v18.0/" ++ show_null instagramUserId ++ "/media".

Definition media_publish_url (instagramUserId : option string) : string :=
  "https://graph.facebook.com/v18.0/" ++ show_null instagramUserId
  ++ "/media_publish".

(** The container of one image of a carousel. *)
Definition item_request (instagramUserId : option string)
           (accessToken url : string) : request :=
  json_post (media_url instagramUserId)
    (JObj [("image_url", JStr url);
           ("is_carousel_item", JBool true);
           ("access_token", JStr accessToken)]).

(** The container of the carousel. *)
Definition carousel_request (instagramUserId : option string)
           (accessToken : string) (containerIds : list (option string))
           (caption : string) : request :=
  json_post (media_url instagramUserId)
    (JObj [("media_type", JStr "CAROUSEL");
           ("children", JArr (map jopt containerIds));
           ("caption", JStr caption);
           ("access_token", JStr accessToken)]).

(** The container of a single image. *)
Definition container_request (instagramUserId : option string)
           (accessToken imageUrl caption : string) : request :=
  json_post (media_url instagramUserId)
    (JObj [("image_url", JStr imageUrl);
           ("caption", JStr caption);
           ("access_token", JStr accessToken)]).

Definition publish_request (instagramUserId : option string)
           (accessToken : string) (creation_id : option string) : request :=
  json_post (media_publish_url instagramUserId)
    (JObj (opt_field "creation_id" (jstr_opt creation_id)
           ++ [("access_token", JStr accessToken)])%list).

Definition published (message : string) (post_id : option string)
  : Response :=
  json_response 200 corsHeaders
    (JObj ([("success", JBool true); ("message", JStr message)]
           ++ opt_field "post_id" (jstr_opt post_id))%list).

(** [for (const url of carouselUrls)]: "Upload each image and get
    container IDs".  The value is [containerIds] after the loop. *)
Fixpoint carousel_items (instagramUserId : option string)
         (accessToken : string) (urls : list string)
         (containerIds : list (option string))
  : M (list (option string)) :=
  match urls with
  | [] => ret containerIds
  | url :: rest =>
      containerResponse <- do_fetch
        (item_request instagramUserId accessToken url) ;;
      if negb (rs_ok containerResponse) then
        _ <- await (rs_text containerResponse) ;;
        throw ("Failed to upload carousel item: "
               ++ string_of_Z (rs_status containerResponse))
      else
        j <- await (rs_json containerResponse) ;;
        containerData <- deref j "id" ;;
        carousel_items instagramUserId accessToken rest
                       (containerIds ++ [d_id containerData])%list
  end.

(** "Handle carousel post (multiple images)" *)
Definition post_carousel (instagramUserId : option string)
           (accessToken caption : string) (urls : list string)
  : M Response :=
  containerIds <- carousel_items instagramUserId accessToken urls [] ;;
  carouselResponse <- do_fetch
    (carousel_request instagramUserId accessToken containerIds caption) ;;
  if negb (rs_ok carouselResponse) then
    _ <- await (rs_text carouselResponse) ;;
    throw ("Failed to create carousel: "
           ++ string_of_Z (rs_status carouselResponse))
  else
    j <- await (rs_json carouselResponse) ;;
    carouselData <- deref j "id" ;;
    publishResponse <- do_fetch
      (publish_request instagramUserId accessToken (d_id carouselData)) ;;
    if negb (rs_ok publishResponse) then
      _ <- await (rs_text publishResponse) ;;
      throw ("Failed to publish carousel: "
             ++ string_of_Z (rs_status publishResponse))
    else
      pj <- await (rs_json publishResponse) ;;
      publishData <- deref pj "id" ;;
      ret (published "Carousel post published successfully"
                     (d_id publishData)).

(** "Handle single image post" *)
Definition post_single (instagramUserId : option string)
           (accessToken imageUrl caption : string) : M Response :=
  containerResponse <- do_fetch
    (container_request instagramUserId accessToken imageUrl caption) ;;
  if negb (rs_ok containerResponse) then
    errorText <- await (rs_text containerResponse) ;;
    throw ("Failed to create media container: "
           ++ string_of_Z (rs_status containerResponse) ++ " - " ++ errorText)
  else
    j <- await (rs_json containerResponse) ;;
    containerData <- deref j "id" ;;
    emit (Sleep 2000) ;;;
    publishResponse <- do_fetch
      (publish_request instagramUserId accessToken (d_id containerData)) ;;
    if negb (rs_ok publishResponse) then
      errorText <- await (rs_text publishResponse) ;;
      throw ("Failed to publish post: "
             ++ string_of_Z (rs_status publishResponse) ++ " - " ++ errorText)
    else
      pj <- await (rs_json publishResponse) ;;
      publishData <- deref pj "id" ;;
      ret (published "Post published successfully to Instagram"
                     (d_id publishData)).

(** "Check if token is expired":
    [connection.token_expires_at
     && new Date(connection.token_expires_at) < new Date()] *)
Definition token_expired (connection : row) : M bool :=
  if truthy (r_token_expires_at connection) then
    expiry <- getTime (show (r_token_expires_at connection)) ;;
    t <- now ;;
    ret (ltb expiry (Num t))
  else ret false.

(** The [try] block of the handler. *)
Definition post (req : PostRequest) : M Response :=
  b <- await (post_json req) ;;
  let carousel := match isCarousel b with Some v => v | None => false end in
  let urls := match carouselUrls b with Some l => l | None => [] end in
  if negb (truthy (userId b)) || negb (truthy (imageUrl b))
     || negb (truthy (caption b))
  then throw "Missing required fields: userId, imageUrl, caption"
  else
    supabaseUrl <- asks (fun env => env_get env "SUPABASE_URL") ;;
    supabaseKey <- asks (fun env => env_get env "SUPABASE_SERVICE_ROLE_KEY") ;;
    mk <- asks (fun env => createClient env supabaseUrl supabaseKey) ;;
    await mk ;;;
    sel <- select_single "user_social_connections"
             [("user_id", DbStr (show (userId b)));
              ("platform", DbStr "instagram")] ;;
    match db_error sel, db_data sel with
    | None, Some connection =>
        expired <- token_expired connection ;;
        if expired then
          throw "Instagram access token has expired. Please reconnect your account."
        else
          let accessToken := r_access_token connection in
          let instagramUserId := r_platform_user_id connection in
          if carousel && (1 <? List.length urls)%nat then
            post_carousel instagramUserId accessToken (show (caption b)) urls
          else
            post_single instagramUserId accessToken (show (imageUrl b))
                        (show (caption b))
    | _, _ => throw "Instagram account not connected"
    end.

(** The answer of the [catch] block. *)
Definition refusal (message : string) : Response :=
  json_response 400 corsHeaders
    (JObj [("success", JBool false); ("error", JStr message)]).

(** The handler given to [serve]. *)
Definition handler (req : PostRequest) : M Response :=
  if (post_method req =? "OPTIONS")%string then
    ret {| status := 200; headers := corsHeaders; resp := BodyNull |}
  else try_catch (post req) (fun message => ret (refusal message)).

(** The requests for the containers of the images of a carousel, as
    events. *)
Definition item_events (instagramUserId : option string)
           (accessToken : string) (urls : list string) : trace :=
  map (fun url => Fetch (item_request instagramUserId accessToken url)) urls.

End InstagramPost.

(* ================================================================== *)
(** * The hook [useYouTubeAuth] *)

Module YouTubeAuth.
Import Js Rt Edge.
Local Open Scope m_scope.

Record YouTubeUserInfo : Type := {
  channelTitle : string;
  channelId : string;
  subscriberCount : option string;
  videoCount : option string
}.

(** The state of the hook that the functions below read and write. *)
Record AuthState : Type := {
  isConnected : bool;
  userInfo : option YouTubeUserInfo
}.

(** [new Date(v)] for a column that may be [null]: the time value of
    [new Date(null)] is 0. *)
Definition date_of (v : option string) : M num :=
  match v with
  | Some s => getTime s
  | None => ret (Num 0)
  end.

Definition connection_filter : filters :=
  [("platform", DbStr "youtube"); ("user_id", DbStr "default_user");
   ("is_active", DbBool true)].

(** [checkExistingConnection], run once when the hook is mounted. *)
Definition checkExistingConnection (st : AuthState) : M AuthState :=
  try_catch
    (sel <- select_single "user_social_connections" connection_filter ;;
     match db_error sel with
     | Some _ => ret st
     | None =>
         match db_data sel with
         | Some connection =>
             tokenExpiry <- date_of (r_token_expires_at connection) ;;
             t <- now ;;
             if ltb (Num t) tokenExpiry then
               ret {| isConnected := true;
                      userInfo := Some
                        {| channelTitle :=
                             or_else (r_platform_display_name connection)
                               (or_else (r_platform_username connection)
                                        "YouTube Channel");
                           channelId :=
                             or_else (r_platform_user_id connection) "";
                           subscriberCount := Some "0";
                           videoCount := Some "0" |} |}
             else
               write (DbDelete "user_social_connections"
                        [("id", DbStr (r_id connection))]) ;;;
               ret st
         | None => ret st
         end
     end)
    (fun _ => ret st).

(** [disconnect] *)
Definition disconnect (st : AuthState) : M AuthState :=
  let st' := {| isConnected := false; userInfo := None |} in
  try_catch
    (try_catch
       (write (DbDelete "user_social_connections"
                 [("platform", DbStr "youtube");
                  ("user_id", DbStr "default_user")]) ;;;
        ret tt)
       (fun _ => ret tt) ;;;
     Hook.toast "YouTube Disconnected"
                "Successfully disconnected from YouTube" false ;;;
     ret st')
    (fun _ =>
       Hook.toast "Disconnect Failed"
                  "Failed to disconnect YouTube account" true ;;;
       ret st').

End YouTubeAuth.

(* ================================================================== *)
(** * What a run may be observed to do *)

Module Observe.
Import Js Rt Edge.

(** A chunk PUT to the session of a resumable upload. *)
Definition is_put_to (uploadUrl : string) (e : event) : bool :=
  match e with
  | Fetch rq =>
      (rq_method rq =? "PUT")%string && (rq_url rq =? uploadUrl)%string
  | _ => false
  end.

(** The request that opens the session of a resumable upload. *)
Definition opens_session (rq : request) : bool :=
  (rq_method rq =? "POST")%string
  && (rq_url rq =? YoutubeUpload.init_url)%string.

(** A request that opens a session declares, in its header
    [X-Upload-Content-Length], a size that is not zero and not above
    128 MiB. *)
Definition session_within_limit (e : event) : Prop :=
  match e with
  | Fetch rq =>
      opens_session rq = true ->
      exists videoSize,
        Resumable.header_of "X-Upload-Content-Length" (rq_headers rq)
        = Some (string_of_Z videoSize)
        /\ videoSize <> 0 /\ videoSize <= 128 * 1024 * 1024
  | _ => True
  end.

(** The title and the tags of the metadata of an upload. *)
Definition title_and_tags (doc : json) : option (string * list json) :=
  match doc with
  | JObj (("snippet",
           JObj (("title", JStr t) :: _ :: ("tags", JArr tg) :: _)) :: _) =>
      Some (t, tg)
  | _ => None
  end.


(** The events that do not reach the platforms or the database. *)
Definition is_local (e : event) : bool := negb (is_network e).

(** Reading, without any write. *)
Definition is_read (e : event) : bool :=
  match e with
  | AuthGetUser | DbSelectSingle _ _ | DbSelectList _ _ _
  | LocalStorageGet _ | ReadClock => true
  | _ => false
  end.

(** The computation only adds events that satisfy [P] to the trace. *)
Definition every_event {A} (P : event -> Prop) (m : M A) : Prop :=
  forall env tr, exists added,
    snd (m env tr) = (tr ++ added)%list /\ Forall P added.

End Observe.

(* ================================================================== *)
(** * More environments and inputs *)

Module Scenarios.
Import Js Rt Edge.

(** A deployment in which no secret is configured. *)
Definition unconfigured : Env :=
  {| fetch := fetch Examples.offline;
     db_select_single := db_select_single Examples.offline;
     db_select_list := db_select_list Examples.offline;
     db_write := db_write Examples.offline;
     auth_getUser := auth_getUser Examples.offline;
     functions_invoke := functions_invoke Examples.offline;
     clock := clock Examples.offline;
     localStorage_getItem := localStorage_getItem Examples.offline;
     localStorage_setItem := localStorage_setItem Examples.offline;
     date_getTime := date_getTime Examples.offline;
     date_toISOString := date_toISOString Examples.offline;
     env_get := fun _ => None;
     node_env := node_env Examples.offline;
     url_toString := url_toString Examples.offline;
     createClient := createClient Examples.offline;
     json_parse := json_parse Examples.offline;
     json_stringify := json_stringify Examples.offline;
     error_stack := error_stack Examples.offline |}.

(** A post of one image. *)
Definition single_post : InstagramPost.PostRequest :=
  {| InstagramPost.post_method := "POST";
     InstagramPost.post_json :=
       Ok {| InstagramPost.userId := Some "u1";
             InstagramPost.imageUrl := Some "https://cdn.example/p.png";
             InstagramPost.caption := Some "New poster";
             InstagramPost.isCarousel := None;
             InstagramPost.carouselUrls := None |} |}.

(** A post without a caption. *)
Definition no_caption : InstagramPost.PostRequest :=
  {| InstagramPost.post_method := "POST";
     InstagramPost.post_json :=
       Ok {| InstagramPost.userId := Some "u1";
             InstagramPost.imageUrl := Some "https://cdn.example/p.png";
             InstagramPost.caption := None;
             InstagramPost.isCarousel := None;
             InstagramPost.carouselUrls := None |} |}.


(** An Instagram credential that expired one second ago. *)
Definition stale_instagram : row :=
  {| r_id := "c20"; r_user_id := "u1"; r_platform := "instagram";
     r_platform_user_id := Some "178414"; r_platform_username := None;
     r_platform_display_name := None;
     r_access_token := "ig-token";
     r_refresh_token := None;
     r_token_expires_at := Some Examples.one_second_ago;
     r_scope := None; r_is_active := Some true; r_metadata := None |}.


(** A YouTube credential without an expiry date. *)
Definition undated_youtube : row :=
  {| r_id := "c22"; r_user_id := "default_user"; r_platform := "youtube";
     r_platform_user_id := Some "UC1"; r_platform_username := None;
     r_platform_display_name := Some "Channel";
     r_access_token := "token";
     r_refresh_token := None;
     r_token_expires_at := None;
     r_scope := None; r_is_active := Some true; r_metadata := None |}.

(** A video of the library that is still being rendered. *)
Definition pending_video : Hook.AssetToUpload :=
  {| Hook.as_id := "a3"; Hook.as_title := "Teaser";
     Hook.as_asset_type := Compat.Video;
     Hook.as_asset_url := "processing";
     Hook.as_description := None; Hook.as_tags := None |}.

(** A user whose connection in the database is the given one and who has
    no other. *)
Definition stored (c : row) : Env :=
  Examples.with_connection c Examples.offline.

(** A token endpoint that accepts the refresh and issues a token that is
    valid for an hour. *)
Definition refresh_accepted : Env :=
  Examples.with_fetch
    (fun _ _ =>
       Ok (Examples.answer 200 None
             (Some {| d_access_token := Some "new-token";
                      d_refresh_token := None;
                      d_expires_in := Some 3600;
                      d_id := None; d_snippet_title := None;
                      d_items := None; d_user_id := None;
                      d_username := None |})))
    Examples.offline.

(** A deployment whose upload function answers with a success. *)
Definition function_deployed : Env :=
  {| fetch := fetch Examples.offline;
     db_select_single := db_select_single Examples.offline;
     db_select_list := db_select_list Examples.offline;
     db_write := db_write Examples.offline;
     auth_getUser := auth_getUser Examples.offline;
     functions_invoke := fun _ _ _ =>
       Ok {| iv_data :=
               Some {| iv_success := Some true;
                       iv_url := Some "https://www.youtube.com/watch?v=v1";
                       iv_error := None |};
             iv_err := None |};
     clock := clock Examples.offline;
     localStorage_getItem := localStorage_getItem Examples.offline;
     localStorage_setItem := localStorage_setItem Examples.offline;
     date_getTime := date_getTime Examples.offline;
     date_toISOString := date_toISOString Examples.offline;
     env_get := env_get Examples.offline;
     node_env := node_env Examples.offline;
     url_toString := url_toString Examples.offline;
     createClient := createClient Examples.offline;
     json_parse := json_parse Examples.offline;
     json_stringify := json_stringify Examples.offline;
     error_stack := error_stack Examples.offline |}.


(** The request by which the platform verifies a webhook subscription. *)
Definition webhook_probe : Request :=
  {| req_method := "GET";
     req_query := fun name =>
       if (name =? "hub.mode")%string then Some "subscribe"
       else if (name =? "hub.verify_token")%string
            then Some "instagram_webhook_token"
       else if (name =? "hub.challenge")%string then Some "1158201444"
       else None;
     req_json := fun _ => Err "Unexpected end of JSON input" |}.

End Scenarios.

(* ================================================================== *)
(** * Theorems *)

Unset Implicit Arguments.

Module CompatFacts.
Import Compat.

(** C7. For every asset type and platform, [isPlatformCompatible] accepts
    the pair exactly when the pair is in the compatibility table: video
    with youtube or facebook, image with instagram or facebook, content
    with twitter, linkedin or facebook; every other pair is rejected. *)
Theorem isPlatformCompatible_iff_table (t : asset_type) (platform : string) :
  isPlatformCompatible t platform = true <-> in_table t platform.
Proof.
  unfold in_table, compatibility_table. split.
  - destruct t; simpl; rewrite ?orb_true_iff, ?String.eqb_eq; intros H.
    + exists ["instagram"; "facebook"]. simpl. intuition (subst; auto).
    + exists ["youtube"; "facebook"]. simpl. intuition (subst; auto).
    + exists ["twitter"; "linkedin"; "facebook"]. simpl.
      intuition (subst; auto).
  - intros (ps & Hin & Hp). simpl in Hin.
    destruct Hin as [E | [E | [E | []]]]; inversion E; subst; clear E;
      simpl in Hp; simpl; rewrite ?orb_true_iff, ?String.eqb_eq;
      intuition (subst; auto).
Qed.

(** The pre-selection filter agrees with the predicate on video and image
    assets and selects nothing for a content asset. *)
Lemma autoSelect_spec (t : asset_type) (platform : string) :
  autoSelect t platform =
  match t with
  | Content => false
  | _ => isPlatformCompatible t platform
  end.
Proof. destruct t; reflexivity. Qed.

End CompatFacts.

(* ------------------------------------------------------------------ *)
(** ** Decimal strings and [parseInt] *)

Module JsFacts.
Import Js.

Lemma digits_acc_pos (d : Decimal.uint) (acc : positive) :
  digits_acc digit_of 10 (Some (Zpos acc)) (NilEmpty.string_of_uint d)
  = Some (Zpos (Pos.of_uint_acc d acc)).
Proof.
  revert acc.
  induction d; intros acc;
    cbn [NilEmpty.string_of_uint Pos.of_uint_acc digits_acc];
    try reflexivity.
  all: match goal with
       | |- context [digit_of ?c] =>
           let v := eval vm_compute in (digit_of c) in
           change (digit_of c) with v
       end; cbv iota beta; rewrite <- IHd; do 2 f_equal; lia.
Qed.

Lemma digits_acc_zero (d : Decimal.uint) :
  digits_acc digit_of 10 (Some 0) (NilEmpty.string_of_uint d)
  = Some (Z.of_N (Pos.of_uint d)).
Proof.
  induction d;
    cbn [NilEmpty.string_of_uint Pos.of_uint digits_acc];
    try reflexivity.
  all: match goal with
       | |- context [digit_of ?c] =>
           let v := eval vm_compute in (digit_of c) in
           change (digit_of c) with v
       end; cbv iota beta.
  all: try (change (0 * 10 + 0) with 0; exact IHd).
  all: match goal with
       | |- context [Some (0 * 10 + ?n)] =>
           change (0 * 10 + n) with (Zpos (Z.to_pos n))
       end; rewrite digits_acc_pos; reflexivity.
Qed.

Lemma digits_acc_uint (d : Decimal.uint) :
  digits_acc digit_of 10 None (NilZero.string_of_uint d)
  = Some (Z.of_N (Pos.of_uint d)).
Proof.
  destruct d; try reflexivity;
    unfold NilZero.string_of_uint;
    cbn [NilEmpty.string_of_uint Pos.of_uint digits_acc];
    match goal with
    | |- context [digit_of ?c] =>
        let v := eval vm_compute in (digit_of c) in
        change (digit_of c) with v
    end; cbv iota beta.
  - apply digits_acc_zero.
  - apply (digits_acc_pos d 1).
  - apply (digits_acc_pos d 2).
  - apply (digits_acc_pos d 3).
  - apply (digits_acc_pos d 4).
  - apply (digits_acc_pos d 5).
  - apply (digits_acc_pos d 6).
  - apply (digits_acc_pos d 7).
  - apply (digits_acc_pos d 8).
  - apply (digits_acc_pos d 9).
Qed.

Lemma parse_unsigned_uint (d : Decimal.uint) :
  parse_unsigned (NilZero.string_of_uint d)
  = digits_acc digit_of 10 None (NilZero.string_of_uint d).
Proof. destruct d as [|l|l|l|l|l|l|l|l|l|l]; try destruct l; reflexivity. Qed.

Lemma parseInt_string_unsigned (d : Decimal.uint) :
  parseInt_string (NilZero.string_of_uint d)
  = match parse_unsigned (NilZero.string_of_uint d) with
    | Some v => Num v
    | None => NaN
    end.
Proof. destruct d; reflexivity. Qed.

Lemma parseInt_string_uint (d : Decimal.uint) :
  parseInt_string (NilZero.string_of_uint d) = Num (Z.of_N (Pos.of_uint d)).
Proof.
  now rewrite parseInt_string_unsigned, parse_unsigned_uint, digits_acc_uint.
Qed.

(** [parseInt] reads back the decimal rendering of a natural number. *)
Lemma parseInt_string_of_Z (k : Z) :
  0 <= k -> parseInt (Some (string_of_Z k)) = Num k.
Proof.
  intros Hk. unfold parseInt, show, string_of_Z.
  destruct k as [|p|p]; try lia; try reflexivity.
  cbn [Z.to_int NilZero.string_of_int].
  rewrite parseInt_string_uint.
  now rewrite DecimalPos.Unsigned.of_to.
Qed.

(** No occurrence of a character in a string. *)
Fixpoint lacks (c : ascii) (s : string) : Prop :=
  match s with
  | String a s' => Ascii.eqb a c = false /\ lacks c s'
  | EmptyString => True
  end.

Lemma lacks_app (c : ascii) (s t : string) :
  lacks c s -> lacks c t -> lacks c (s ++ t).
Proof. induction s; simpl; intuition auto. Qed.

Lemma lacks_dash_uint (d : Decimal.uint) :
  lacks "-" (NilEmpty.string_of_uint d).
Proof. induction d; simpl; auto. Qed.

Lemma lacks_dash_string_of_Z (k : Z) : 0 <= k -> lacks "-" (string_of_Z k).
Proof.
  intros Hk. unfold string_of_Z.
  destruct k as [|p|p]; try lia; [simpl; auto|].
  cbn [Z.to_int NilZero.string_of_int]. unfold NilZero.string_of_uint.
  destruct (Pos.to_uint p) as [|l|l|l|l|l|l|l|l|l|l];
    cbn [NilEmpty.string_of_uint lacks];
    repeat split; auto using lacks_dash_uint.
Qed.

Lemma append_nil_r (s : string) : s ++ "" = s.
Proof. induction s; simpl; congruence. Qed.

Lemma append_assoc (s t u : string) : (s ++ t) ++ u = s ++ (t ++ u).
Proof. induction s; simpl; congruence. Qed.

Lemma split_aux_lacks (c : ascii) (s cur : string) :
  lacks c s -> split_aux c cur s = [cur ++ s].
Proof.
  revert cur. induction s as [|a s IH]; intros cur H; simpl.
  - now rewrite append_nil_r.
  - destruct H as [Ha Hs]. rewrite Ha, IH by assumption.
    now rewrite append_assoc.
Qed.

Lemma split_aux_sep (c : ascii) (s t cur : string) :
  lacks c s ->
  split_aux c cur (s ++ String c t) = (cur ++ s) :: split_aux c EmptyString t.
Proof.
  revert cur. induction s as [|a s IH]; intros cur H; simpl.
  - rewrite Ascii.eqb_refl. now rewrite append_nil_r.
  - destruct H as [Ha Hs]. rewrite Ha, IH by assumption.
    now rewrite append_assoc.
Qed.

(** The offset read from a range header [bytes=a-k]. *)
Lemma range_end (a k : Z) :
  0 <= a -> 0 <= k ->
  parseInt (nth_error
             (split "-" ("bytes=" ++ string_of_Z a ++ "-" ++ string_of_Z k)) 1)
  = Num k.
Proof.
  intros Ha Hk. unfold split.
  replace ("bytes=" ++ string_of_Z a ++ "-" ++ string_of_Z k)
    with (("bytes=" ++ string_of_Z a) ++ String "-" (string_of_Z k))
    by (now rewrite append_assoc).
  rewrite split_aux_sep.
  - rewrite split_aux_lacks by now apply lacks_dash_string_of_Z.
    simpl nth_error. now apply parseInt_string_of_Z.
  - apply lacks_app; [simpl; intuition auto | now apply lacks_dash_string_of_Z].
Qed.

Lemma truthy_range (a k : Z) :
  truthy (Some ("bytes=" ++ string_of_Z a ++ "-" ++ string_of_Z k)) = true.
Proof. reflexivity. Qed.

End JsFacts.

(* ------------------------------------------------------------------ *)
(** ** The chunk loops *)

Module LoopFacts.
Import Js Rt Edge Resumable JsFacts.

(** One iteration of [while (!uploadComplete)]. *)
Lemma upload_loop_continue env tr fuel uploadUrl videoArray start r :
  fetch env tr (chunk_request uploadUrl videoArray start
                  (chunk_end videoArray start)) = Ok r ->
  rs_status r = 308 ->
  YoutubeUpload.chunk_loop (S fuel) uploadUrl videoArray start env tr
  = YoutubeUpload.chunk_loop fuel uploadUrl videoArray
      (next_start r (chunk_end videoArray start)) env
      (tr ++ [Fetch (chunk_request uploadUrl videoArray start
                       (chunk_end videoArray start))])%list.
Proof.
  intros Hr H308. cbn [YoutubeUpload.chunk_loop].
  unfold bind at 1. unfold do_fetch, call. rewrite Hr. cbn [of_result]. rewrite H308.
  reflexivity.
Qed.

Lemma upload_loop_done env tr fuel uploadUrl videoArray start r :
  fetch env tr (chunk_request uploadUrl videoArray start
                  (chunk_end videoArray start)) = Ok r ->
  rs_status r = 200 \/ rs_status r = 201 ->
  YoutubeUpload.chunk_loop (S fuel) uploadUrl videoArray start env tr
  = (of_result (rs_json r),
     (tr ++ [Fetch (chunk_request uploadUrl videoArray start
                      (chunk_end videoArray start))])%list).
Proof.
  intros Hr Hs. cbn [YoutubeUpload.chunk_loop].
  unfold bind at 1. unfold do_fetch, call. rewrite Hr. cbn [of_result].
  destruct Hs as [-> | ->]; reflexivity.
Qed.

(** One iteration of [while (start < videoArray.length)]. *)
Lemma oauth_loop_continue env tr fuel uploadUrl videoArray start r :
  ltb start (Num (ua_length videoArray)) = true ->
  fetch env tr (chunk_request uploadUrl videoArray start
                  (chunk_end videoArray start)) = Ok r ->
  rs_status r = 308 ->
  YoutubeOauth.chunk_loop (S fuel) uploadUrl videoArray start env tr
  = YoutubeOauth.chunk_loop fuel uploadUrl videoArray
      (next_start r (chunk_end videoArray start)) env
      (tr ++ [Fetch (chunk_request uploadUrl videoArray start
                       (chunk_end videoArray start))])%list.
Proof.
  intros Hlt Hr H308. cbn [YoutubeOauth.chunk_loop]. rewrite Hlt.
  unfold bind at 1. unfold do_fetch, call. rewrite Hr. cbn [of_result]. rewrite H308.
  reflexivity.
Qed.

Lemma oauth_loop_done env tr fuel uploadUrl videoArray start r :
  ltb start (Num (ua_length videoArray)) = true ->
  fetch env tr (chunk_request uploadUrl videoArray start
                  (chunk_end videoArray start)) = Ok r ->
  rs_status r = 200 \/ rs_status r = 201 ->
  YoutubeOauth.chunk_loop (S fuel) uploadUrl videoArray start env tr
  = (of_result (rs_json r),
     (tr ++ [Fetch (chunk_request uploadUrl videoArray start
                      (chunk_end videoArray start))])%list).
Proof.
  intros Hlt Hr Hs. cbn [YoutubeOauth.chunk_loop]. rewrite Hlt.
  unfold bind at 1. unfold do_fetch, call. rewrite Hr. cbn [of_result].
  destruct Hs as [-> | ->]; reflexivity.
Qed.


(** What a 308 answer makes of [start]. *)
Lemma next_start_range r e a k :
  0 <= a -> 0 <= k ->
  headers_get r "Range"
  = Some ("bytes=" ++ string_of_Z a ++ "-" ++ string_of_Z k) ->
  next_start r e = Num (k + 1).
Proof.
  intros Ha Hk H. unfold next_start. rewrite H, truthy_range.
  cbn [show]. now rewrite range_end.
Qed.

Lemma next_start_no_range r e :
  truthy (headers_get r "Range") = false -> next_start r e = e.
Proof. intros H. unfold next_start. now rewrite H. Qed.

Lemma next_start_acknowledged r e :
  1 <= e -> acknowledged r e -> next_start r (Num e) = Num e.
Proof.
  intros He [H | (a & Ha & H)].
  - now apply next_start_no_range.
  - rewrite (next_start_range r (Num e) a (e - 1)) by (lia || assumption).
    f_equal. lia.
Qed.

(** *** Arithmetic of the spans *)

Ltac chunk_arith :=
  unfold span in *; cbn [fst snd] in *;
  change chunkSize with 5242880 in *; try lia.

Lemma chunk_count_bounds (S : Z) :
  0 < S ->
  1 <= Z.of_nat (chunk_count S)
  /\ (Z.of_nat (chunk_count S) - 1) * chunkSize < S
     <= Z.of_nat (chunk_count S) * chunkSize.
Proof.
  intros HS. unfold chunk_count. change chunkSize with 5242880.
  rewrite Z2Nat.id by (apply Z.div_pos; lia).
  pose proof (Z.div_mod (S + 5242880 - 1) 5242880 ltac:(lia)) as E.
  pose proof (Z.mod_pos_bound (S + 5242880 - 1) 5242880 ltac:(lia)) as B.
  lia.
Qed.

Lemma chunk_end_span (videoArray : Uint8Array) (i : nat) :
  chunk_end videoArray (Num (fst (span (ua_length videoArray) i)))
  = Num (snd (span (ua_length videoArray) i)).
Proof.
  unfold chunk_end, Js.min, add, span. cbn [fst snd]. f_equal. f_equal. ring.
Qed.

Lemma spans_contiguous (S : Z) (k i : nat) :
  0 < S -> (i + k <= chunk_count S)%nat ->
  contiguous_from (Z.of_nat i * chunkSize) (map (span S) (seq i k)).
Proof.
  intros HS. destruct (chunk_count_bounds S HS) as (_ & Hlo & _).
  revert i. induction k as [|k IH]; intros i Hi; cbn [seq map contiguous_from].
  - exact I.
  - split; [reflexivity|].
    destruct k as [|k]; [exact I|].
    replace (snd (span S i)) with (Z.of_nat (Datatypes.S i) * chunkSize).
    + apply IH. lia.
    + chunk_arith.
Qed.

Lemma spans_sizes (S : Z) :
  0 < S ->
  Forall (fun sp => 0 < snd sp - fst sp <= chunkSize) (spans S).
Proof.
  intros HS. destruct (chunk_count_bounds S HS) as (_ & Hlo & _).
  apply Forall_forall. intros sp Hin. unfold spans in Hin.
  apply in_map_iff in Hin. destruct Hin as (i & <- & Hi).
  apply in_seq in Hi. chunk_arith.
Qed.

Lemma spans_cover_count (S b : Z) (k i : nat) :
  List.length (filter (covers b) (map (span S) (seq i k)))
  = if (Z.of_nat i * chunkSize <=? b)
       && (b <? Z.min (Z.of_nat (i + k) * chunkSize) S)
    then 1%nat else 0%nat.
Proof.
  revert i. induction k as [|k IH]; intros i; cbn [seq map filter].
  - replace (i + 0)%nat with i by lia.
    destruct (Z.leb_spec (Z.of_nat i * chunkSize) b);
      destruct (Z.ltb_spec b (Z.min (Z.of_nat i * chunkSize) S));
      cbn; lia.
  - specialize (IH (Datatypes.S i)).
    replace (Datatypes.S i + k)%nat with (i + Datatypes.S k)%nat in IH by lia.
    unfold covers at 1.
    destruct (Z.leb_spec (fst (span S i)) b);
      destruct (Z.ltb_spec b (snd (span S i)));
      cbn [andb List.length]; rewrite IH;
      destruct (Z.leb_spec (Z.of_nat (Datatypes.S i) * chunkSize) b);
      destruct (Z.ltb_spec b (Z.min (Z.of_nat (i + Datatypes.S k) * chunkSize) S));
      destruct (Z.leb_spec (Z.of_nat i * chunkSize) b);
      cbn [andb]; try reflexivity; exfalso; chunk_arith.
Qed.

Lemma spans_cover_once (S b : Z) :
  0 < S -> 0 <= b < S -> List.length (filter (covers b) (spans S)) = 1%nat.
Proof.
  intros HS Hb. destruct (chunk_count_bounds S HS) as (_ & _ & Hhi).
  unfold spans. rewrite spans_cover_count. cbn [plus].
  destruct (Z.leb_spec (Z.of_nat 0 * chunkSize) b);
    destruct (Z.ltb_spec b (Z.min (Z.of_nat (chunk_count S) * chunkSize) S));
    cbn [andb]; try reflexivity; exfalso; chunk_arith.
Qed.

Lemma spans_last (S : Z) :
  0 < S -> exists s, last (spans S) (0, 0) = (s, S).
Proof.
  intros HS. destruct (chunk_count_bounds S HS) as (Hn & _ & Hhi).
  unfold spans. destruct (chunk_count S) as [|m] eqn:E; [lia|].
  rewrite seq_S, map_app. cbn [plus map]. rewrite last_last.
  exists (Z.of_nat m * chunkSize). unfold span. f_equal. chunk_arith.
Qed.

Lemma content_range_of_put (uploadUrl : string) (videoArray : Uint8Array)
      (sp : Z * Z) :
  content_range_of (put_of uploadUrl videoArray sp)
  = Some (range_header (ua_length videoArray) sp).
Proof. reflexivity. Qed.

(** *** A clean run *)

Section CleanRun.
Variables (env : Env) (uploadUrl : string) (videoArray : Uint8Array).
Local Abbreviation len := (ua_length videoArray).
Hypothesis Hlen : 0 < len.
Hypothesis Hclean : clean_run env uploadUrl videoArray.

Lemma clean_answer_at (i : nat) :
  (i < chunk_count len)%nat ->
  clean_answer env uploadUrl videoArray (span len i).
Proof.
  intros Hi. unfold clean_run in Hclean.
  rewrite Forall_forall in Hclean. apply Hclean.
  unfold spans. apply in_map. apply in_seq. lia.
Qed.

Lemma clean_loops (k i fuel : nat) (tr : trace) :
  (i + S k = chunk_count len)%nat -> (S k <= fuel)%nat ->
  exists res,
    res <> Unfinished
    /\ YoutubeUpload.chunk_loop fuel uploadUrl videoArray
         (Num (Z.of_nat i * chunkSize)) env tr
       = (res, (tr ++ map Fetch (map (put_of uploadUrl videoArray)
                                     (map (span len) (seq i (S k)))))%list)
    /\ YoutubeOauth.chunk_loop fuel uploadUrl videoArray
         (Num (Z.of_nat i * chunkSize)) env tr
       = (res, (tr ++ map Fetch (map (put_of uploadUrl videoArray)
                                     (map (span len) (seq i (S k)))))%list).
Proof.
  destruct (chunk_count_bounds len Hlen) as (Hn & Hlo & Hhi).
  revert i fuel tr. induction k as [|k IH]; intros i fuel tr Hi Hfuel;
    (destruct fuel as [|fuel]; [lia|]);
    destruct (clean_answer_at i ltac:(lia) tr) as (r & Hr & Hmore & Hlast);
    assert (Hguard : ltb (Num (Z.of_nat i * chunkSize)) (Num len) = true)
      by (cbn [ltb]; apply Z.ltb_lt; chunk_arith);
    unfold put_of in Hr; rewrite <- chunk_end_span in Hr;
    change (fst (span len i)) with (Z.of_nat i * chunkSize) in Hr.
  - (* the last chunk *)
    specialize (Hlast ltac:(chunk_arith)). rename Hlast into Hst.
    exists (of_result (rs_json r)).
    split; [destruct (rs_json r); discriminate|].
    rewrite (upload_loop_done _ _ _ _ _ _ _ Hr Hst).
    rewrite (oauth_loop_done _ _ _ _ _ _ _ Hguard Hr Hst).
    cbn [seq map]. unfold put_of. rewrite <- chunk_end_span. auto.
  - (* a chunk that is followed by more *)
    destruct Hmore as (H308 & Hack); [chunk_arith|].
    rewrite (upload_loop_continue _ _ _ _ _ _ _ Hr H308).
    rewrite (oauth_loop_continue _ _ _ _ _ _ _ Hguard Hr H308).
    assert (Hend : chunk_end videoArray (Num (Z.of_nat i * chunkSize))
                   = Num (Z.of_nat (S i) * chunkSize)).
    { change (Z.of_nat i * chunkSize) with (fst (span len i)).
      rewrite chunk_end_span. f_equal. chunk_arith. }
    rewrite Hend in *.
    rewrite next_start_acknowledged.
    2: chunk_arith.
    2: { replace (Z.of_nat (S i) * chunkSize) with (snd (span len i))
           by chunk_arith. exact Hack. }
    destruct (IH (S i) fuel
                (tr ++ [Fetch (chunk_request uploadUrl videoArray
                                 (Num (Z.of_nat i * chunkSize))
                                 (Num (Z.of_nat (S i) * chunkSize)))])%list
                ltac:(lia) ltac:(lia)) as (res & Hres & HU & HO).
    exists res. split; [assumption|].
    rewrite HU, HO. rewrite <- !List.app_assoc.
    replace (seq i (S (S k))) with (i :: seq (S i) (S k)) by reflexivity.
    cbn [map app].
    replace (put_of uploadUrl videoArray (span len i))
      with (chunk_request uploadUrl videoArray
              (Num (Z.of_nat i * chunkSize))
              (Num (Z.of_nat (S i) * chunkSize))).
    + auto.
    + unfold put_of.
      replace (snd (span len i)) with (Z.of_nat (S i) * chunkSize)
        by chunk_arith.
      reflexivity.
Qed.

End CleanRun.

(** C2. On a clean run of a payload of [S > 0] bytes (every chunk PUT that
    does not end the payload is answered with the continue status and no
    request for retransmission, the PUT that ends it with a terminal
    success), both chunk loops send exactly the PUTs of the spans
    [0, C), [C, 2C), ... and stop: the Content-Range headers are
    [bytes start-(end-1)/S], the spans are contiguous from byte 0, none is
    longer than the chunk size of 5 MiB, every byte of [0, S) lies in
    exactly one span, and the last span ends at byte [S - 1]. *)
Theorem clean_run_spans
        (env : Env) (tr : trace) (uploadUrl : string)
        (videoArray : Uint8Array) (fuel : nat) :
  0 < ua_length videoArray ->
  clean_run env uploadUrl videoArray ->
  (chunk_count (ua_length videoArray) <= fuel)%nat ->
  let size := ua_length videoArray in
  let sent := map (put_of uploadUrl videoArray) (spans size) in
  (exists res,
      res <> Unfinished
      /\ YoutubeUpload.chunk_loop fuel uploadUrl videoArray (Num 0) env tr
         = (res, (tr ++ map Fetch sent)%list)
      /\ YoutubeOauth.chunk_loop fuel uploadUrl videoArray (Num 0) env tr
         = (res, (tr ++ map Fetch sent)%list))
  /\ map content_range_of sent
     = map (fun sp => Some ("bytes " ++ string_of_Z (fst sp) ++ "-"
                            ++ string_of_Z (snd sp - 1) ++ "/"
                            ++ string_of_Z size)) (spans size)
  /\ contiguous_from 0 (spans size)
  /\ Forall (fun sp => 0 < snd sp - fst sp <= 5 * 1024 * 1024) (spans size)
  /\ (forall b, 0 <= b < size ->
                List.length (filter (covers b) (spans size)) = 1%nat)
  /\ (exists s, last (spans size) (0, 0) = (s, size)).
Proof.
  intros Hlen Hclean Hfuel size sent. subst size sent.
  destruct (chunk_count_bounds _ Hlen) as (Hn & _ & _).
  repeat split.
  - destruct (chunk_count (ua_length videoArray)) as [|k] eqn:E; [lia|].
    destruct (clean_loops env uploadUrl videoArray Hlen Hclean k 0 fuel tr)
      as (res & Hres & HU & HO); try lia.
    exists res. unfold spans. rewrite E. auto.
  - rewrite map_map. apply map_ext. intros sp. apply content_range_of_put.
  - apply (spans_contiguous _ _ 0%nat Hlen). lia.
  - apply spans_sizes. assumption.
  - intros b Hb. now apply spans_cover_once.
  - now apply spans_last.
Qed.

Lemma clean_run_spans_witness :
  0 < ua_length (Examples.zeros 12582912)
  /\ clean_run Examples.three_chunks Examples.session
               (Examples.zeros 12582912)
  /\ exists res,
       res <> Unfinished
       /\ YoutubeUpload.chunk_loop 3 Examples.session
            (Examples.zeros 12582912) (Num 0) Examples.three_chunks []
          = (res, map Fetch (map (put_of Examples.session
                                         (Examples.zeros 12582912))
                                 [(0, 5242880); (5242880, 10485760);
                                  (10485760, 12582912)]))
       /\ YoutubeOauth.chunk_loop 3 Examples.session
            (Examples.zeros 12582912) (Num 0) Examples.three_chunks []
          = (res, map Fetch (map (put_of Examples.session
                                         (Examples.zeros 12582912))
                                 [(0, 5242880); (5242880, 10485760);
                                  (10485760, 12582912)])).
Proof.
  assert (H0 : 0 < ua_length (Examples.zeros 12582912)) by (cbn; lia).
  assert (Hc : clean_run Examples.three_chunks Examples.session
                         (Examples.zeros 12582912)).
  { unfold clean_run.
    change (spans (ua_length (Examples.zeros 12582912)))
      with [(0, 5242880); (5242880, 10485760); (10485760, 12582912)].
    repeat constructor; intros tr.
    - exists (Examples.answer 308 None None).
      split; [vm_compute; reflexivity|].
      split; intros H; [split; [reflexivity | left; reflexivity]|].
      cbn in H. lia.
    - exists (Examples.answer 308 (Some "bytes=0-10485759") None).
      split; [vm_compute; reflexivity|].
      split; intros H.
      + split; [reflexivity|]. right. exists 0. split; [lia|].
        vm_compute. reflexivity.
      + cbn in H. lia.
    - exists (Examples.answer 200 None (Some (Examples.video_document "v1"))).
      split; [vm_compute; reflexivity|].
      split; intros H; [cbn in H; lia|].
      left; reflexivity. }
  split; [exact H0|]. split; [exact Hc|].
  exact (proj1 (clean_run_spans Examples.three_chunks [] Examples.session
                  (Examples.zeros 12582912) 3 H0 Hc (le_n 3))).
Defined.

(** *** Trace of a loop *)







(** *** Platforms that never end the upload *)

Lemma fetches_app (tr1 tr2 : trace) :
  fetches (tr1 ++ tr2)%list = (fetches tr1 ++ fetches tr2)%list.
Proof.
  induction tr1 as [|e tr1 IH]; [reflexivity|].
  destruct e; cbn [fetches app]; rewrite IH; reflexivity.
Qed.

(** Against a platform that answers every PUT with the continue status,
    whatever its headers, the loop of [youtube-upload] never ends. *)
Lemma upload_loop_unbounded (env : Env) (uploadUrl : string)
      (videoArray : Uint8Array) :
  (forall tr rq, exists r, fetch env tr rq = Ok r /\ rs_status r = 308) ->
  forall fuel start tr,
    fst (YoutubeUpload.chunk_loop fuel uploadUrl videoArray start env tr)
    = Unfinished
    /\ List.length
         (fetches (snd (YoutubeUpload.chunk_loop fuel uploadUrl videoArray
                          start env tr)))
       = (List.length (fetches tr) + fuel)%nat.
Proof.
  intros Henv fuel. induction fuel as [|fuel IH]; intros start tr.
  - cbn. split; [reflexivity | lia].
  - destruct (Henv tr (chunk_request uploadUrl videoArray start
                         (chunk_end videoArray start)))
      as (r & Hr & H308).
    rewrite (upload_loop_continue env tr fuel uploadUrl videoArray start r
               Hr H308).
    destruct (IH (next_start r (chunk_end videoArray start))
                 (tr ++ [Fetch (chunk_request uploadUrl videoArray start
                                  (chunk_end videoArray start))])%list)
      as (H1 & H2).
    split; [exact H1|]. rewrite H2, fetches_app, length_app. cbn. lia.
Qed.

Lemma oauth_loop_always_first_byte (fuel : nat) :
  forall start tr,
    ltb start (Num 2) = true ->
    fst (YoutubeOauth.chunk_loop fuel Examples.session (Examples.zeros 2)
           start Examples.always_first_byte tr) = Unfinished
    /\ List.length
         (fetches (snd (YoutubeOauth.chunk_loop fuel Examples.session
                          (Examples.zeros 2) start
                          Examples.always_first_byte tr)))
       = (List.length (fetches tr) + fuel)%nat.
Proof.
  induction fuel as [|fuel IH]; intros start tr Hlt.
  - cbn [YoutubeOauth.chunk_loop]. cbn [Examples.zeros ua_length].
    rewrite Hlt. cbn. split; [reflexivity | lia].
  - rewrite (oauth_loop_continue Examples.always_first_byte tr fuel
               Examples.session (Examples.zeros 2) start
               (Examples.answer 308 (Some "bytes=0-0") None)
               Hlt eq_refl eq_refl).
    change (next_start (Examples.answer 308 (Some "bytes=0-0") None)
                       (chunk_end (Examples.zeros 2) start))
      with (Num 1).
    destruct (IH (Num 1)
                 (tr ++ [Fetch (chunk_request Examples.session
                                  (Examples.zeros 2) start
                                  (chunk_end (Examples.zeros 2) start))])%list
                 eq_refl)
      as (H1 & H2).
    split; [exact H1|]. rewrite H2, fetches_app, length_app. cbn. lia.
Qed.

(** C4 (the code has no bound).  A platform that answers every chunk PUT
    with the continue status 308 keeps the loop of [youtube-upload] running
    for ever, here on a payload of one byte: whatever number of iterations
    is allowed, the loop has not ended and has sent that many PUTs.  The
    loop of [youtube-oauth] leaves the loop when [start] reaches the
    length, but runs for ever as well when every answer acknowledges the
    first byte only, here on a payload of two bytes. *)
Theorem chunk_loops_never_end :
  (forall fuel : nat,
      fst (YoutubeUpload.chunk_loop fuel Examples.session (Examples.zeros 1)
             (Num 0) Examples.always_continue []) = Unfinished
      /\ List.length
           (fetches (snd (YoutubeUpload.chunk_loop fuel Examples.session
                            (Examples.zeros 1) (Num 0)
                            Examples.always_continue [])))
         = fuel)
  /\ (forall fuel : nat,
         fst (YoutubeOauth.chunk_loop fuel Examples.session
                (Examples.zeros 2) (Num 0) Examples.always_first_byte [])
         = Unfinished
         /\ List.length
              (fetches (snd (YoutubeOauth.chunk_loop fuel Examples.session
                               (Examples.zeros 2) (Num 0)
                               Examples.always_first_byte [])))
            = fuel).
Proof.
  split; intros fuel.
  - apply (upload_loop_unbounded Examples.always_continue Examples.session
             (Examples.zeros 1));
      intros tr rq; eexists; split; reflexivity.
  - apply (oauth_loop_always_first_byte fuel (Num 0) [] eq_refl).
Qed.

(** Without a range header the loop of [youtube-oauth] does stop against
    the same platform: [start] reaches the length after the last chunk. *)
Lemma oauth_loop_stops_without_range :
  YoutubeOauth.chunk_loop 5 Examples.session (Examples.zeros 1) (Num 0)
    Examples.always_continue []
  = (Returned None, [Fetch (put_at Examples.session (Examples.zeros 1) 0)]).
Proof. reflexivity. Qed.

End LoopFacts.

(* ------------------------------------------------------------------ *)
(** ** The token checks of the edge functions *)

Module TokenFacts.
Import Js Rt Edge.

Lemma time_clip_idem (t : num) (z : Z) :
  time_clip t = Num z -> time_clip (Num z) = Num z.
Proof.
  destruct t as [x|]; cbn [time_clip]; [|discriminate].
  destruct (Z.abs x <=? 8640000000000000) eqn:E; [|discriminate].
  intros H. injection H as <-. now rewrite E.
Qed.

Lemma toISOString_valid (t : num) (z : Z) (env : Env) (tr : trace) :
  time_clip t = Num z ->
  toISOString t env tr = (Returned (date_toISOString env z), tr).
Proof. intros H. unfold toISOString. now rewrite H. Qed.

(** The time left is above the window of five minutes. *)
Lemma outside_window (expiry t : Z) :
  expiry - t > 300000 -> leb (sub (Num expiry) (Num t)) (Num 300000) = false.
Proof. intros H. cbn [sub leb]. apply Z.leb_gt. lia. Qed.

Lemma inside_window (expiry t : Z) :
  expiry - t <= 300000 -> leb (sub (Num expiry) (Num t)) (Num 300000) = true.
Proof. intros H. cbn [sub leb]. apply Z.leb_le. lia. Qed.

(** C6. For a credential whose [token_expires_at] is null (or empty) or
    lies more than five minutes ahead of the clock, the token check of
    [youtube-upload] and the one of [youtube-oauth] return the credential's
    access token unchanged; the only thing they may do is read the clock:
    no token-refresh request, no other network call and no write to the
    credential store. *)
Theorem token_check_valid
        (env : Env) (tr : trace) (googleClientId googleClientSecret : string)
        (connection : row) :
  (truthy (r_token_expires_at connection) = false
   \/ exists expiry,
        time_clip (date_getTime env (show (r_token_expires_at connection)))
        = Num expiry
        /\ expiry - clock env tr > 300000) ->
  let events :=
    if truthy (r_token_expires_at connection) then [ReadClock] else [] in
  YoutubeUpload.token_check connection env tr
  = (Returned (Some (r_access_token connection)), (tr ++ events)%list)
  /\ YoutubeOauth.token_check googleClientId googleClientSecret connection
       env tr
     = (Returned (Some (r_access_token connection)), (tr ++ events)%list)
  /\ Forall (fun e => is_fetch e = false /\ is_network e = false
                      /\ is_store_write e = false) events.
Proof.
  intros H events. subst events.
  unfold YoutubeUpload.token_check, YoutubeOauth.token_check.
  destruct (truthy (r_token_expires_at connection)) eqn:Et.
  - destruct H as [H | (expiry & Hexp & Hfar)]; [discriminate|].
    unfold bind, getTime, asks, now, call. cbn [of_result]. rewrite Hexp.
    rewrite (toISOString_valid _ expiry) by (now apply time_clip_idem with
      (t := date_getTime env (show (r_token_expires_at connection)))).
    rewrite outside_window by assumption.
    repeat split. repeat constructor.
  - unfold ret. rewrite List.app_nil_r. repeat split. constructor.
Qed.

Lemma token_check_valid_witness :
  YoutubeUpload.token_check Examples.fresh_connection Examples.offline []
  = (Returned (Some "fresh-token"), [ReadClock])
  /\ YoutubeOauth.token_check "id" "secret" Examples.fresh_connection
       Examples.offline []
     = (Returned (Some "fresh-token"), [ReadClock]).
Proof.
  pose proof (token_check_valid Examples.offline [] "id" "secret"
                Examples.fresh_connection
                (or_intror (ex_intro _ 1700000400000
                              (conj eq_refl eq_refl))))
    as (HU & HO & _).
  split; [exact HU | exact HO].
Defined.

(** The token check of [youtube-oauth] on a credential inside the window:
    it fails when there is no refresh token or when the refresh is
    answered with a status outside 2xx. *)
Lemma oauth_token_check_expired
      (env : Env) (tr : trace) (googleClientId googleClientSecret : string)
      (connection : row) (expiry : Z) :
  truthy (r_token_expires_at connection) = true ->
  time_clip (date_getTime env (show (r_token_expires_at connection)))
  = Num expiry ->
  expiry - clock env tr <= 300000 ->
  (truthy (r_refresh_token connection) = false ->
   YoutubeOauth.token_check googleClientId googleClientSecret connection
     env tr
   = (Threw "No refresh token available - please reconnect your YouTube account",
      (tr ++ [ReadClock])%list))
  /\ (truthy (r_refresh_token connection) = true ->
      forall r,
        fetch env (tr ++ [ReadClock])%list
          {| rq_method := "POST"; rq_url := YoutubeOauth.token_url;
             rq_headers := YoutubeOauth.form_headers;
             rq_body := FormBody
               [("client_id", googleClientId);
                ("client_secret", googleClientSecret);
                ("grant_type", "refresh_token");
                ("refresh_token", show (r_refresh_token connection))] |}
        = Ok r ->
        rs_ok r = false ->
        exists msg tr',
          YoutubeOauth.token_check googleClientId googleClientSecret
            connection env tr
          = (Threw ("Failed to refresh access token: " ++ msg), tr')).
Proof.
  intros Et Hexp Hnear.
  assert (Hiso : forall tr0,
             toISOString (Num expiry) env tr0
             = (Returned (date_toISOString env expiry), tr0)).
  { intros tr0. apply toISOString_valid.
    now apply time_clip_idem
      with (t := date_getTime env (show (r_token_expires_at connection))). }
  split; intros Hr; [|intros r Hf Hok];
    unfold YoutubeOauth.token_check; rewrite Et, Hr;
    unfold bind at 1; unfold getTime at 1, asks at 1; rewrite Hexp;
    unfold bind at 1; unfold now at 1, call at 1; cbn [of_result];
    unfold bind at 1; rewrite Hiso;
    rewrite inside_window by assumption.
  - reflexivity.
  - unfold try_catch. unfold bind at 1. unfold do_fetch, call.
    rewrite Hf. cbn [of_result]. rewrite Hok. unfold bind, await.
    destruct (rs_text r) as [errorText | msg]; cbn [of_result];
      unfold throw; eauto.
Qed.

(** C5 (the code of [youtube-upload] goes on with the stale token).  A
    credential that expired one second ago: with no refresh token, and
    also with a refresh that the token endpoint rejects with status 400,
    the token check of [youtube-upload] returns the stale access token
    without any error, and the handler then opens the upload session with
    it and answers success.  The token check of [youtube-oauth] fails on
    the same credentials. *)
Theorem stale_token_is_used :
  YoutubeUpload.token_check Examples.stale_connection Examples.offline []
  = (Returned (Some "stale-token"), [ReadClock])
  /\ fst (YoutubeUpload.token_check Examples.refreshable_connection
            Examples.refresh_rejected [])
     = Returned (Some "stale-token")
  /\ (exists response tr,
         YoutubeUpload.handler Examples.upload_request 1
           Examples.upload_works [] = (Returned response, tr)
         /\ status response = 200
         /\ success_of response = Some true
         /\ map (fun rq => (rq_method rq,
                            Resumable.header_of "Authorization"
                                                (rq_headers rq)))
                (fetches tr)
            = [("GET", None); ("POST", Some "Bearer stale-token");
               ("PUT", None)])
  /\ YoutubeOauth.token_check "id" "secret" Examples.stale_connection
       Examples.offline []
     = (Threw "No refresh token available - please reconnect your YouTube account",
        [ReadClock])
  /\ fst (YoutubeOauth.token_check "id" "secret"
            Examples.refreshable_connection Examples.refresh_rejected [])
     = Threw "Failed to refresh access token: Failed to refresh access token: 400 - ".
Proof.
  split; [reflexivity|]. split; [reflexivity|].
  split; [|split; reflexivity].
  eexists. eexists. split; [vm_compute; reflexivity|].
  repeat split.
Qed.

End TokenFacts.

(* ------------------------------------------------------------------ *)
(** ** Computations: values returned, termination, caught errors *)

Module RtFacts.
Import Rt.

Create HintDb ensures discriminated.
Create HintDb finishes discriminated.

Section Ensures.
Context {A : Type} (P : A -> Prop).

Lemma ensures_ret (a : A) : P a -> ensures P (ret a).
Proof. intros H env tr a' tr' E. injection E as <- _. exact H. Qed.

Lemma ensures_throw (msg : string) : ensures P (throw msg).
Proof. intros env tr a tr' E. discriminate. Qed.

Lemma ensures_unfinished : ensures P unfinished.
Proof. intros env tr a tr' E. discriminate. Qed.

Lemma ensures_bind {B : Type} (m : M B) (k : B -> M A) :
  (forall b, ensures P (k b)) -> ensures P (bind m k).
Proof.
  intros H env tr a tr' E. unfold bind in E.
  destruct (m env tr) as [[b | msg |] tr0]; try discriminate.
  exact (H b env tr0 a tr' E).
Qed.

Lemma ensures_try_catch (m : M A) (h : string -> M A) :
  ensures P m -> (forall msg, ensures P (h msg)) -> ensures P (try_catch m h).
Proof.
  intros Hm Hh env tr a tr' E. unfold try_catch in E.
  destruct (m env tr) as [[b | msg |] tr0] eqn:Em; try discriminate.
  - injection E as <- <-. exact (Hm env tr b tr0 Em).
  - exact (Hh msg env tr0 a tr' E).
Qed.

End Ensures.

Section Finishes.
Context {A : Type}.

Lemma finishes_ret (a : A) : finishes (ret a).
Proof. intros env tr. discriminate. Qed.

Lemma finishes_throw (msg : string) : finishes (@throw A msg).
Proof. intros env tr. discriminate. Qed.

Lemma finishes_await (o : result A) : finishes (await o).
Proof. intros env tr. destruct o; discriminate. Qed.

Lemma finishes_asks (f : Env -> A) : finishes (asks f).
Proof. intros env tr. discriminate. Qed.

Lemma finishes_call (e : event) (answer : Env -> trace -> result A) :
  finishes (call e answer).
Proof. intros env tr. cbn. destruct (answer env tr); discriminate. Qed.

Lemma finishes_bind {B : Type} (m : M B) (k : B -> M A) :
  finishes m -> (forall b, finishes (k b)) -> finishes (bind m k).
Proof.
  intros Hm Hk env tr. unfold bind. specialize (Hm env tr).
  destruct (m env tr) as [[b | msg |] tr0]; cbn in *;
    [apply Hk | discriminate | congruence].
Qed.

Lemma finishes_bind_await {B : Type} (o : result B) (k : B -> M A) :
  (forall b, o = Ok b -> finishes (k b)) -> finishes (bind (await o) k).
Proof.
  intros Hk env tr. unfold bind, await.
  destruct o as [b | msg]; cbn; [now apply Hk | discriminate].
Qed.

Lemma finishes_try_catch (m : M A) (h : string -> M A) :
  finishes m -> (forall msg, finishes (h msg)) -> finishes (try_catch m h).
Proof.
  intros Hm Hh env tr. unfold try_catch. specialize (Hm env tr).
  destruct (m env tr) as [[b | msg |] tr0]; cbn in *;
    [discriminate | apply Hh | congruence].
Qed.

End Finishes.

#[export] Hint Resolve finishes_ret finishes_throw finishes_await
  finishes_asks finishes_call : finishes.

(** A handler that catches the errors of its body and answers them lets no
    error escape. *)
Lemma catches_all_try_catch {A : Type} (m : M A) (h : string -> M A) :
  (forall msg, catches_all (h msg)) -> catches_all (try_catch m h).
Proof.
  intros Hh env tr msg. unfold try_catch.
  destruct (m env tr) as [[b | msg' |] tr0]; cbn;
    [discriminate | apply Hh | discriminate].
Qed.

Section OnlyEvents.
Context {A : Type} (ok : event -> bool).

Lemma only_events_ret (a : A) : only_events ok (ret a).
Proof. intros env tr. exists []. cbn. now rewrite List.app_nil_r. Qed.

Lemma only_events_throw (msg : string) : only_events ok (@throw A msg).
Proof. intros env tr. exists []. cbn. now rewrite List.app_nil_r. Qed.

Lemma only_events_await (o : result A) : only_events ok (await o).
Proof. intros env tr. exists []. cbn. now rewrite List.app_nil_r. Qed.

Lemma only_events_asks (f : Env -> A) : only_events ok (asks f).
Proof. intros env tr. exists []. cbn. now rewrite List.app_nil_r. Qed.

Lemma only_events_call (e : event) (answer : Env -> trace -> result A) :
  ok e = true -> only_events ok (call e answer).
Proof. intros H env tr. exists [e]. cbn. now rewrite H. Qed.

Lemma only_events_bind {B : Type} (m : M B) (k : B -> M A) :
  only_events ok m -> (forall b, only_events ok (k b)) ->
  only_events ok (bind m k).
Proof.
  intros Hm Hk env tr. unfold bind.
  destruct (Hm env tr) as (added & E & Hok).
  destruct (m env tr) as [[b | msg |] tr0]; cbn [snd] in *; subst tr0;
    try (now exists added).
  destruct (Hk b env (tr ++ added)%list) as (added' & E' & Hok').
  exists (added ++ added')%list. rewrite E', <- List.app_assoc.
  split; [reflexivity|]. rewrite forallb_app. now rewrite Hok, Hok'.
Qed.

Lemma only_events_try_catch (m : M A) (h : string -> M A) :
  only_events ok m -> (forall msg, only_events ok (h msg)) ->
  only_events ok (try_catch m h).
Proof.
  intros Hm Hh env tr. unfold try_catch.
  destruct (Hm env tr) as (added & E & Hok).
  destruct (m env tr) as [[b | msg |] tr0]; cbn [snd] in *; subst tr0;
    try (now exists added).
  destruct (Hh msg env (tr ++ added)%list) as (added' & E' & Hok').
  exists (added ++ added')%list. rewrite E', <- List.app_assoc.
  split; [reflexivity|]. rewrite forallb_app. now rewrite Hok, Hok'.
Qed.

End OnlyEvents.

Section CatchesAll.
Context {A : Type}.

Lemma catches_all_ret (a : A) : catches_all (ret a).
Proof. intros env tr msg. discriminate. Qed.

End CatchesAll.

Section Returns.
Context {A : Type} (P : A -> Prop).

Lemma returns_intro (m : M A) :
  finishes m -> catches_all m -> ensures P m -> returns P m.
Proof.
  intros Hf Hc He env tr. specialize (Hf env tr). specialize (Hc env tr).
  destruct (m env tr) as [[a | msg |] tr0] eqn:E; cbn in *.
  - exists a, tr0. split; [reflexivity | exact (He env tr a tr0 E)].
  - now destruct (Hc msg).
  - congruence.
Qed.

End Returns.

(** One step of a proof that a computation adds only events of a kind. *)
Ltac only_events_step :=
  lazymatch goal with
  | |- only_events _ (ret _) => apply only_events_ret
  | |- only_events _ (throw _) => apply only_events_throw
  | |- only_events _ (await _) => apply only_events_await
  | |- only_events _ (asks _) => apply only_events_asks
  | |- only_events _ (call _ _) => apply only_events_call; reflexivity
  | |- only_events _ (bind _ _) => apply only_events_bind; [|intros]
  | |- only_events _ (try_catch _ _) =>
      apply only_events_try_catch; [|intros]
  | |- only_events _ (if ?c then _ else _) => destruct c
  | |- only_events _ (match ?x with _ => _ end) => destruct x
  end.

(** One step of a proof that all returned values satisfy a property. *)
Ltac ensures_step :=
  lazymatch goal with
  | |- ensures _ (ret _) => apply ensures_ret; try reflexivity
  | |- ensures _ (throw _) => apply ensures_throw
  | |- ensures _ unfinished => apply ensures_unfinished
  | |- ensures _ (bind _ _) => apply ensures_bind; intros
  | |- ensures _ (try_catch _ _) => apply ensures_try_catch; [|intros]
  | |- ensures _ (if ?c then _ else _) => destruct c
  | |- ensures _ (match ?x with _ => _ end) => destruct x
  end.

(** One step of a proof that a computation ends. *)
Ltac finishes_step :=
  lazymatch goal with
  | |- finishes (bind (await _) _) => apply finishes_bind_await; intros
  | |- finishes (bind _ _) => apply finishes_bind; [|intros]
  | |- finishes (try_catch _ _) => apply finishes_try_catch; [|intros]
  | |- finishes (if ?c then _ else _) => destruct c eqn:?
  | |- finishes (match ?x with _ => _ end) => destruct x eqn:?
  | |- finishes _ => solve [auto with finishes]
  end.

End RtFacts.

(* ------------------------------------------------------------------ *)
(** ** The handlers of the edge functions *)

Module HandlerFacts.
Import Js Rt Edge RtFacts.

Lemma finishes_toISOString (t : num) : finishes (toISOString t).
Proof.
  unfold toISOString. destruct (time_clip t); auto with finishes.
Qed.

Lemma finishes_now : finishes now.
Proof. apply finishes_call. Qed.

Lemma finishes_do_fetch (rq : request) : finishes (do_fetch rq).
Proof. apply finishes_call. Qed.

Lemma finishes_select_single (t : string) (f : filters) :
  finishes (select_single t f).
Proof. apply finishes_call. Qed.

Lemma finishes_write (e : event) : finishes (write e).
Proof. apply finishes_call. Qed.

Lemma finishes_deref {A : Type} (d : option A) (what : string) :
  finishes (deref d what).
Proof. destruct d; cbn; auto with finishes. Qed.

Lemma finishes_defined (s : option string) (what : string) :
  finishes (defined s what).
Proof. destruct s; cbn; auto with finishes. Qed.

#[export] Hint Resolve finishes_toISOString finishes_now finishes_do_fetch
  finishes_select_single finishes_write finishes_deref finishes_defined
  : finishes.

Lemma finishes_expiry_of (expires_in : option Z) :
  finishes (YoutubeOauth.expiry_of expires_in).
Proof. unfold YoutubeOauth.expiry_of. repeat finishes_step. Qed.

#[export] Hint Resolve finishes_expiry_of : finishes.







End HandlerFacts.

(* ------------------------------------------------------------------ *)
(** ** The hook: upload functions and fan-out *)

Module HookFacts.
Import Js Rt Edge Hook RtFacts HandlerFacts.

Lemma finishes_getTime (s : string) : finishes (getTime s).
Proof. apply finishes_asks. Qed.

Lemma finishes_emit (e : event) : finishes (emit e).
Proof. apply finishes_call. Qed.

Lemma finishes_getItem (key : string) : finishes (getItem key).
Proof. apply finishes_call. Qed.

Lemma finishes_setItem (key value : string) : finishes (setItem key value).
Proof. apply finishes_call. Qed.

Lemma finishes_invoke (name : string) (doc : json) :
  finishes (invoke name doc).
Proof. apply finishes_call. Qed.

#[export] Hint Resolve finishes_getTime finishes_emit finishes_getItem
  finishes_setItem finishes_invoke : finishes.

Lemma finishes_currentUser : finishes currentUser.
Proof. unfold currentUser. repeat finishes_step. Qed.

Lemma finishes_parse (text : string) : finishes (parse text).
Proof. unfold parse. repeat finishes_step. Qed.

Lemma finishes_sleep (ms : Z) : finishes (sleep ms).
Proof. apply finishes_call. Qed.

#[export] Hint Resolve finishes_currentUser finishes_parse finishes_sleep
  : finishes.

Lemma finishes_tryRefresh (connection : SocialConnection) :
  finishes (tryRefresh connection).
Proof. unfold tryRefresh. repeat finishes_step. Qed.

#[export] Hint Resolve finishes_tryRefresh : finishes.

Lemma finishes_tokenExpired (connection : SocialConnection) :
  finishes (tokenExpired connection).
Proof. unfold tokenExpired. repeat finishes_step. Qed.

#[export] Hint Resolve finishes_tokenExpired : finishes.

Lemma finishes_localPlatforms : finishes localPlatforms.
Proof. unfold localPlatforms. repeat finishes_step. Qed.

(** [getConnectedPlatforms] always returns a list. *)
Lemma getConnectedPlatforms_returns :
  returns (fun _ => True) getConnectedPlatforms.
Proof.
  pose proof finishes_localPlatforms as Hlocal.
  apply returns_intro.
  - unfold getConnectedPlatforms. repeat finishes_step.
  - unfold getConnectedPlatforms. apply catches_all_try_catch.
    intros msg. apply catches_all_ret.
  - intros env tr a tr' E. exact I.
Qed.

(** *** The upload functions always return a result for their platform *)

Lemma uploadToYouTube_returns (asset : AssetToUpload)
      (connection : SocialConnection) :
  returns (fun r => ur_platform r = "youtube")
          (uploadToYouTube asset connection).
Proof.
  apply returns_intro.
  - unfold uploadToYouTube. repeat finishes_step.
  - unfold uploadToYouTube. apply catches_all_try_catch.
    intros msg. apply catches_all_ret.
  - unfold uploadToYouTube. repeat ensures_step.
Qed.

Lemma uploadToInstagram_returns (asset : AssetToUpload)
      (connection : SocialConnection) :
  returns (fun r => ur_platform r = "instagram")
          (uploadToInstagram asset connection).
Proof.
  intros env tr. unfold uploadToInstagram.
  destruct (isTestConnection_instagram connection);
    eexists; eexists; split; reflexivity.
Qed.

Lemma uploadToFacebook_returns (asset : AssetToUpload)
      (connection : SocialConnection) :
  returns (fun r => ur_platform r = "facebook")
          (uploadToFacebook asset connection).
Proof.
  intros env tr. unfold uploadToFacebook.
  destruct (isTestConnection_facebook connection);
    eexists; eexists; split; reflexivity.
Qed.

Lemma dispatch_returns (asset : AssetToUpload)
      (connection : SocialConnection) :
  returns (fun r => ur_platform r = conn_platform connection)
          (dispatch asset connection).
Proof.
  intros env tr. unfold dispatch, upload_to.
  destruct (conn_platform connection =? "youtube")%string eqn:Ey;
    [apply String.eqb_eq in Ey; rewrite Ey;
     apply uploadToYouTube_returns|].
  destruct (conn_platform connection =? "instagram")%string eqn:Ei;
    [apply String.eqb_eq in Ei; rewrite Ei;
     apply uploadToInstagram_returns|].
  destruct (conn_platform connection =? "facebook")%string eqn:Ef;
    [apply String.eqb_eq in Ef; rewrite Ef;
     apply uploadToFacebook_returns|].
  eexists; eexists; split; reflexivity.
Qed.

Lemma upload_job_returns (asset : AssetToUpload)
      (connection : SocialConnection) :
  returns (fun r => ur_platform r = conn_platform connection)
          (upload_job uploadToYouTube uploadToInstagram uploadToFacebook
                      asset connection).
Proof.
  intros env tr. unfold upload_job, bind, emit, call, try_finally.
  cbn [of_result].
  destruct (dispatch_returns asset connection env
              (tr ++ [SetUploadingPlatforms
                        (PlatformsAdd (conn_platform connection))])%list)
    as (r & tr' & E & Hr).
  unfold dispatch in E. rewrite E. cbn [snd]. eauto.
Qed.

Lemma promise_all_returns (asset : AssetToUpload)
      (connections : list SocialConnection) :
  returns (fun rs => map ur_platform rs = map conn_platform connections)
          (promise_all
             (map (upload_job uploadToYouTube uploadToInstagram
                              uploadToFacebook asset) connections)).
Proof.
  induction connections as [|c l IH]; intros env tr; cbn [map promise_all].
  - now exists [], tr.
  - destruct (upload_job_returns asset c env tr) as (r & tr1 & E & Hr).
    rewrite E.
    destruct (IH env tr1) as (rs & tr2 & E' & Hrs). rewrite E'.
    exists (r :: rs), tr2. split; [reflexivity|].
    cbn [map]. now rewrite Hr, Hrs.
Qed.



(** When an upload function does throw, [Promise.all] is rejected and the
    results of all platforms are lost: here the function for Instagram is
    replaced by one that throws. *)
Lemma rejected_job_empties_the_result :
  fst (uploadToSocialMedia uploadToYouTube (fun _ _ => throw "boom")
         uploadToFacebook Examples.video_asset ["youtube"; "instagram"]
         Examples.youtube_and_instagram [])
  = Returned []
  /\ exists r1 r2,
       fst (publish Examples.video_asset ["youtube"; "instagram"]
                    Examples.youtube_and_instagram [])
       = Returned [r1; r2].
Proof.
  split; [vm_compute; reflexivity|].
  eexists. eexists. vm_compute. reflexivity.
Qed.

(** *** An asset that does not fit the platform *)

Ltac hook_events :=
  repeat (only_events_step
          || unfold do_fetch, now, write, setItem, currentUser, toISOString,
               deref).

Lemma tryRefresh_events (connection : SocialConnection) :
  only_events (fun e => negb (is_invoke e)) (tryRefresh connection).
Proof. unfold tryRefresh. hook_events. Qed.

Lemma tryRefresh_returns (connection : SocialConnection)
      (env : Env) (tr : trace) :
  exists v added,
    tryRefresh connection env tr = (Returned v, (tr ++ added)%list)
    /\ forallb (fun e => negb (is_invoke e)) added = true.
Proof.
  destruct (tryRefresh_events connection env tr) as (added & E & Hok).
  assert (R : returns (fun _ => True) (tryRefresh connection)).
  { apply returns_intro.
    - apply finishes_tryRefresh.
    - unfold tryRefresh. apply catches_all_try_catch.
      intros msg. apply catches_all_ret.
    - intros ? ? ? ? ?. exact I. }
  destruct (R env tr) as (v & tr' & E' & _).
  rewrite E' in E. cbn [snd] in E. subst tr'. now exists v, added.
Qed.

(** The token validity check of [uploadToYouTube] returns, never asks for
    an upload, and makes no network call unless the token is within five
    minutes of its expiry and a refresh token is at hand. *)
Lemma tokenExpired_returns (connection : SocialConnection)
      (env : Env) (tr : trace) :
  exists b added,
    tokenExpired connection env tr = (Returned b, (tr ++ added)%list)
    /\ forallb (fun e => negb (is_invoke e)) added = true
    /\ (truthy (conn_token_expires_at connection) = false
        \/ truthy (conn_refresh_token connection) = false
        \/ (exists expiry,
               time_clip (date_getTime env
                            (show (conn_token_expires_at connection)))
               = Num expiry
               /\ expiry - clock env tr > 300000) ->
        forallb (fun e => negb (is_network e)) added = true).
Proof.
  unfold tokenExpired.
  destruct (truthy (conn_token_expires_at connection)) eqn:Et.
  - unfold bind at 1. unfold getTime at 1, asks at 1.
    unfold bind at 1. unfold now at 1, call at 1. cbn [of_result].
    cbv zeta.
    destruct (leb (sub (time_clip (date_getTime env
                          (show (conn_token_expires_at connection))))
                       (Num (clock env tr))) (Num 300000)
              && truthy (conn_refresh_token connection)) eqn:Ew.
    + destruct (tryRefresh_returns connection env (tr ++ [ReadClock])%list)
        as (v & added & E & Hok).
      unfold bind at 1. rewrite E.
      exists (leb (time_clip (date_getTime env (show v)))
                  (Num (clock env ((tr ++ [ReadClock]) ++ added)%list))).
      exists ([ReadClock] ++ added ++ [ReadClock])%list.
      split; [|split].
      * unfold bind, getTime, asks, now, call, ret. cbn [of_result].
        now rewrite <- !List.app_assoc.
      * cbn [app forallb is_invoke negb andb]. rewrite forallb_app, Hok.
        reflexivity.
      * apply andb_true_iff in Ew. destruct Ew as (Hin & Href).
        intros [H | [H | (expiry & Hexp & Hfar)]]; try congruence.
        rewrite Hexp in Hin. rewrite TokenFacts.outside_window in Hin
          by assumption. discriminate.
    + exists (leb (time_clip (date_getTime env
                     (show (conn_token_expires_at connection))))
                  (Num (clock env (tr ++ [ReadClock])%list))).
      exists [ReadClock; ReadClock].
      split; [|split; [reflexivity | intros _; reflexivity]].
      unfold bind, getTime, asks, now, call, ret. cbn [of_result].
      now rewrite <- !List.app_assoc.
  - exists false, []. rewrite List.app_nil_r.
    split; [reflexivity | split; [reflexivity | intros _; reflexivity]].
Qed.

Lemma uploadToYouTube_other_asset (asset : AssetToUpload)
      (connection : SocialConnection) (env : Env) (tr : trace) :
  isTestConnection_youtube connection = false ->
  as_asset_type asset <> Compat.Video ->
  exists result added,
    uploadToYouTube asset connection env tr
    = (Returned result, (tr ++ added)%list)
    /\ ur_success result = false
    /\ forallb (fun e => negb (is_invoke e)) added = true
    /\ (truthy (conn_token_expires_at connection) = false
        \/ truthy (conn_refresh_token connection) = false
        \/ (exists expiry,
               time_clip (date_getTime env
                            (show (conn_token_expires_at connection)))
               = Num expiry
               /\ expiry - clock env tr > 300000) ->
        forallb (fun e => negb (is_network e)) added = true).
Proof.
  intros Htest Htype. unfold uploadToYouTube. rewrite Htest.
  destruct (tokenExpired_returns connection env tr)
    as (b & added & E & Hinv & Hnet).
  unfold try_catch, bind. rewrite E.
  destruct b.
  - eexists. exists added. split; [reflexivity|]. auto.
  - destruct (as_asset_type asset); try congruence;
      (eexists; exists added; split; [reflexivity|]; auto).
Qed.

(** C8 as stated fails: for an image and a live YouTube connection whose
    token has run out, [uploadToYouTube] first asks the token endpoint for
    a refresh, and the failure that it returns is about the token, not
    about the asset; and with the demo connection it returns a success. *)
Lemma incompatible_pair_refreshes_first :
  Compat.isPlatformCompatible (as_asset_type Examples.image_asset)
                              (conn_platform Examples.expiring_youtube)
  = false
  /\ (exists r tr,
         dispatch Examples.image_asset Examples.expiring_youtube
                  Examples.refresh_rejected [] = (Returned r, tr)
         /\ fetches tr = [refresh_request Examples.expiring_youtube]
         /\ ur_error r = Some "Token expired")
  /\ (exists r tr,
         dispatch Examples.image_asset (mapRow Examples.demo_youtube)
                  Examples.offline [] = (Returned r, tr)
         /\ ur_success r = true).
Proof.
  split; [reflexivity|]. split.
  - eexists. eexists. split; [vm_compute; reflexivity|].
    split; reflexivity.
  - eexists. eexists. split; [vm_compute; reflexivity|]. reflexivity.
Qed.

(** C8 (amended).  For an asset type and a platform outside the
    compatibility table, and a connection that is not a test connection,
    the upload function that the hook selects returns a failure result and
    never asks for the upload.  It makes no network call at all, except
    that [uploadToYouTube] checks the token before the asset type: when
    the token is within five minutes of its expiry and a refresh token is
    at hand, it first asks the token endpoint for a refresh. *)
Theorem incompatible_pair_is_not_uploaded
        (env : Env) (tr : trace) (asset : AssetToUpload)
        (connection : SocialConnection) :
  Compat.isPlatformCompatible (as_asset_type asset)
                              (conn_platform connection) = false ->
  (conn_platform connection = "youtube" ->
   isTestConnection_youtube connection = false) ->
  (conn_platform connection = "instagram" ->
   isTestConnection_instagram connection = false) ->
  exists result added,
    dispatch asset connection env tr = (Returned result, (tr ++ added)%list)
    /\ ur_success result = false
    /\ forallb (fun e => negb (is_invoke e)) added = true
    /\ (conn_platform connection <> "youtube"
        \/ truthy (conn_token_expires_at connection) = false
        \/ truthy (conn_refresh_token connection) = false
        \/ (exists expiry,
               time_clip (date_getTime env
                            (show (conn_token_expires_at connection)))
               = Num expiry
               /\ expiry - clock env tr > 300000) ->
        forallb (fun e => negb (is_network e)) added = true).
Proof.
  intros Hinc Hy Hi. unfold dispatch, upload_to.
  destruct (conn_platform connection =? "youtube")%string eqn:Ey.
  - apply String.eqb_eq in Ey. specialize (Hy Ey).
    assert (Htype : as_asset_type asset <> Compat.Video).
    { intros Hv. rewrite Hv, Ey in Hinc. discriminate. }
    destruct (uploadToYouTube_other_asset asset connection env tr Hy Htype)
      as (result & added & E & Hs & Hinv & Hnet).
    exists result, added. repeat split; try assumption.
    intros [H | H]; [congruence | now apply Hnet].
  - destruct (conn_platform connection =? "instagram")%string eqn:Ei.
    + apply String.eqb_eq in Ei. specialize (Hi Ei).
      unfold uploadToInstagram. rewrite Hi.
      eexists. exists []. rewrite List.app_nil_r.
      split; [reflexivity|]. repeat split.
    + destruct (conn_platform connection =? "facebook")%string eqn:Ef.
      * apply String.eqb_eq in Ef. rewrite Ef in Hinc.
        destruct (as_asset_type asset); discriminate.
      * eexists. exists []. rewrite List.app_nil_r.
        split; [reflexivity|]. repeat split.
Qed.

Lemma incompatible_pair_is_not_uploaded_witness :
  exists result added,
    dispatch Examples.image_asset
      (mapRow Examples.fresh_connection) Examples.offline []
    = (Returned result, added)
    /\ ur_success result = false
    /\ forallb (fun e => negb (is_invoke e)) added = true
    /\ forallb (fun e => negb (is_network e)) added = true.
Proof.
  destruct (incompatible_pair_is_not_uploaded Examples.offline []
              Examples.image_asset (mapRow Examples.fresh_connection)
              eq_refl (fun _ => eq_refl)
              (fun H => match (ltac:(discriminate H) : False) with end))
    as (result & added & E & Hs & Hinv & Hnet).
  exists result, added. repeat split; try assumption.
  apply Hnet. right. right. right.
  exists 1700000400000. split; reflexivity.
Defined.

(** C10. A connection with a test sentinel makes its upload function
    return a success with a made-up URL after the fixed delay, and nothing
    else happens: the only events are the delay and the reading of the
    clock for the made-up identifier.  For YouTube the sentinels are the
    token [demo_access_token_youtube], a token that starts with
    [test-youtube-token-] and the connection id [mock-youtube]; for
    Instagram and Facebook the tokens [demo_access_token_instagram] and
    [demo_access_token_facebook]. *)
Theorem sentinel_uploads_are_simulated
        (env : Env) (tr : trace) (asset : AssetToUpload) :
  (forall connection,
      conn_access_token connection = "demo_access_token_youtube"
      \/ startsWith (conn_access_token connection) "test-youtube-token-"
         = true
      \/ conn_id connection = "mock-youtube" ->
      uploadToYouTube asset connection env tr
      = (Returned
           {| ur_success := true;
              ur_platform := "youtube";
              ur_message := "Successfully uploaded " ++ dq ++ as_title asset
                            ++ dq ++ " to YouTube (Test Mode)";
              ur_url := Some ("https://www.youtube.com/watch?v=test-video-"
                              ++ string_of_Z
                                   (clock env (tr ++ [Sleep 2000])%list));
              ur_error := None |},
         (tr ++ [Sleep 2000; ReadClock])%list))
  /\ (forall connection,
         conn_access_token connection = "demo_access_token_instagram" ->
         uploadToInstagram asset connection env tr
         = (Returned
              {| ur_success := true;
                 ur_platform := "instagram";
                 ur_message := "Successfully uploaded " ++ dq
                               ++ as_title asset ++ dq
                               ++ " to Instagram (Test Mode)";
                 ur_url := Some ("https://www.instagram.com/p/test-post-"
                                 ++ string_of_Z
                                      (clock env (tr ++ [Sleep 1500])%list)
                                 ++ "/");
                 ur_error := None |},
            (tr ++ [Sleep 1500; ReadClock])%list))
  /\ (forall connection,
         conn_access_token connection = "demo_access_token_facebook" ->
         uploadToFacebook asset connection env tr
         = (Returned
              {| ur_success := true;
                 ur_platform := "facebook";
                 ur_message := "Successfully uploaded " ++ dq
                               ++ as_title asset ++ dq
                               ++ " to Facebook (Test Mode)";
                 ur_url := Some ("https://www.facebook.com/posts/test-facebook-post-"
                                 ++ string_of_Z
                                      (clock env (tr ++ [Sleep 1000])%list));
                 ur_error := None |},
            (tr ++ [Sleep 1000; ReadClock])%list))
  /\ (forall ms, forallb (fun e => negb (is_network e))
                         [Sleep ms; ReadClock] = true).
Proof.
  split; [|split; [|split; [|reflexivity]]]; intros connection H.
  - assert (Ht : isTestConnection_youtube connection = true).
    { unfold isTestConnection_youtube.
      destruct H as [H | [H | H]].
      - rewrite H. reflexivity.
      - rewrite H. apply orb_true_iff. left. apply orb_true_r.
      - rewrite H. apply orb_true_r. }
    unfold uploadToYouTube. rewrite Ht.
    cbv beta iota zeta
        delta [try_catch bind sleep emit now call ret of_result].
    rewrite <- List.app_assoc. reflexivity.
  - unfold uploadToInstagram, isTestConnection_instagram. rewrite H.
    change ("demo_access_token_instagram" =? "demo_access_token_instagram")%string
      with true.
    cbv beta iota zeta delta [bind sleep emit now call ret of_result].
    rewrite <- List.app_assoc. reflexivity.
  - unfold uploadToFacebook, isTestConnection_facebook. rewrite H.
    change ("demo_access_token_facebook" =? "demo_access_token_facebook")%string
      with true.
    cbv beta iota zeta delta [bind sleep emit now call ret of_result].
    rewrite <- List.app_assoc. reflexivity.
Qed.

Lemma sentinel_uploads_are_simulated_witness :
  exists r,
    uploadToYouTube Examples.video_asset
      (mapRow Examples.demo_youtube) Examples.offline []
    = (Returned r, [Sleep 2000; ReadClock])
    /\ ur_success r = true
    /\ ur_url r = Some "https://www.youtube.com/watch?v=test-video-1700000000000".
Proof.
  eexists. split.
  - exact (proj1 (sentinel_uploads_are_simulated Examples.offline []
                    Examples.video_asset)
                 (mapRow Examples.demo_youtube) (or_introl eq_refl)).
  - split; reflexivity.
Defined.

End HookFacts.

(* ------------------------------------------------------------------ *)
(** ** The upload dialog: messages and selection *)

Module DialogFacts.
Import Js Rt Edge Hook Compat Dialog RtFacts HandlerFacts HookFacts.

(** X1. The dialog shows a compatibility message for a platform exactly
    when the platform does not fit the asset: [getCompatibilityMessage] is
    the empty string if and only if [isPlatformCompatible] accepts the
    platform. *)
Theorem compatibility_message_iff (t : asset_type) (platform : string) :
  getCompatibilityMessage t platform = ""
  <-> isPlatformCompatible t platform = true.
Proof.
  unfold getCompatibilityMessage.
  destruct (isPlatformCompatible t platform); cbn [negb].
  - split; reflexivity.
  - split; [|discriminate].
    destruct t;
      try destruct (platform =? "instagram")%string;
      try destruct (platform =? "youtube")%string; discriminate.
Qed.

Lemma includes_In (l : list string) (x : string) :
  includes l x = true <-> In x l.
Proof.
  unfold includes. rewrite existsb_exists. split.
  - intros (y & Hy & E). apply String.eqb_eq in E. now subst.
  - intros H. exists x. split; [assumption | apply String.eqb_refl].
Qed.

Lemma includes_not_In (l : list string) (x : string) :
  includes l x = false <-> ~ In x l.
Proof.
  rewrite <- includes_In. destruct (includes l x); split; congruence.
Qed.

Lemma In_remove (l : list string) (p q : string) :
  In q (filter (fun x => negb (x =? p)%string) l) <-> In q l /\ q <> p.
Proof.
  rewrite filter_In, negb_true_iff, String.eqb_neq. reflexivity.
Qed.

(** The members of a selection after a toggle. *)
Lemma toggle_In (prev : list string) (p q : string) :
  In q (handlePlatformToggle prev p)
  <-> (q = p /\ ~ In p prev) \/ (q <> p /\ In q prev).
Proof.
  unfold handlePlatformToggle.
  destruct (includes prev p) eqn:E.
  - apply includes_In in E. rewrite In_remove. intuition.
  - apply includes_not_In in E. rewrite in_app_iff. cbn [In].
    destruct (String.eqb_spec q p) as [-> | Hne]; intuition congruence.
Qed.

(** X2. Whatever platforms are connected and whatever cards are clicked
    after the dialog has loaded them, every selected platform fits the
    asset: the selection that [handleUpload] passes on never holds a
    platform that [isPlatformCompatible] rejects. *)
Theorem selection_stays_compatible
        (t : asset_type) (platforms : list SocialConnection)
        (clicks : list string) :
  Forall (fun p => isPlatformCompatible t p = true)
         (fold_left (onClick t) clicks (compatiblePlatforms t platforms)).
Proof.
  assert (Hload : Forall (fun p => isPlatformCompatible t p = true)
                         (compatiblePlatforms t platforms)).
  { apply Forall_forall. intros p Hin. unfold compatiblePlatforms in Hin.
    apply in_map_iff in Hin. destruct Hin as (c & <- & Hc).
    apply filter_In in Hc. destruct Hc as (_ & Hc).
    destruct t; try discriminate; exact Hc. }
  revert Hload. generalize (compatiblePlatforms t platforms) as sel.
  induction clicks as [|p clicks IH]; intros sel Hsel; cbn [fold_left].
  - exact Hsel.
  - apply IH. unfold onClick.
    destruct (isPlatformCompatible t p) eqn:Ep; [|exact Hsel].
    apply Forall_forall. intros q Hq. apply toggle_In in Hq.
    rewrite Forall_forall in Hsel.
    destruct Hq as [(-> & _) | (_ & Hq)]; [exact Ep | now apply Hsel].
Qed.

(** X3. [handlePlatformToggle] flips the membership of the platform,
    leaves every other platform as it was, and keeps a selection free of
    duplicates. *)
Theorem toggle_flips_membership (prev : list string) (platform : string) :
  (In platform (handlePlatformToggle prev platform) <-> ~ In platform prev)
  /\ (forall q, q <> platform ->
                (In q (handlePlatformToggle prev platform) <-> In q prev))
  /\ (NoDup prev -> NoDup (handlePlatformToggle prev platform)).
Proof.
  split; [|split].
  - rewrite toggle_In. intuition congruence.
  - intros q Hq. rewrite toggle_In. intuition congruence.
  - intros Hnd. unfold handlePlatformToggle.
    destruct (includes prev platform) eqn:E.
    + now apply NoDup_filter.
    + apply includes_not_In in E.
      apply NoDup_app; [assumption | repeat constructor; intros [] |].
      intros x Hx [<- | []]. contradiction.
Qed.

Lemma toggle_flips_membership_witness :
  NoDup ["youtube"; "facebook"]
  /\ NoDup (handlePlatformToggle ["youtube"; "facebook"] "instagram")
  /\ In "instagram" (handlePlatformToggle ["youtube"; "facebook"] "instagram").
Proof.
  assert (Hnd : NoDup ["youtube"; "facebook"]).
  { repeat constructor; cbn; intuition discriminate. }
  destruct (toggle_flips_membership ["youtube"; "facebook"] "instagram")
    as (Hin & _ & Hkeep).
  split; [exact Hnd|]. split; [exact (Hkeep Hnd)|].
  apply Hin. cbn. intuition discriminate.
Defined.

(** X4. Toggling a platform twice gives back a selection with the same
    members; when the platform was not selected, it gives back the very
    same list. *)
Theorem toggle_twice (prev : list string) (platform : string) :
  (forall q,
      In q (handlePlatformToggle (handlePlatformToggle prev platform)
                                 platform)
      <-> In q prev)
  /\ (~ In platform prev ->
      handlePlatformToggle (handlePlatformToggle prev platform) platform
      = prev).
Proof.
  split.
  - intros q. rewrite !toggle_In.
    destruct (String.eqb_spec q platform) as [-> | Hne];
      destruct (in_dec String.string_dec platform prev);
      intuition congruence.
  - intros Hn. unfold handlePlatformToggle at 2.
    rewrite (proj2 (includes_not_In prev platform) Hn).
    unfold handlePlatformToggle.
    rewrite (proj2 (includes_In (prev ++ [platform]) platform))
      by (apply in_app_iff; right; now left).
    rewrite filter_app. cbn [filter]. rewrite String.eqb_refl. cbn [negb].
    rewrite List.app_nil_r.
    apply forallb_filter_id. apply forallb_forall. intros x Hx.
    apply negb_true_iff, String.eqb_neq. congruence.
Qed.

Lemma toggle_twice_witness :
  ~ In "instagram" ["youtube"; "facebook"]
  /\ handlePlatformToggle
       (handlePlatformToggle ["youtube"; "facebook"] "instagram") "instagram"
     = ["youtube"; "facebook"].
Proof.
  assert (Hn : ~ In "instagram" ["youtube"; "facebook"]).
  { cbn. intuition discriminate. }
  split; [exact Hn|].
  exact (proj2 (toggle_twice ["youtube"; "facebook"] "instagram") Hn).
Defined.

(** The fan-out of the hook always returns a list. *)
Lemma publish_returns (asset : AssetToUpload)
      (selected : list string) (env : Env) (tr : trace) :
  exists results tr',
    publish asset selected env tr = (Returned results, tr').
Proof.
  destruct (getConnectedPlatforms_returns env
              (tr ++ [SetIsUploading true;
                      SetUploadingPlatforms (PlatformsSet selected)])%list)
    as (conns & tr1 & Hget & _).
  unfold publish, uploadToSocialMedia.
  unfold bind at 1. unfold emit at 1, call at 1. cbn [of_result].
  unfold bind at 1. unfold emit at 1, call at 1. cbn [of_result].
  rewrite <- List.app_assoc. cbn [app].
  unfold try_finally, try_catch. unfold bind at 1. rewrite Hget.
  destruct conns as [|c0 cs].
  - eexists. eexists. reflexivity.
  - cbv zeta.
    destruct (filter (fun conn => includes selected (conn_platform conn))
                     (c0 :: cs)) as [|s0 ss] eqn:Esel.
    + eexists. eexists. reflexivity.
    + destruct (promise_all_returns asset (s0 :: ss) env tr1)
        as (rs & tr2 & Hall & Hrs).
      unfold bind at 1. rewrite Hall.
      destruct (filter ur_success rs);
        destruct (filter (fun r => negb (ur_success r)) rs);
        (eexists; eexists; reflexivity).
Qed.

(** X5. [handleUpload] with an empty selection only shows a toast and
    uploads nothing.  With a selection it always ends by showing the
    results of the hook, and it starts the timer that closes the dialog
    after three seconds exactly when no result is a failure; so the dialog
    also closes itself when the hook returned no result at all. *)
Theorem handleUpload_closes_without_failure
        (env : Env) (tr : trace) (asset : AssetToUpload) (st : DialogState) :
  (selectedPlatforms st = [] ->
   handleUpload asset st env tr
   = (Returned (st, None),
      (tr ++ [Toast "No Platforms Selected"
                    "Please select at least one platform to upload to."
                    true])%list))
  /\ (selectedPlatforms st <> [] ->
      exists results tr' timer,
        publish asset (selectedPlatforms st) env tr = (Returned results, tr')
        /\ handleUpload asset st env tr
           = (Returned
                ({| isOpen := isOpen st;
                    selectedPlatforms := selectedPlatforms st;
                    uploadResults := results;
                    showResults := true |}, timer),
              tr')
        /\ (timer = Some 3000
            <-> forall r, In r results -> ur_success r = true)
        /\ (timer = Some 3000 \/ timer = None)).
Proof.
  unfold handleUpload. split; intros Hsel.
  - rewrite Hsel. reflexivity.
  - destruct (selectedPlatforms st) as [|p ps] eqn:E; [congruence|].
    destruct (publish_returns asset (p :: ps) env tr)
      as (results & tr' & Hp).
    exists results, tr',
      (if forallb ur_success results then Some 3000 else None).
    split; [exact Hp|].
    unfold try_catch, bind. rewrite Hp.
    split; [|split].
    + destruct (forallb ur_success results); reflexivity.
    + rewrite <- forallb_forall.
      destruct (forallb ur_success results); split; congruence.
    + destruct (forallb ur_success results); auto.
Qed.

Lemma handleUpload_closes_without_failure_witness :
  exists tr',
    handleUpload Examples.video_asset
      {| isOpen := true; selectedPlatforms := ["facebook"];
         uploadResults := []; showResults := false |}
      Examples.offline []
    = (Returned
         ({| isOpen := true; selectedPlatforms := ["facebook"];
             uploadResults := []; showResults := true |}, Some 3000),
       tr').
Proof.
  destruct (handleUpload_closes_without_failure Examples.offline []
              Examples.video_asset
              {| isOpen := true; selectedPlatforms := ["facebook"];
                 uploadResults := []; showResults := false |})
    as (_ & H).
  destruct (H ltac:(discriminate))
    as (results & tr' & timer & Hp & Hu & Hiff & _).
  vm_compute in Hp. injection Hp as <- <-.
  assert (Ht : timer = Some 3000) by (apply Hiff; intros r []).
  eexists. rewrite Hu, Ht. reflexivity.
Defined.

End DialogFacts.

(* ------------------------------------------------------------------ *)
(** ** Events of a run that satisfy a property *)

Module ObserveFacts.
Import Js Rt Edge Observe RtFacts.

Section EveryEvent.
Context {A : Type} (P : event -> Prop).

Lemma every_event_ret (a : A) : every_event P (ret a).
Proof. intros env tr. exists []. cbn. now rewrite List.app_nil_r. Qed.

Lemma every_event_throw (msg : string) : every_event P (@throw A msg).
Proof. intros env tr. exists []. cbn. now rewrite List.app_nil_r. Qed.

Lemma every_event_unfinished : every_event P (@unfinished A).
Proof. intros env tr. exists []. cbn. now rewrite List.app_nil_r. Qed.

Lemma every_event_await (o : result A) : every_event P (await o).
Proof. intros env tr. exists []. cbn. now rewrite List.app_nil_r. Qed.

Lemma every_event_asks (f : Env -> A) : every_event P (asks f).
Proof. intros env tr. exists []. cbn. now rewrite List.app_nil_r. Qed.

Lemma every_event_call (e : event) (answer : Env -> trace -> result A) :
  P e -> every_event P (call e answer).
Proof. intros H env tr. exists [e]. cbn. split; [reflexivity | auto]. Qed.

Lemma every_event_bind {B : Type} (m : M B) (k : B -> M A) :
  every_event P m -> (forall b, every_event P (k b)) ->
  every_event P (bind m k).
Proof.
  intros Hm Hk env tr. unfold bind.
  destruct (Hm env tr) as (added & E & Hok).
  destruct (m env tr) as [[b | msg |] tr0]; cbn [snd] in *; subst tr0;
    try (now exists added).
  destruct (Hk b env (tr ++ added)%list) as (added' & E' & Hok').
  exists (added ++ added')%list. rewrite E', <- List.app_assoc.
  split; [reflexivity | now apply Forall_app].
Qed.

Lemma every_event_try_catch (m : M A) (h : string -> M A) :
  every_event P m -> (forall msg, every_event P (h msg)) ->
  every_event P (try_catch m h).
Proof.
  intros Hm Hh env tr. unfold try_catch.
  destruct (Hm env tr) as (added & E & Hok).
  destruct (m env tr) as [[b | msg |] tr0]; cbn [snd] in *; subst tr0;
    try (now exists added).
  destruct (Hh msg env (tr ++ added)%list) as (added' & E' & Hok').
  exists (added ++ added')%list. rewrite E', <- List.app_assoc.
  split; [reflexivity | now apply Forall_app].
Qed.

(** A computation that only adds events of a kind adds only events with
    a property that the kind implies. *)
Lemma only_events_every (ok : event -> bool) (m : M A) :
  (forall e, ok e = true -> P e) -> only_events ok m -> every_event P m.
Proof.
  intros Himp Hm env tr. destruct (Hm env tr) as (added & E & Hok).
  exists added. split; [exact E|].
  apply Forall_forall. intros e He. apply Himp.
  rewrite forallb_forall in Hok. now apply Hok.
Qed.

End EveryEvent.

Lemma only_events_unfinished {A : Type} (ok : event -> bool) :
  only_events ok (@unfinished A).
Proof. intros env tr. exists []. cbn. now rewrite List.app_nil_r. Qed.

(** One step of a proof that every event of a computation has a property;
    the conditions of the branches are kept. *)
Ltac every_event_step :=
  lazymatch goal with
  | |- every_event _ (ret _) => apply every_event_ret
  | |- every_event _ (throw _) => apply every_event_throw
  | |- every_event _ (await _) => apply every_event_await
  | |- every_event _ (asks _) => apply every_event_asks
  | |- every_event _ (call _ _) => apply every_event_call
  | |- every_event _ (bind _ _) => apply every_event_bind; [|intros]
  | |- every_event _ (try_catch _ _) =>
      apply every_event_try_catch; [|intros]
  | |- every_event _ (if ?c then _ else _) => destruct c eqn:?
  | |- every_event _ (match ?x with _ => _ end) => destruct x eqn:?
  end.

End ObserveFacts.

(* ------------------------------------------------------------------ *)
(** ** The chunk loops: what they send and when they give up *)

Module ChunkFacts.
Import Js Rt Edge Resumable Observe RtFacts ObserveFacts.

Lemma is_put_to_chunk (uploadUrl : string) (videoArray : Uint8Array)
      (start end_ : num) :
  is_put_to uploadUrl (Fetch (chunk_request uploadUrl videoArray start end_))
  = true.
Proof. cbn. apply String.eqb_refl. Qed.

Lemma upload_loop_only_puts (uploadUrl : string) (videoArray : Uint8Array)
      (fuel : nat) :
  forall start,
    only_events (is_put_to uploadUrl)
                (YoutubeUpload.chunk_loop fuel uploadUrl videoArray start).
Proof.
  induction fuel as [|fuel IH]; intros start; cbn [YoutubeUpload.chunk_loop].
  - apply only_events_unfinished.
  - apply only_events_bind.
    + apply only_events_call, is_put_to_chunk.
    + intros r. repeat only_events_step. apply IH.
Qed.

Lemma oauth_loop_only_puts (uploadUrl : string) (videoArray : Uint8Array)
      (fuel : nat) :
  forall start,
    only_events (is_put_to uploadUrl)
                (YoutubeOauth.chunk_loop fuel uploadUrl videoArray start).
Proof.
  induction fuel as [|fuel IH]; intros start; cbn [YoutubeOauth.chunk_loop];
    destruct (ltb start (Num (ua_length videoArray)));
    try apply only_events_ret; try apply only_events_unfinished.
  apply only_events_bind.
  - apply only_events_call, is_put_to_chunk.
  - intros r. repeat only_events_step. apply IH.
Qed.

(** X6. Whatever the platform answers and however long they run, the
    chunk loops of [youtube-upload] and [youtube-oauth] do nothing but send
    PUT requests to the URL of the upload session: no other request, no
    access to the database, no pause between two attempts. *)
Theorem chunk_loops_only_put_to_session
        (uploadUrl : string) (videoArray : Uint8Array) (fuel : nat)
        (start : num) :
  only_events (is_put_to uploadUrl)
              (YoutubeUpload.chunk_loop fuel uploadUrl videoArray start)
  /\ only_events (is_put_to uploadUrl)
                 (YoutubeOauth.chunk_loop fuel uploadUrl videoArray start).
Proof.
  split; [apply upload_loop_only_puts | apply oauth_loop_only_puts].
Qed.

(** X7. The PUT that the loops send at a byte [s] of the payload carries
    exactly the bytes that its [Content-Range] header names: the chunk
    holds the bytes [s] to [e - 1], where [e] is [s] plus the chunk size
    or the length of the payload if that is less; it has at least one byte
    and at most 5 MiB, and [Content-Length] is its length. *)
Theorem chunk_carries_its_range
        (uploadUrl : string) (videoArray : Uint8Array) (s : Z) :
  0 <= s < ua_length videoArray ->
  let e := Z.min (s + chunkSize) (ua_length videoArray) in
  exists chunk,
    rq_body (put_at uploadUrl videoArray s) = BytesBody chunk
    /\ rq_method (put_at uploadUrl videoArray s) = "PUT"
    /\ rq_url (put_at uploadUrl videoArray s) = uploadUrl
    /\ rq_headers (put_at uploadUrl videoArray s)
       = [("Content-Length", string_of_Z (ua_length chunk));
          ("Content-Range",
           "bytes " ++ string_of_Z s ++ "-" ++ string_of_Z (e - 1) ++ "/"
           ++ string_of_Z (ua_length videoArray))]
    /\ ua_length chunk = e - s
    /\ 1 <= ua_length chunk <= chunkSize
    /\ forall i, ua_at chunk i = ua_at videoArray (s + i).
Proof.
  intros Hs e.
  exists (slice videoArray (Num s) (Num e)).
  assert (Hk : rel_index (ua_length videoArray) (Num s) = s).
  { cbn [rel_index]. destruct (Z.ltb_spec s 0); lia. }
  assert (Hf : rel_index (ua_length videoArray) (Num e) = e).
  { cbn [rel_index]. subst e. change chunkSize with 5242880.
    destruct (Z.ltb_spec (Z.min (s + 5242880) (ua_length videoArray)) 0); lia. }
  assert (Hlen : ua_length (slice videoArray (Num s) (Num e)) = e - s).
  { unfold slice. cbn [ua_length]. rewrite Hk, Hf. subst e.
    change chunkSize with 5242880. lia. }
  repeat split; try reflexivity.
  - exact Hlen.
  - rewrite Hlen. subst e. change chunkSize with 5242880. lia.
  - rewrite Hlen. subst e. change chunkSize with 5242880. lia.
  - intros i. unfold slice. cbn [ua_at]. now rewrite Hk.
Qed.

Lemma chunk_carries_its_range_witness :
  exists chunk,
    rq_body (put_at Examples.session (Examples.zeros 12582912) 10485760)
    = BytesBody chunk
    /\ ua_length chunk = 2097152.
Proof.
  destruct (chunk_carries_its_range Examples.session
              (Examples.zeros 12582912) 10485760
              ltac:(cbn; lia))
    as (chunk & Hb & _ & _ & _ & Hlen & _).
  exists chunk. split; [exact Hb | exact Hlen].
Defined.

(** X8. A chunk PUT that is answered with a status other than 200, 201
    and 308 ends the loop at once with an error: the failed chunk is not
    sent again and no later chunk is sent.  The error message of
    [youtube-upload] holds the status and the status text, the one of
    [youtube-oauth] the status and the body of the answer. *)
Theorem failed_chunk_is_not_retried
        (env : Env) (tr : trace) (fuel : nat) (uploadUrl : string)
        (videoArray : Uint8Array) (start : num) (r : response)
        (errorText : string) :
  let put := chunk_request uploadUrl videoArray start
                           (chunk_end videoArray start) in
  fetch env tr put = Ok r ->
  rs_status r <> 200 -> rs_status r <> 201 -> rs_status r <> 308 ->
  rs_text r = Ok errorText ->
  YoutubeUpload.chunk_loop (S fuel) uploadUrl videoArray start env tr
  = (Threw ("Upload failed: " ++ string_of_Z (rs_status r) ++ " "
            ++ rs_statusText r),
     (tr ++ [Fetch put])%list)
  /\ (ltb start (Num (ua_length videoArray)) = true ->
      YoutubeOauth.chunk_loop (S fuel) uploadUrl videoArray start env tr
      = (Threw ("Upload failed: " ++ string_of_Z (rs_status r) ++ " - "
                ++ errorText),
         (tr ++ [Fetch put])%list)).
Proof.
  intros put Hr H200 H201 H308 Ht. subst put.
  apply Z.eqb_neq in H200, H201, H308.
  split; [|intros Hlt];
    cbn [YoutubeUpload.chunk_loop YoutubeOauth.chunk_loop];
    rewrite ?Hlt; unfold bind at 1; unfold do_fetch, call; rewrite Hr;
    cbn [of_result]; rewrite H200, H201, H308; cbn [orb];
    unfold bind, await; rewrite Ht; reflexivity.
Qed.

Lemma failed_chunk_is_not_retried_witness :
  YoutubeUpload.chunk_loop 3 Examples.session (Examples.zeros 1) (Num 0)
    Examples.refresh_rejected []
  = (Threw "Upload failed: 400 ",
     [Fetch (put_at Examples.session (Examples.zeros 1) 0)]).
Proof.
  exact (proj1 (failed_chunk_is_not_retried Examples.refresh_rejected []
                  2 Examples.session (Examples.zeros 1) (Num 0)
                  (Examples.plain 400 []) ""
                  eq_refl ltac:(discriminate) ltac:(discriminate)
                  ltac:(discriminate) eq_refl)).
Defined.

End ChunkFacts.

(* ------------------------------------------------------------------ *)
(** ** The edge functions: what they refuse and what they never send *)

Module EdgeFacts.
Import Js Rt Edge Observe RtFacts HandlerFacts ObserveFacts ChunkFacts.

(** X9. [youtube-upload] refuses a request in which [userId], [videoUrl]
    or [title] is missing or empty with status 400 and the message
    "Missing required fields", without any call.  It refuses a request of
    a user for whom the database has no active YouTube connection with
    status 400 and "YouTube account not connected"; the lookup in the
    database is then the only call that was made. *)
Theorem upload_refuses_before_the_platform
        (env : Env) (tr : trace) (req : Request) (fuel : nat) (b : body) :
  req_method req <> "OPTIONS" ->
  req_json req 0 = Ok b ->
  let refusal message :=
    json_response 400 YoutubeUpload.corsHeaders
      (JObj [("success", JBool false); ("error", JStr message)]) in
  let lookup :=
    DbSelectSingle "user_social_connections"
      [("user_id", DbStr (show (b_userId b))); ("platform", DbStr "youtube");
       ("is_active", DbBool true)] in
  (truthy (b_userId b) = false \/ truthy (b_videoUrl b) = false
   \/ truthy (b_title b) = false ->
   YoutubeUpload.handler req fuel env tr
   = (Returned (refusal "Missing required fields: userId, videoUrl, title"),
      tr))
  /\ (forall sel,
         truthy (b_userId b) = true -> truthy (b_videoUrl b) = true ->
         truthy (b_title b) = true ->
         createClient env (env_get env "SUPABASE_URL")
                      (env_get env "SUPABASE_SERVICE_ROLE_KEY") = Ok tt ->
         db_select_single env tr "user_social_connections"
           [("user_id", DbStr (show (b_userId b)));
            ("platform", DbStr "youtube"); ("is_active", DbBool true)]
         = Ok sel ->
         db_error sel <> None \/ db_data sel = None ->
         YoutubeUpload.handler req fuel env tr
         = (Returned (refusal "YouTube account not connected"),
            (tr ++ [lookup])%list)).
Proof.
  intros Hm Hb refusal lookup. subst refusal lookup.
  apply String.eqb_neq in Hm.
  unfold YoutubeUpload.handler. rewrite Hm.
  unfold try_catch, YoutubeUpload.upload.
  split; [intros Hmiss | intros sel Hu Hv Ht Hmk Hsel Hnone];
    unfold bind at 1; unfold await at 1; rewrite Hb; cbn [of_result];
    cbv zeta.
  - assert (E : negb (truthy (b_userId b)) || negb (truthy (b_videoUrl b))
                || negb (truthy (b_title b)) = true).
    { destruct Hmiss as [H | [H | H]]; rewrite H; cbn [negb];
        rewrite ?orb_true_r; reflexivity. }
    rewrite E. reflexivity.
  - rewrite Hu, Hv, Ht. cbn [negb orb].
    unfold bind, asks, await, select_single, call.
    rewrite Hmk. cbn [of_result]. rewrite Hsel. cbn [of_result].
    destruct Hnone as [He | Hd].
    + destruct (db_error sel); [|congruence].
      destruct (db_data sel); reflexivity.
    + rewrite Hd. destruct (db_error sel); reflexivity.
Qed.

Lemma upload_refuses_before_the_platform_witness :
  YoutubeUpload.handler Examples.unknown_action 0 Examples.offline []
  = (Returned
       (json_response 400 YoutubeUpload.corsHeaders
          (JObj [("success", JBool false);
                 ("error",
                  JStr "Missing required fields: userId, videoUrl, title")])),
     [])
  /\ exists lookup,
       YoutubeUpload.handler Examples.upload_request 0 Examples.offline []
       = (Returned
            (json_response 400 YoutubeUpload.corsHeaders
               (JObj [("success", JBool false);
                      ("error", JStr "YouTube account not connected")])),
          [lookup]).
Proof.
  split.
  - refine (proj1 (upload_refuses_before_the_platform Examples.offline []
                     Examples.unknown_action 0 _ _ eq_refl) _).
    + discriminate.
    + right. left. reflexivity.
  - eexists.
    refine (proj2 (upload_refuses_before_the_platform Examples.offline []
                     Examples.upload_request 0 _ _ eq_refl)
                  _ eq_refl eq_refl eq_refl eq_refl eq_refl _).
    + discriminate.
    + left. discriminate.
Defined.







(** Requests that open no session. *)
Ltac not_a_session :=
  first [exact I | intros Hs; vm_compute in Hs; discriminate Hs].

Lemma put_is_no_session (uploadUrl : string) (e : event) :
  is_put_to uploadUrl e = true -> session_within_limit e.
Proof.
  destruct e as [rq| | | | | | | | | | | | | |]; try discriminate.
  cbn [is_put_to session_within_limit]. intros Hput Hs.
  apply andb_true_iff in Hput. destruct Hput as (Hput & _).
  apply String.eqb_eq in Hput.
  unfold opens_session in Hs. rewrite Hput in Hs. discriminate Hs.
Qed.

Lemma oauth_dispatch_sessions (req : Request) (fuel : nat) :
  every_event session_within_limit (YoutubeOauth.dispatch req fuel).
Proof.
  unfold YoutubeOauth.dispatch, YoutubeOauth.get_auth_url,
    YoutubeOauth.exchange_code, YoutubeOauth.refresh_token,
    YoutubeOauth.disconnect, YoutubeOauth.check_connection,
    YoutubeOauth.upload_video, YoutubeOauth.token_check.
  cbv zeta.
  repeat (every_event_step
          || unfold do_fetch, now, write, select_single, toISOString,
               getTime, deref, defined, YoutubeOauth.expiry_of).
  all: try not_a_session.
  all: try (eapply only_events_every;
            [|apply oauth_loop_only_puts]; apply put_is_no_session).
  all: cbn [session_within_limit]; intros _; eexists;
    (split; [reflexivity|]); split; lia.
Qed.

(** X12. Whatever the request and whatever the platforms answer,
    [youtube-oauth] opens an upload session only for a video whose size is
    not zero and not above 128 MiB: every request that opens a session
    declares such a size in its header [X-Upload-Content-Length]. *)
Theorem sessions_are_within_the_size_limit (req : Request) (fuel : nat) :
  every_event session_within_limit (YoutubeOauth.handler req fuel).
Proof.
  unfold YoutubeOauth.handler.
  destruct (req_method req =? "OPTIONS")%string.
  - apply every_event_ret.
  - apply every_event_try_catch; [apply oauth_dispatch_sessions|].
    intros msg. unfold YoutubeOauth.on_error.
    repeat every_event_step.
Qed.

(** X13. The verification request of a webhook subscription, a GET to
    [instagram-oauth], is answered with status 200 and the challenge
    exactly when [hub.mode] is [subscribe] and [hub.verify_token] is the
    configured token, or [instagram_webhook_token] when none (or an empty
    one) is configured; every other GET is answered with status 403 and
    "Forbidden".  No call is made in either case. *)
Theorem webhook_verification (env : Env) (tr : trace) (req : Request) :
  req_method req = "GET" ->
  let expected :=
    or_else (env_get env "WEBHOOK_VERIFY_TOKEN") "instagram_webhook_token" in
  let verified :=
    req_query req "hub.mode" = Some "subscribe"
    /\ req_query req "hub.verify_token" = Some expected in
  (verified ->
   InstagramOauth.handler req env tr
   = (Returned {| status := 200;
                  headers := [("Content-Type", "text/plain")];
                  resp := BodyText (req_query req "hub.challenge") |}, tr))
  /\ (~ verified ->
      InstagramOauth.handler req env tr
      = (Returned {| status := 403; headers := [];
                     resp := BodyText (Some "Forbidden") |}, tr)).
Proof.
  intros Hm expected verified. subst expected verified.
  unfold InstagramOauth.handler. rewrite Hm.
  change ("GET" =? "OPTIONS")%string with false.
  change ("GET" =? "GET")%string with true. cbv iota zeta.
  unfold bind, asks, ret. split.
  - intros (Hmode & Htoken). rewrite Hmode, Htoken.
    now rewrite !String.eqb_refl.
  - intros Hno.
    destruct (req_query req "hub.mode") as [m|]; [|reflexivity].
    destruct (req_query req "hub.verify_token") as [t|]; [|reflexivity].
    destruct (String.eqb_spec m "subscribe") as [-> | Hne]; [|reflexivity].
    destruct (String.eqb_spec t
                (or_else (env_get env "WEBHOOK_VERIFY_TOKEN")
                         "instagram_webhook_token")) as [-> | Hne];
      [|reflexivity].
    exfalso. apply Hno. split; reflexivity.
Qed.

Lemma webhook_verification_witness :
  InstagramOauth.handler Scenarios.webhook_probe Scenarios.unconfigured []
  = (Returned {| status := 200;
                 headers := [("Content-Type", "text/plain")];
                 resp := BodyText (Some "1158201444") |}, []).
Proof.
  exact (proj1 (webhook_verification Scenarios.unconfigured []
                  Scenarios.webhook_probe eq_refl)
               (conj eq_refl eq_refl)).
Defined.

Lemma finishes_instagram_expiry_of (expires_in : option Z) :
  finishes (InstagramOauth.expiry_of expires_in).
Proof. unfold InstagramOauth.expiry_of. repeat finishes_step. Qed.

#[export] Hint Resolve finishes_instagram_expiry_of : finishes.

Lemma instagram_dispatch_finishes (req : Request) :
  finishes (InstagramOauth.dispatch req).
Proof.
  unfold InstagramOauth.dispatch, InstagramOauth.exchange_code.
  cbv zeta. repeat finishes_step.
Qed.

Lemma instagram_dispatch_status (req : Request) :
  ensures (fun r => status r = 200) (InstagramOauth.dispatch req).
Proof.
  unfold InstagramOauth.dispatch, InstagramOauth.exchange_code.
  cbv zeta. repeat ensures_step.
Qed.

(** X14. [instagram-oauth] answers every request: no error escapes its
    handler.  The status of the answer is 200, or 400 with
    [success: false] for an operation that failed, or 403 for a GET that
    is not a valid verification request. *)
Theorem instagram_oauth_always_answers (req : Request) :
  returns (fun r => status r = 200
                    \/ (status r = 400 /\ success_of r = Some false)
                    \/ (status r = 403 /\ req_method req = "GET"))
          (InstagramOauth.handler req).
Proof.
  intros env tr. unfold InstagramOauth.handler.
  destruct (req_method req =? "OPTIONS")%string.
  { eexists. eexists. split; [reflexivity|]. left. reflexivity. }
  destruct (String.eqb_spec (req_method req) "GET") as [Hg | Hg].
  { unfold bind, asks, ret.
    destruct (match req_query req "hub.mode" with
              | Some m =>
                  match req_query req "hub.verify_token" with
                  | Some t => _
                  | None => false
                  end
              | None => false
              end);
      eexists; eexists; (split; [reflexivity|]);
      [left | right; right; split; [|exact Hg]]; reflexivity. }
  unfold try_catch.
  pose proof (instagram_dispatch_finishes req env tr) as Hfin.
  destruct (InstagramOauth.dispatch req env tr) as [[r | msg |] tr'] eqn:E.
  - exists r, tr'. split; [reflexivity|]. left.
    exact (instagram_dispatch_status req env tr r tr' E).
  - eexists. eexists. split; [reflexivity|]. right. left.
    split; reflexivity.
  - now destruct Hfin.
Qed.

(** A run is unfolded down to the answers of the environment, and the
    answers are told apart. *)
Ltac split_run :=
  repeat (first
            [ match goal with
              | |- context [of_result ?r] => destruct r eqn:?
              end
            | match goal with
              | |- context [if ?b then _ else _] => destruct b eqn:?
              end
            | match goal with
              | |- context [match ?x with Some _ => _ | None => _ end] =>
                  destruct x eqn:?
              end
            | match goal with
              | |- context [match ?x with nil => _ | cons _ _ => _ end] =>
                  destruct x eqn:?
              end
            | match goal with
              | |- context [match ?x with Num _ => _ | NaN => _ end] =>
                  destruct x eqn:?
              end ];
          cbn [of_result negb fst snd]).

(** X28. [youtube-oauth] stores a connection only as the last step of
    [exchange_code]: the upsert is never followed by another call, no step
    before it writes anything, and a success is answered only after the
    upsert.  So when Google rejects the code, or the account has no
    channel, nothing has been stored. *)
Theorem connection_is_stored_last
        (env : Env) (tr : trace)
        (googleClientId googleClientSecret redirectUri actualUserId : string)
        (code : option string) :
  let run :=
    YoutubeOauth.exchange_code googleClientId googleClientSecret redirectUri
                               actualUserId code env tr in
  exists added,
    snd run = (tr ++ added)%list
    /\ forallb (fun e => negb (is_store_write e)) (removelast added) = true
    /\ (forall response,
           fst run = Returned response ->
           exists values,
             last added ReadClock
             = DbUpsert "user_social_connections" values "user_id,platform").
Proof.
  intros run. subst run. unfold YoutubeOauth.exchange_code.
  unfold YoutubeOauth.expiry_of.
  unfold bind, do_fetch, write, now, toISOString, asks, call, await, deref,
    ret, throw.
  cbv beta iota.
  split_run;
    (eexists; split; [rewrite <- ?List.app_assoc; cbn [app]; reflexivity|];
     split; [reflexivity|];
     intros response Hr; try discriminate Hr; eexists; reflexivity).
Qed.

End EdgeFacts.

(* ------------------------------------------------------------------ *)
(** ** Edge function [instagram-post] *)

Module InstagramPostFacts.
Import Js Rt Edge InstagramPost RtFacts HandlerFacts HookFacts.

Lemma finishes_carousel_items (instagramUserId : option string)
      (accessToken : string) (urls : list string) :
  forall containerIds,
    finishes (carousel_items instagramUserId accessToken urls containerIds).
Proof.
  induction urls as [|url rest IH]; intros containerIds;
    cbn [carousel_items]; repeat finishes_step.
Qed.

#[export] Hint Resolve finishes_carousel_items : finishes.

Lemma finishes_post (req : PostRequest) : finishes (post req).
Proof.
  unfold post, token_expired, post_carousel, post_single. cbv zeta.
  repeat finishes_step.
Qed.

Lemma post_status (req : PostRequest) :
  ensures (fun r => status r = 200 /\ success_of r = Some true) (post req).
Proof.
  unfold post, token_expired, post_carousel, post_single. cbv zeta.
  repeat ensures_step; split; reflexivity.
Qed.

(** X15. [instagram-post] answers every request: no error escapes its
    handler.  The answer has status 200, with [success: true] unless the
    request is a preflight, or status 400 with [success: false]. *)
Theorem instagram_post_always_answers (req : PostRequest) :
  returns (fun r => (status r = 200
                     /\ (post_method req = "OPTIONS"
                         \/ success_of r = Some true))
                    \/ (status r = 400 /\ success_of r = Some false))
          (handler req).
Proof.
  intros env tr. unfold handler.
  destruct (String.eqb_spec (post_method req) "OPTIONS") as [Ho | Ho].
  { eexists. eexists. split; [reflexivity|]. left. split; [reflexivity|].
    now left. }
  unfold try_catch.
  pose proof (finishes_post req env tr) as Hfin.
  destruct (post req env tr) as [[r | msg |] tr'] eqn:E.
  - exists r, tr'. split; [reflexivity|]. left.
    destruct (post_status req env tr r tr' E) as (Hs & Hok).
    split; [exact Hs | now right].
  - eexists. eexists. split; [reflexivity|]. right. split; reflexivity.
  - now destruct Hfin.
Qed.

(** X16. [instagram-post] refuses with status 400, before any request to
    Instagram: a request in which [userId], [imageUrl] or [caption] is
    missing or empty, without any call; a request of a user without an
    Instagram connection, after the lookup in the database; and a request
    of a user whose token has an expiry date before the time of the
    clock, after the lookup and the reading of the clock. *)
Theorem post_refuses_before_instagram
        (env : Env) (tr : trace) (req : PostRequest) (b : post_body) :
  post_method req <> "OPTIONS" ->
  post_json req = Ok b ->
  let lookup :=
    DbSelectSingle "user_social_connections"
      [("user_id", DbStr (show (userId b)));
       ("platform", DbStr "instagram")] in
  let ready :=
    truthy (userId b) = true /\ truthy (imageUrl b) = true
    /\ truthy (caption b) = true
    /\ createClient env (env_get env "SUPABASE_URL")
                    (env_get env "SUPABASE_SERVICE_ROLE_KEY") = Ok tt in
  (truthy (userId b) = false \/ truthy (imageUrl b) = false
   \/ truthy (caption b) = false ->
   handler req env tr
   = (Returned
        (refusal "Missing required fields: userId, imageUrl, caption"), tr))
  /\ (forall sel,
         ready ->
         db_select_single env tr "user_social_connections"
           [("user_id", DbStr (show (userId b)));
            ("platform", DbStr "instagram")] = Ok sel ->
         db_error sel <> None \/ db_data sel = None ->
         handler req env tr
         = (Returned (refusal "Instagram account not connected"),
            (tr ++ [lookup])%list))
  /\ (forall connection expiry,
         ready ->
         db_select_single env tr "user_social_connections"
           [("user_id", DbStr (show (userId b)));
            ("platform", DbStr "instagram")]
         = Ok {| db_data := Some connection; db_error := None |} ->
         truthy (r_token_expires_at connection) = true ->
         time_clip (date_getTime env (show (r_token_expires_at connection)))
         = Num expiry ->
         expiry < clock env (tr ++ [lookup])%list ->
         handler req env tr
         = (Returned
              (refusal "Instagram access token has expired. Please reconnect your account."),
            (tr ++ [lookup; ReadClock])%list)).
Proof.
  intros Hm Hb lookup ready. subst lookup ready.
  apply String.eqb_neq in Hm.
  unfold handler. rewrite Hm. unfold try_catch, post.
  split; [intros Hmiss
         | split; [intros sel (Hu & Hi & Hc & Hmk) Hsel Hnone
                  | intros connection expiry (Hu & Hi & Hc & Hmk) Hsel
                           Het Hexp Hlt]];
    unfold bind at 1; unfold await at 1; rewrite Hb; cbn [of_result];
    cbv zeta.
  - assert (E : negb (truthy (userId b)) || negb (truthy (imageUrl b))
                || negb (truthy (caption b)) = true).
    { destruct Hmiss as [H | [H | H]]; rewrite H; cbn [negb];
        rewrite ?orb_true_r; reflexivity. }
    rewrite E. reflexivity.
  - rewrite Hu, Hi, Hc. cbn [negb orb].
    unfold bind, asks, await, select_single, call.
    rewrite Hmk. cbn [of_result]. rewrite Hsel. cbn [of_result].
    destruct Hnone as [He | Hd].
    + destruct (db_error sel); [|congruence].
      destruct (db_data sel); reflexivity.
    + rewrite Hd. destruct (db_error sel); reflexivity.
  - rewrite Hu, Hi, Hc. cbn [negb orb].
    unfold bind, asks, await, select_single, call.
    rewrite Hmk. cbn [of_result]. rewrite Hsel.
    cbn [of_result db_error db_data].
    unfold token_expired. rewrite Het.
    unfold bind, getTime, asks, now, call, ret. cbn [of_result].
    rewrite Hexp. cbn [ltb].
    rewrite (proj2 (Z.ltb_lt _ _) Hlt).
    rewrite <- List.app_assoc. reflexivity.
Qed.

Lemma post_refuses_before_instagram_witness :
  handler Scenarios.no_caption Examples.offline []
  = (Returned
       (refusal "Missing required fields: userId, imageUrl, caption"), [])
  /\ handler Scenarios.single_post
       (Examples.with_connection Scenarios.stale_instagram Examples.offline)
       []
     = (Returned
          (refusal "Instagram access token has expired. Please reconnect your account."),
        [DbSelectSingle "user_social_connections"
           [("user_id", DbStr "u1"); ("platform", DbStr "instagram")];
         ReadClock]).
Proof.
  split.
  - refine (proj1 (post_refuses_before_instagram Examples.offline []
                     Scenarios.no_caption _ _ eq_refl) _).
    + discriminate.
    + right. right. reflexivity.
  - refine (proj2 (proj2 (post_refuses_before_instagram
                            (Examples.with_connection
                               Scenarios.stale_instagram Examples.offline)
                            [] Scenarios.single_post _ _ eq_refl))
                  Scenarios.stale_instagram 1699999999000
                  (conj eq_refl (conj eq_refl (conj eq_refl eq_refl)))
                  eq_refl eq_refl eq_refl eq_refl).
    discriminate.
Defined.



(** One step of a run of [instagram-post]: the computation is unfolded
    down to the answers of the environment. *)
Ltac unfold_run :=
  unfold bind, do_fetch, emit, call, await, deref, ret, throw;
  cbv beta iota.

(** X18. A single image is published only after its container has been
    created and two seconds have passed.  A run of the single-image post
    either fails right after the request for the container, and then no
    request to publish is sent; or the container was created, and the run
    goes on with the pause of 2000 ms and one request to publish the
    container whose id the answer carried. *)
Theorem single_post_waits_before_publishing
        (env : Env) (tr : trace) (instagramUserId : option string)
        (accessToken imageUrl caption : string) :
  let container :=
    container_request instagramUserId accessToken imageUrl caption in
  (exists msg,
      post_single instagramUserId accessToken imageUrl caption env tr
      = (Threw msg, (tr ++ [Fetch container])%list))
  \/ (exists r containerData o,
         fetch env tr container = Ok r
         /\ rs_ok r = true
         /\ rs_json r = Ok (Some containerData)
         /\ post_single instagramUserId accessToken imageUrl caption env tr
            = (o, (tr ++ [Fetch container; Sleep 2000;
                          Fetch (publish_request instagramUserId accessToken
                                                 (d_id containerData))])%list)
         /\ o <> Unfinished).
Proof.
  intros container. unfold post_single. fold container. unfold_run.
  destruct (fetch env tr container) as [r | m] eqn:Hf; cbn [of_result];
    [|left; eexists; reflexivity].
  destruct (rs_ok r) eqn:Hok; cbn [negb].
  2: { left. destruct (rs_text r); cbn [of_result]; eexists; reflexivity. }
  destruct (rs_json r) as [[containerData|] | m] eqn:Hj; cbn [of_result];
    try (left; eexists; reflexivity).
  right. exists r, containerData.
  match goal with
  | |- context [fetch env ?t ?q] => destruct (fetch env t q) as [p | m]
  end; cbn [of_result];
    [destruct (rs_ok p); cbn [negb];
     [destruct (rs_json p) as [[d|] | m] | destruct (rs_text p)];
     cbn [of_result] |];
    (eexists; repeat split; try assumption;
     try (rewrite <- !List.app_assoc; reflexivity); discriminate).
Qed.

(** The loop over the images of a carousel: it asks for one container per
    image, in the order of the list, and stops at the first request that
    fails. *)
Lemma carousel_items_run
      (env : Env) (instagramUserId : option string) (accessToken : string)
      (urls : list string) :
  forall containerIds tr,
    (exists more,
        carousel_items instagramUserId accessToken urls containerIds env tr
        = (Returned (containerIds ++ more)%list,
           (tr ++ item_events instagramUserId accessToken urls)%list)
        /\ List.length more = List.length urls)
    \/ (exists k msg,
           (k < List.length urls)%nat
           /\ carousel_items instagramUserId accessToken urls containerIds
                             env tr
              = (Threw msg,
                 (tr ++ item_events instagramUserId accessToken
                                    (firstn (S k) urls))%list)).
Proof.
  induction urls as [|url rest IH]; intros containerIds tr.
  - left. exists []. cbn. now rewrite !List.app_nil_r.
  - cbn [carousel_items]. unfold_run.
    assert (Hfirst : forall msg,
               exists k msg',
                 (k < List.length (url :: rest))%nat
                 /\ (@Threw (list (option string)) msg,
                     (tr ++ [Fetch (item_request instagramUserId accessToken
                                                 url)])%list)
                    = (Threw msg',
                       (tr ++ item_events instagramUserId accessToken
                                          (firstn (S k) (url :: rest)))%list)).
    { intros msg. exists 0%nat, msg. split; [cbn; lia | reflexivity]. }
    destruct (fetch env tr (item_request instagramUserId accessToken url))
      as [r | m]; cbn [of_result]; [|right; apply Hfirst].
    destruct (rs_ok r); cbn [negb].
    2: { right. destruct (rs_text r); cbn [of_result]; apply Hfirst. }
    destruct (rs_json r) as [[containerData|] | m]; cbn [of_result];
      try (right; apply Hfirst).
    destruct (IH (containerIds ++ [d_id containerData])%list
                 (tr ++ [Fetch (item_request instagramUserId accessToken
                                             url)])%list)
      as [(more & E & Hlen) | (k & msg & Hk & E)]; rewrite E.
    + left. exists (d_id containerData :: more).
      rewrite <- !List.app_assoc. cbn [app item_events map List.length].
      split; [reflexivity | now rewrite Hlen].
    + right. exists (S k), msg. split; [cbn; lia|].
      rewrite <- List.app_assoc. reflexivity.
Qed.

(** X19. A carousel is posted in this order: one request for the
    container of each image, in the order of [carouselUrls]; then one
    request for the container of the carousel, which names one child per
    image; then one request to publish.  The first request that fails ends
    the run: when the container of an image cannot be created, neither the
    carousel container nor the request to publish is sent. *)
Theorem carousel_is_posted_in_order
        (env : Env) (tr : trace) (instagramUserId : option string)
        (accessToken caption : string) (urls : list string) :
  let items := item_events instagramUserId accessToken in
  (exists k msg,
      (k < List.length urls)%nat
      /\ post_carousel instagramUserId accessToken caption urls env tr
         = (Threw msg, (tr ++ items (firstn (S k) urls))%list))
  \/ (exists containerIds,
         List.length containerIds = List.length urls
         /\ let carousel :=
              carousel_request instagramUserId accessToken containerIds
                               caption in
            (exists msg,
                post_carousel instagramUserId accessToken caption urls env tr
                = (Threw msg, (tr ++ items urls ++ [Fetch carousel])%list))
            \/ (exists creation_id o,
                   post_carousel instagramUserId accessToken caption urls
                                 env tr
                   = (o, (tr ++ items urls
                             ++ [Fetch carousel;
                                 Fetch (publish_request instagramUserId
                                          accessToken creation_id)])%list)
                   /\ o <> Unfinished)).
Proof.
  intros items. subst items. unfold post_carousel. unfold_run.
  destruct (carousel_items_run env instagramUserId accessToken urls [] tr)
    as [(containerIds & E & Hlen) | (k & msg & Hk & E)]; rewrite E.
  2: { left. exists k, msg. split; [exact Hk | reflexivity]. }
  right. cbn [app]. exists containerIds. split; [exact Hlen|].
  cbv zeta.
  set (carousel := carousel_request instagramUserId accessToken containerIds
                                    caption).
  set (items := item_events instagramUserId accessToken urls).
  assert (Hfirst : forall msg,
             (@Threw Response msg, ((tr ++ items) ++ [Fetch carousel])%list)
             = (Threw msg, (tr ++ items ++ [Fetch carousel])%list))
    by (intros msg; now rewrite <- !List.app_assoc).
  destruct (fetch env (tr ++ items)%list carousel) as [r | m];
    cbn [of_result]; [|left; eexists; apply Hfirst].
  destruct (rs_ok r); cbn [negb].
  2: { left. destruct (rs_text r); cbn [of_result]; eexists; apply Hfirst. }
  destruct (rs_json r) as [[carouselData|] | m]; cbn [of_result];
    try (left; eexists; apply Hfirst).
  right. exists (d_id carouselData).
  match goal with
  | |- context [fetch env ?t ?q] => destruct (fetch env t q) as [p | m]
  end; cbn [of_result];
    [destruct (rs_ok p); cbn [negb];
     [destruct (rs_json p) as [[d|] | m] | destruct (rs_text p)];
     cbn [of_result] |];
    (eexists; split;
     [rewrite <- !List.app_assoc; reflexivity | discriminate]).
Qed.

End InstagramPostFacts.

(* ------------------------------------------------------------------ *)
(** ** The hook [useSocialMediaUpload]: what the uploads never do *)

Module UploadFacts.
Import Js Rt Edge Hook Observe RtFacts HandlerFacts HookFacts ObserveFacts.



(** X20. The hook never uploads anything to Instagram or Facebook:
    whatever the asset and the connection, [uploadToInstagram] and
    [uploadToFacebook] make no call to a platform, to the database or to
    an edge function, and the only connections for which they return a
    success are those that carry the demo token of the platform. *)
Theorem instagram_and_facebook_stay_local
        (asset : AssetToUpload) (connection : SocialConnection) :
  only_events is_local (uploadToInstagram asset connection)
  /\ only_events is_local (uploadToFacebook asset connection)
  /\ ensures (fun r => ur_success r = true ->
                       conn_access_token connection
                       = "demo_access_token_instagram")
             (uploadToInstagram asset connection)
  /\ ensures (fun r => ur_success r = true ->
                       conn_access_token connection
                       = "demo_access_token_facebook")
             (uploadToFacebook asset connection).
Proof.
  unfold uploadToInstagram, uploadToFacebook, isTestConnection_instagram,
    isTestConnection_facebook, sleep, emit, now.
  split; [|split; [|split]].
  - repeat only_events_step.
  - repeat only_events_step.
  - destruct (String.eqb_spec (conn_access_token connection)
                              "demo_access_token_instagram") as [E | E].
    + repeat ensures_step. intros _. exact E.
    + apply ensures_ret. discriminate.
  - destruct (String.eqb_spec (conn_access_token connection)
                              "demo_access_token_facebook") as [E | E].
    + repeat ensures_step. intros _. exact E.
    + apply ensures_ret. discriminate.
Qed.

(** X21. A video that is not ready, that is a video whose URL is empty,
    [processing] or [pending], is never handed to the edge function: for a
    connection that is no test connection, [uploadToYouTube] returns a
    failure, "Asset not ready" or, when the token check fails first,
    "Token expired", and has not invoked the upload. *)
Theorem unready_video_is_not_sent
        (env : Env) (tr : trace) (asset : AssetToUpload)
        (connection : SocialConnection) :
  isTestConnection_youtube connection = false ->
  as_asset_type asset = Compat.Video ->
  as_asset_url asset = "" \/ as_asset_url asset = "processing"
  \/ as_asset_url asset = "pending" ->
  exists result added,
    uploadToYouTube asset connection env tr
    = (Returned result, (tr ++ added)%list)
    /\ ur_success result = false
    /\ (ur_error result = Some "Asset not ready"
        \/ ur_error result = Some "Token expired")
    /\ forallb (fun e => negb (is_invoke e)) added = true.
Proof.
  intros Htest Htype Hurl. unfold uploadToYouTube. rewrite Htest, Htype.
  destruct (tokenExpired_returns connection env tr)
    as (b & added & E & Hinv & _).
  unfold try_catch, bind. rewrite E.
  destruct b.
  - eexists. exists added. split; [reflexivity|]. auto.
  - assert (Hnot : negb (truthy (Some (as_asset_url asset)))
                   || (as_asset_url asset =? "processing")%string
                   || (as_asset_url asset =? "pending")%string = true).
    { destruct Hurl as [H | [H | H]]; rewrite H; reflexivity. }
    rewrite Hnot. eexists. exists added. split; [reflexivity|]. auto.
Qed.

Lemma unready_video_is_not_sent_witness :
  exists result added,
    uploadToYouTube Scenarios.pending_video
      (mapRow Examples.fresh_connection) Examples.offline []
    = (Returned result, added)
    /\ ur_success result = false
    /\ forallb (fun e => negb (is_invoke e)) added = true.
Proof.
  destruct (unready_video_is_not_sent Examples.offline []
              Scenarios.pending_video (mapRow Examples.fresh_connection)
              eq_refl eq_refl (or_intror (or_introl eq_refl)))
    as (result & added & E & Hs & _ & Hinv).
  exists result, added. repeat split; assumption.
Defined.

(** X29. [uploadToYouTube] reports no success of its own making: for a
    connection that is no test connection, a result with [success: true]
    is returned only for a video, and only when the last thing the
    function did was to invoke the edge function [youtube-oauth] and the
    edge function answered without an error and with [success: true]; the
    URL of the result is the one the edge function gave. *)
Theorem youtube_success_comes_from_the_edge_function
        (env : Env) (tr tr' : trace) (asset : AssetToUpload)
        (connection : SocialConnection) (result : UploadResult) :
  isTestConnection_youtube connection = false ->
  uploadToYouTube asset connection env tr = (Returned result, tr') ->
  ur_success result = true ->
  exists before doc data,
    tr' = (before ++ [FunctionsInvoke "youtube-oauth" doc])%list
    /\ functions_invoke env before "youtube-oauth" doc
       = Ok {| iv_data := Some data; iv_err := None |}
    /\ iv_success data = Some true
    /\ ur_url result = iv_url data
    /\ as_asset_type asset = Compat.Video.
Proof.
  intros Htest Hrun Hsucc. unfold uploadToYouTube in Hrun.
  rewrite Htest in Hrun.
  destruct (tokenExpired_returns connection env tr)
    as (b & added & E & _).
  unfold try_catch at 1, bind at 1 in Hrun. rewrite E in Hrun.
  assert (Hfail : forall p m e t,
             (Returned (failure p m e), t) = (Returned result, tr') ->
             False).
  { intros p m e t H. injection H as <- _. discriminate Hsucc. }
  destruct b; [now apply Hfail in Hrun|].
  destruct (as_asset_type asset); try (now apply Hfail in Hrun).
  destruct (negb (truthy (Some (as_asset_url asset)))
            || (as_asset_url asset =? "processing")%string
            || (as_asset_url asset =? "pending")%string);
    [now apply Hfail in Hrun|].
  unfold currentUser, invoke in Hrun.
  unfold try_catch, bind, call, ret, throw in Hrun. cbv beta iota in Hrun.
  destruct (auth_getUser env (tr ++ added)%list) as [user | msg];
    cbn [of_result] in Hrun; [|now apply Hfail in Hrun].
  match type of Hrun with
  | context [functions_invoke env ?t ?name ?doc] =>
      destruct (functions_invoke env t name doc)
        as [[[[[[|] |] url err] |] [message|]] | msg] eqn:Hinv;
        cbn [of_result iv_err iv_data iv_success iv_url iv_error] in Hrun;
        try (now apply Hfail in Hrun);
        exists t, doc, {| iv_success := Some true; iv_url := url;
                          iv_error := err |}
  end.
  injection Hrun as <- <-.
  repeat split; try reflexivity. exact Hinv.
Qed.

Lemma youtube_success_comes_from_the_edge_function_witness :
  exists result before doc,
    fst (uploadToYouTube Examples.video_asset
           (mapRow Examples.fresh_connection)
           Scenarios.function_deployed [])
    = Returned result
    /\ ur_success result = true
    /\ snd (uploadToYouTube Examples.video_asset
              (mapRow Examples.fresh_connection)
              Scenarios.function_deployed [])
       = (before ++ [FunctionsInvoke "youtube-oauth" doc])%list
    /\ ur_url result = Some "https://www.youtube.com/watch?v=v1".
Proof.
  destruct (uploadToYouTube Examples.video_asset
              (mapRow Examples.fresh_connection)
              Scenarios.function_deployed [])
    as [o tr'] eqn:Hrun.
  assert (Hres : exists result,
             o = Returned result /\ ur_success result = true).
  { vm_compute in Hrun. injection Hrun as <- _.
    eexists. split; reflexivity. }
  destruct Hres as (result & -> & Hsucc).
  destruct (youtube_success_comes_from_the_edge_function
              Scenarios.function_deployed [] tr' Examples.video_asset
              (mapRow Examples.fresh_connection) result
              eq_refl Hrun Hsucc)
    as (before & doc & data & Htr & Hinv & _ & Hurl & _).
  exists result, before, doc. cbn [fst snd].
  repeat split; try assumption.
  rewrite Hurl. cbn in Hinv. injection Hinv as <-. reflexivity.
Defined.


(** X23. Loading the connected platforms never fails and never writes:
    [getConnectedPlatforms] always returns a list, and all it does is ask
    for the user, query the database, read the local storage and read the
    clock. *)
Theorem loading_connections_only_reads :
  returns (fun _ => True) getConnectedPlatforms
  /\ only_events is_read getConnectedPlatforms.
Proof.
  split; [exact getConnectedPlatforms_returns|].
  unfold getConnectedPlatforms, currentUser, localPlatforms, getItem, parse.
  repeat (only_events_step || unfold getTime, toISOString, now).
Qed.

End UploadFacts.

(* ------------------------------------------------------------------ *)
(** ** The hook [useYouTubeAuth] *)

Module YouTubeAuthFacts.
Import Js Rt Edge YouTubeAuth RtFacts.

(** X24. When the hook is mounted and the database holds an active
    YouTube connection, the hook is connected only if the expiry date of
    the token is after the time of the clock.  Otherwise, that is when the
    date is in the past, is no valid date or is missing (the date of
    [null] is the epoch), the hook deletes the connection from the
    database and stays as it was. *)
Theorem expired_connection_is_deleted_on_start
        (env : Env) (tr : trace) (st : AuthState) (connection : row) :
  db_select_single env tr "user_social_connections" connection_filter
  = Ok {| db_data := Some connection; db_error := None |} ->
  let lookup := DbSelectSingle "user_social_connections" connection_filter in
  let tokenExpiry :=
    match r_token_expires_at connection with
    | Some s => time_clip (date_getTime env s)
    | None => Num 0
    end in
  let t := clock env (tr ++ [lookup])%list in
  (ltb (Num t) tokenExpiry = true ->
   exists info,
     checkExistingConnection st env tr
     = (Returned {| isConnected := true; userInfo := Some info |},
        (tr ++ [lookup; ReadClock])%list))
  /\ (ltb (Num t) tokenExpiry = false ->
      fst (checkExistingConnection st env tr) = Returned st
      /\ snd (checkExistingConnection st env tr)
         = (tr ++ [lookup; ReadClock;
                   DbDelete "user_social_connections"
                            [("id", DbStr (r_id connection))]])%list).
Proof.
  intros Hsel lookup tokenExpiry t. subst lookup tokenExpiry t.
  assert (Hdate : forall tr0,
             date_of (r_token_expires_at connection) env tr0
             = (Returned
                  match r_token_expires_at connection with
                  | Some s => time_clip (date_getTime env s)
                  | None => Num 0
                  end, tr0)).
  { intros tr0. unfold date_of.
    destruct (r_token_expires_at connection); reflexivity. }
  split; intros Hlt; [eexists | split];
    unfold checkExistingConnection, try_catch, bind, select_single, now,
      write, call;
    rewrite Hsel; cbn [of_result db_error db_data];
    rewrite Hdate; cbn [of_result]; rewrite Hlt; unfold ret.
  - rewrite <- List.app_assoc. reflexivity.
  - now destruct (db_write env _ _).
  - rewrite <- !List.app_assoc. cbn [app].
    now destruct (db_write env _ _).
Qed.

Lemma expired_connection_is_deleted_on_start_witness :
  fst (checkExistingConnection {| isConnected := false; userInfo := None |}
         (Scenarios.stored Scenarios.undated_youtube) [])
  = Returned {| isConnected := false; userInfo := None |}
  /\ snd (checkExistingConnection
            {| isConnected := false; userInfo := None |}
            (Scenarios.stored Scenarios.undated_youtube) [])
     = [DbSelectSingle "user_social_connections" connection_filter;
        ReadClock;
        DbDelete "user_social_connections" [("id", DbStr "c22")]].
Proof.
  exact (proj2 (expired_connection_is_deleted_on_start
                  (Scenarios.stored Scenarios.undated_youtube) []
                  {| isConnected := false; userInfo := None |}
                  Scenarios.undated_youtube eq_refl)
               eq_refl).
Defined.

(** X25. [disconnect] of the hook reports a success whatever the database
    answers: it asks the database once to delete the connection, then
    shows "YouTube Disconnected" and leaves the hook disconnected, also
    when the deletion was rejected. *)
Theorem disconnect_always_reports_success
        (env : Env) (tr : trace) (st : AuthState) :
  disconnect st env tr
  = (Returned {| isConnected := false; userInfo := None |},
     (tr ++ [DbDelete "user_social_connections"
               [("platform", DbStr "youtube");
                ("user_id", DbStr "default_user")];
             Toast "YouTube Disconnected"
                   "Successfully disconnected from YouTube" false])%list).
Proof.
  unfold disconnect, try_catch, bind, write, Hook.toast, emit, call, ret.
  destruct (db_write env tr _) as [[err|] | msg]; cbn [of_result];
    rewrite <- List.app_assoc; reflexivity.
Qed.

End YouTubeAuthFacts.

(* ------------------------------------------------------------------ *)
(** ** The metadata of an upload *)

Module MetadataFacts.
Import Js Rt Edge Observe.

Lemma substring0_length (n : nat) (s : string) :
  (String.length (substring0 n s) <= n)%nat.
Proof.
  unfold substring0. revert s.
  induction n as [|n IH]; intros [|c s]; cbn; try lia.
  specialize (IH s). lia.
Qed.

Lemma substring0_prefix (n : nat) (s : string) :
  String.prefix (substring0 n s) s = true.
Proof.
  unfold substring0. revert s.
  induction n as [|n IH]; intros [|c s]; cbn; try reflexivity.
  rewrite IH. now destruct (ascii_dec c c).
Qed.

Lemma substring0_short (n : nat) (s : string) :
  (String.length s <= n)%nat -> substring0 n s = s.
Proof.
  unfold substring0. revert s.
  induction n as [|n IH]; intros [|c s]; cbn; intros H;
    try reflexivity; try lia.
  rewrite IH by lia. reflexivity.
Qed.

(** X26. The metadata that [youtube-upload] and [youtube-oauth] send with
    an upload hold a title of at most 100 characters, which is the
    beginning of the given title and the whole of it when it is that
    short, and at most 500 tags, which are the first of the given tags
    and all of them when they are that few. *)
Theorem metadata_respects_the_limits
        (title : string) (description : option string)
        (tags : list string) (privacyStatus : string) :
  exists t tg,
    title_and_tags
      (YoutubeUpload.metadata title description tags privacyStatus)
    = Some (t, map JStr tg)
    /\ title_and_tags
         (YoutubeOauth.metadata title description tags privacyStatus)
       = Some (t, map JStr tg)
    /\ (String.length t <= 100)%nat
    /\ String.prefix t title = true
    /\ ((String.length title <= 100)%nat -> t = title)
    /\ (List.length tg <= 500)%nat
    /\ (exists rest, tags = (tg ++ rest)%list)
    /\ ((List.length tags <= 500)%nat -> tg = tags).
Proof.
  exists (substring0 100 title), (firstn 500 tags).
  split; [reflexivity|]. split; [reflexivity|].
  split; [apply substring0_length|].
  split; [apply substring0_prefix|].
  split; [apply substring0_short|].
  split; [apply firstn_le_length|].
  split; [exists (skipn 500 tags); symmetry; apply firstn_skipn|].
  apply firstn_all2.
Qed.

End MetadataFacts.

(* ------------------------------------------------------------------ *)
(** ** A refresh that succeeds *)

Module RefreshFacts.
Import Js Rt Edge TokenFacts.

(** X27. When the token of a connection is within five minutes of its
    expiry, the connection has a refresh token and the token endpoint
    accepts the refresh, the token check of [youtube-upload] goes on with
    the new access token and stores it: it updates the row of the
    connection with the new token and with the expiry date "time of the
    clock plus [expires_in] seconds".  The answer of the database to the
    update is not looked at. *)
Theorem refreshed_token_is_stored_and_used
        (env : Env) (tr : trace) (connection : row) (expiry n : Z)
        (r : response) (refreshData : document) (answer : option string) :
  truthy (r_token_expires_at connection) = true ->
  time_clip (date_getTime env (show (r_token_expires_at connection)))
  = Num expiry ->
  expiry - clock env tr <= 300000 ->
  truthy (r_refresh_token connection) = true ->
  let refresh :=
    {| rq_method := "POST";
       rq_url := "https://oauth2.googleapis.com/token";
       rq_headers := [("Content-Type", "application/x-www-form-urlencoded")];
       rq_body := FormBody
         [("client_id", show (env_get env "GOOGLE_CLIENT_ID"));
          ("client_secret", show (env_get env "GOOGLE_CLIENT_SECRET"));
          ("grant_type", "refresh_token");
          ("refresh_token", show (r_refresh_token connection))] |} in
  let tr1 := (tr ++ [ReadClock; Fetch refresh])%list in
  let update :=
    DbUpdate "user_social_connections"
      [("access_token", d_access_token refreshData);
       ("token_expires_at",
        Some (date_toISOString env (clock env tr1 + n * 1000)));
       ("updated_at",
        Some (date_toISOString env (clock env (tr1 ++ [ReadClock])%list)))]
      [("id", DbStr (r_id connection))] in
  fetch env (tr ++ [ReadClock])%list refresh = Ok r ->
  rs_ok r = true ->
  rs_json r = Ok (Some refreshData) ->
  d_expires_in refreshData = Some n ->
  Z.abs (clock env tr1 + n * 1000) <= 8640000000000000 ->
  Z.abs (clock env (tr1 ++ [ReadClock])%list) <= 8640000000000000 ->
  db_write env (tr1 ++ [ReadClock; ReadClock])%list update = Ok answer ->
  YoutubeUpload.token_check connection env tr
  = (Returned (d_access_token refreshData),
     (tr1 ++ [ReadClock; ReadClock; update])%list).
Proof.
  intros Et Hexp Hnear Hrt refresh tr1 update Hf Hok Hj Hn Hd1 Hd2 Hw.
  assert (E1 : ((tr ++ [ReadClock]) ++ [Fetch refresh])%list = tr1)
    by (subst tr1; now rewrite <- List.app_assoc).
  assert (E2 : ((tr1 ++ [ReadClock]) ++ [ReadClock])%list
               = (tr1 ++ [ReadClock; ReadClock])%list)
    by (now rewrite <- List.app_assoc).
  unfold YoutubeUpload.token_check. rewrite Et, Hrt.
  unfold bind at 1. unfold getTime at 1, asks at 1. rewrite Hexp.
  unfold bind at 1. unfold now at 1, call at 1. cbn [of_result].
  rewrite inside_window by assumption.
  unfold bind at 1. unfold asks at 1.
  unfold bind at 1. unfold asks at 1.
  unfold bind at 1. unfold do_fetch at 1, call at 1.
  fold refresh. rewrite Hf. cbn [of_result]. rewrite Hok, E1.
  unfold bind at 1. unfold await at 1. rewrite Hj. cbn [of_result].
  unfold bind at 1. cbn [deref ret].
  unfold bind at 1. unfold now at 1, call at 1. cbn [of_result].
  rewrite Hn. cbn [num_of mul add].
  unfold bind at 1.
  rewrite (toISOString_valid (Num (clock env tr1 + n * 1000))
                             (clock env tr1 + n * 1000))
    by (cbn [time_clip]; now rewrite (proj2 (Z.leb_le _ _) Hd1)).
  unfold bind at 1. unfold now at 1, call at 1. cbn [of_result].
  unfold bind at 1.
  rewrite (toISOString_valid (Num (clock env (tr1 ++ [ReadClock])%list))
                             (clock env (tr1 ++ [ReadClock])%list))
    by (cbn [time_clip]; now rewrite (proj2 (Z.leb_le _ _) Hd2)).
  unfold bind, write, call, ret. rewrite E2. fold update. rewrite Hw.
  cbn [of_result]. rewrite <- List.app_assoc. reflexivity.
Qed.

Lemma refreshed_token_is_stored_and_used_witness :
  exists update,
    YoutubeUpload.token_check Examples.refreshable_connection
                              Scenarios.refresh_accepted []
    = (Returned (Some "new-token"),
       [ReadClock;
        Fetch {| rq_method := "POST";
                 rq_url := "https://oauth2.googleapis.com/token";
                 rq_headers :=
                   [("Content-Type", "application/x-www-form-urlencoded")];
                 rq_body := FormBody
                   [("client_id", "value of GOOGLE_CLIENT_ID");
                    ("client_secret", "value of GOOGLE_CLIENT_SECRET");
                    ("grant_type", "refresh_token");
                    ("refresh_token", "refresh-1")] |};
        ReadClock; ReadClock; update]).
Proof.
  eexists.
  exact (refreshed_token_is_stored_and_used Scenarios.refresh_accepted []
           Examples.refreshable_connection 1699999999000 3600 _ _ None
           eq_refl eq_refl ltac:(vm_compute; discriminate) eq_refl
           eq_refl eq_refl eq_refl eq_refl
           ltac:(vm_compute; discriminate) ltac:(vm_compute; discriminate)
           eq_refl).
Defined.

End RefreshFacts.
